(** * sleuthkit_unittests: the text parser and the btrfs test class

    A shallow embedding of [unittests/textparser.py] (class [TextParser]:
    [parse_fls_files], [parse_ils], [parse_stat]) and of the parts of
    [unittests/test_btrfs.py] that consume its results (the merge loop of
    [setUpClassCustom], [test_metadata_inode], [test_metadata_size],
    [test_filedata]), with the properties of the specification stated
    against them; then the rest of the set-up and of the tests, and the
    parts of [unittests/testimage.py] that name the images, choose the
    formatting command, fill the files and write the manifest, with
    further properties of the code.

    Conventions of the embedding.
    - A Python [bytes] object is a [list byte]; a Python [str] is the list
      of its code points ([list N]); a Python [int] is a [Z].
    - A Python expression that can raise evaluates to a [result]:
      [Ok v] or [Raise e], [e] naming the exception class.
    - A list or tuple of mixed [int]/[str] fields is a [list value].
    - [dict] is a [gmap], [set] is a [gset].
    - Builtins whose outcome depends on the interpreter's Unicode tables
      ([int] of a [str], [str.isdigit]) are taken from a class
      [Interpreter]; the working directory read by [os.path.abspath] is an
      explicit argument [cwd]. *)

From Stdlib Require Import ZArith NArith Ascii String DecimalString Lia.
From Stdlib Require Import DecimalFacts DecimalPos.
From Stdlib.Strings Require Import Byte.
From stdpp Require Import base option list gmap strings.

Local Open Scope Z_scope.

(** ** Values, exceptions and results *)

Abbreviation str := (list N).
Abbreviation bytes := (list byte).

(** A field that [int] converted, or the text it was. *)
Inductive value : Type :=
  | VInt (n : Z)
  | VStr (s : str).

Inductive exn : Type :=
  | UnicodeDecodeError
  | IndexError
  | ValueError
  | TypeError
  | AttributeError
  | KeyError (key : value)
  | ImageCreationError
  | AssertionError.

Inductive result (A : Type) : Type :=
  | Ok (a : A)
  | Raise (e : exn).
Arguments Ok {A} a.
Arguments Raise {A} e.

#[global] Instance result_ret : MRet result := λ A a, Ok a.
#[global] Instance result_bind : MBind result := λ A B f r,
  match r with Ok a => f a | Raise e => Raise e end.
#[global] Instance result_fmap : FMap result := λ A B f r,
  match r with Ok a => Ok (f a) | Raise e => Raise e end.

(** [o] or, when it is [None], the exception [e]. *)
Definition or_raise {A} (e : exn) (o : option A) : result A :=
  match o with Some a => Ok a | None => Raise e end.

Definition is_raise {A} (r : result A) : Prop := ∃ e, r = Raise e.

(** [for x in l: body], the variables the body updates being [s]; an
    exception leaves the loop. *)
Fixpoint for_each {A S} (body : S → A → result S) (l : list A) (s : S) : result S :=
  match l with
  | [] => mret s
  | x :: l' => s' ← body s x; for_each body l' s'
  end.

(** ** Strings *)

Definition ch (c : ascii) : N := N_of_ascii c.
(** The [str] of an ASCII literal, and the [bytes] of one. *)
Definition u (s : string) : str := ch <$> list_ascii_of_string s.
Definition b (s : string) : bytes := list_byte_of_string s.
Arguments ch : simpl never.
Arguments u : simpl never.

#[global] Instance value_eq_dec : EqDecision value.
Proof. solve_decision. Defined.

#[global] Instance value_countable : Countable value.
Proof.
  refine (inj_countable'
    (λ v, match v with VInt n => inl n | VStr s => inr s end)
    (λ x, match x with inl n => VInt n | inr s => VStr s end) _).
  by intros [].
Defined.

Definition str_eqb (s t : str) : bool := bool_decide (s = t).

(** *** Indexing and slicing *)

(** [l[i]] for a constant index [i >= 0]. *)
Definition index {A} (l : list A) (i : nat) : result A :=
  or_raise IndexError (l !! i).

(** A slice bound as [PySlice_AdjustIndices] clips it to [0..len]. *)
Definition adjust_index (len i : Z) : Z :=
  if i <? 0 then Z.max 0 (i + len) else Z.min i len.

(** [l[lo:hi]]. *)
Definition slice {A} (l : list A) (lo hi : Z) : list A :=
  let len := Z.of_nat (length l) in
  let lo' := adjust_index len lo in
  let hi' := adjust_index len hi in
  take (Z.to_nat (hi' - lo')) (drop (Z.to_nat lo') l).

(** [l[lo:]]. *)
Definition slice_from {A} (l : list A) (lo : Z) : list A :=
  slice l lo (Z.of_nat (length l)).

(** *** Searching *)

Fixpoint startswith (sub s : str) : bool :=
  match sub, s with
  | [], _ => true
  | _ :: _, [] => false
  | c :: sub', d :: s' => (c =? d)%N && startswith sub' s'
  end.

(** [sub in s]. *)
Fixpoint contains (sub s : str) : bool :=
  startswith sub s ||
  match s with
  | [] => false
  | _ :: s' => contains sub s'
  end.

(** [s.find(sub)], counted from position [i] of the original string. *)
Fixpoint find_from (sub s : str) (i : Z) : Z :=
  if startswith sub s then i
  else match s with
       | [] => -1
       | _ :: s' => find_from sub s' (i + 1)
       end.

Definition find (sub s : str) : Z := find_from sub s 0.

(** [s.count(sub)] for a non-empty [sub]: occurrences that do not overlap,
    scanning from the left; [skip] characters of the last match are still
    to be passed over. *)
Fixpoint count_from (sub s : str) (skip : nat) : nat :=
  match s with
  | [] => 0
  | _ :: s' =>
    match skip with
    | S k => count_from sub s' k
    | O => if startswith sub s
           then S (count_from sub s' (length sub - 1))
           else count_from sub s' 0
    end
  end.

Definition count (sub s : str) : nat := count_from sub s 0.

(** *** Splitting *)

(** [s.split(sep)] for a separator of one character. *)
Fixpoint split (sep : N) (s : str) : list str :=
  match s with
  | [] => [[]]
  | c :: s' =>
    if (c =? sep)%N then [] :: split sep s'
    else match split sep s' with
         | [] => [[c]]
         | f :: fs => (c :: f) :: fs
         end
  end.

(** [sep.join(parts)] for a separator of one character. *)
Fixpoint sep_join (sep : N) (parts : list str) : str :=
  match parts with
  | [] => []
  | [p] => p
  | p :: ps => p ++ sep :: sep_join sep ps
  end.

(** Line boundaries of [str.splitlines]. *)
Definition is_linebreak (c : N) : bool :=
  bool_decide (c ∈ [0x0A; 0x0B; 0x0C; 0x0D; 0x1C; 0x1D; 0x1E; 0x85; 0x2028; 0x2029]%N).

(** Line boundaries of [bytes.splitlines]. *)
Definition is_bytes_linebreak (c : N) : bool :=
  bool_decide (c ∈ [0x0A; 0x0D]%N).

(** [splitlines()] without [keepends]: a carriage return followed by a
    line feed is one boundary, and a final boundary opens no empty line. *)
Fixpoint splitlines_with (brk : N → bool) (s : list N) : list (list N) :=
  match s with
  | [] => []
  | c :: s' =>
    if brk c then
      [] :: match s' with
            | d :: s'' =>
              if (c =? 0x0D)%N && (d =? 0x0A)%N
              then splitlines_with brk s''
              else splitlines_with brk s'
            | [] => []
            end
    else match splitlines_with brk s' with
         | [] => [[c]]
         | l :: ls => (c :: l) :: ls
         end
  end.

Definition splitlines : str → list str := splitlines_with is_linebreak.
Definition bytes_splitlines (s : bytes) : list (list N) :=
  splitlines_with is_bytes_linebreak (Byte.to_N <$> s).

(** *** Decoding *)

Definition in_range (lo hi c : N) : bool := ((lo <=? c) && (c <=? hi))%N.
Definition continuation (c : N) : bool := in_range 0x80 0xBF c.

(** The well-formed byte sequences of UTF-8 (no overlong form, no
    surrogate, nothing above U+10FFFF), as the strict decoder accepts them. *)
Fixpoint utf8_decode (bs : list N) : option str :=
  match bs with
  | [] => Some []
  | b0 :: r0 =>
    if (b0 <? 0x80)%N then cons b0 <$> utf8_decode r0
    else if in_range 0xC2 0xDF b0 then
      match r0 with
      | b1 :: r1 =>
        if continuation b1
        then cons ((b0 - 0xC0) * 0x40 + (b1 - 0x80))%N <$> utf8_decode r1
        else None
      | _ => None
      end
    else if in_range 0xE0 0xEF b0 then
      match r0 with
      | b1 :: b2 :: r2 =>
        if in_range (if (b0 =? 0xE0)%N then 0xA0 else 0x80)%N
                    (if (b0 =? 0xED)%N then 0x9F else 0xBF)%N b1
           && continuation b2
        then cons ((b0 - 0xE0) * 0x1000 + (b1 - 0x80) * 0x40 + (b2 - 0x80))%N
               <$> utf8_decode r2
        else None
      | _ => None
      end
    else if in_range 0xF0 0xF4 b0 then
      match r0 with
      | b1 :: b2 :: b3 :: r3 =>
        if in_range (if (b0 =? 0xF0)%N then 0x90 else 0x80)%N
                    (if (b0 =? 0xF4)%N then 0x8F else 0xBF)%N b1
           && continuation b2 && continuation b3
        then cons ((b0 - 0xF0) * 0x40000 + (b1 - 0x80) * 0x1000
                   + (b2 - 0x80) * 0x40 + (b3 - 0x80))%N
               <$> utf8_decode r3
        else None
      | _ => None
      end
    else None
  end.

(** [data.decode('utf-8')]. *)
Definition decode (data : list N) : result str :=
  or_raise UnicodeDecodeError (utf8_decode data).

(** *** Conversions that depend on the interpreter *)

Class Interpreter := {
  (** [int(s)] for a [str]; [None] stands for [ValueError]. *)
  int_of_str : str → option Z;
  (** [s.isdigit()]. *)
  isdigit : str → bool;
}.

Section Conversions.
Context `{Interpreter}.

Definition int (s : str) : result Z := or_raise ValueError (int_of_str s).

(** [try: intline.append(int(i)) except ValueError: intline.append(i)] *)
Definition int_or_str (i : str) : value :=
  match int_of_str i with
  | Some n => VInt n
  | None => VStr i
  end.
End Conversions.

(** The interpreter restricted to ASCII text, used to run the model on
    concrete inputs: on a [str] of ASCII characters with at most 4300
    digits its [int] and [isdigit] are CPython's. *)
Module Ascii_interpreter.
Definition space (c : N) : bool :=
  bool_decide (c ∈ [0x09; 0x0A; 0x0B; 0x0C; 0x0D; 0x20]%N).

Definition digit (c : N) : option Z :=
  if in_range 0x30 0x39 c then Some (Z.of_N c - 0x30) else None.

Fixpoint lstrip (s : str) : str :=
  match s with
  | c :: s' => if space c then lstrip s' else s
  | [] => []
  end.

Definition strip (s : str) : str := rev (lstrip (rev (lstrip s))).

(** Decimal digits, a single underscore allowed between two of them. *)
Fixpoint digits (acc : Z) (after_digit : bool) (s : str) : option Z :=
  match s with
  | [] => if after_digit then Some acc else None
  | c :: s' =>
    if (c =? ch "_")%N
    then (if after_digit then digits acc false s' else None)
    else match digit c with
         | Some d => digits (10 * acc + d) true s'
         | None => None
         end
  end.

Definition int_of_str (s : str) : option Z :=
  match strip s with
  | [] => None
  | c :: s' =>
    if (c =? ch "-")%N then Z.opp <$> digits 0 false s'
    else if (c =? ch "+")%N then digits 0 false s'
    else digits 0 false (c :: s')
  end.

Definition isdigit (s : str) : bool :=
  negb (bool_decide (s = [])) && forallb (λ c, bool_decide (is_Some (digit c))) s.

Definition interp : Interpreter := Build_Interpreter int_of_str isdigit.
End Ascii_interpreter.

(** ** os.path (posixpath), as far as [relpath] reaches *)

Module posixpath.
Definition sep : N := ch "/".
Definition curdir : str := u ".".
Definition pardir : str := u "..".

Definition isabs (p : str) : bool := startswith [sep] p.

Definition endswith_sep (p : str) : bool :=
  match last p with
  | Some c => (c =? sep)%N
  | None => false
  end.

(** [join(a, *p)] *)
Definition join (a : str) (p : list str) : str :=
  foldl (λ path b,
           if startswith [sep] b then b
           else if bool_decide (path = []) || endswith_sep path then path ++ b
           else path ++ sep :: b) a p.

(** One turn of the loop of [normpath] over the components. *)
Definition normpath_step (initial_slashes : nat) (new_comps : list str)
    (comp : str) : list str :=
  if bool_decide (comp = [] ∨ comp = curdir) then new_comps
  else if bool_decide (comp ≠ pardir)
          || (bool_decide (initial_slashes = 0%nat)
              && bool_decide (new_comps = []))
          || (negb (bool_decide (new_comps = []))
              && bool_decide (last new_comps = Some pardir))
  then new_comps ++ [comp]
  else removelast new_comps.

(** POSIX allows one or two initial slashes, but treats three or more
    as a single slash. *)
Definition initial_slashes (path : str) : nat :=
  if startswith [sep] path then
    if startswith [sep; sep] path && negb (startswith [sep; sep; sep] path)
    then 2%nat else 1%nat
  else 0%nat.

Definition normpath (path : str) : str :=
  if bool_decide (path = []) then curdir
  else
    let initial_slashes := initial_slashes path in
    let comps := foldl (normpath_step initial_slashes) [] (split sep path) in
    let path := replicate initial_slashes sep ++ sep_join sep comps in
    if bool_decide (path = []) then curdir else path.

(** [abspath(path)], [cwd] being what [os.getcwd()] returns. *)
Definition abspath (cwd path : str) : str :=
  normpath (if isabs path then path else join cwd [path]).

(** [commonprefix([s1, s2])] on two lists of components. *)
Fixpoint commonprefix (s1 s2 : list str) : list str :=
  match s1, s2 with
  | c1 :: s1', c2 :: s2' =>
    if str_eqb c1 c2 then c1 :: commonprefix s1' s2' else []
  | _, _ => []
  end.

(** [[x for x in p.split(sep) if x]] *)
Definition components (p : str) : list str :=
  filter (λ x, x ≠ []) (split sep p).

(** [relpath(path, start)] for a [start] that is a [str]. The test
    [if not path] comes first, so the [int] 0 is "no path" as the empty
    [str] is; [os.fspath] refuses every other [int]. *)
Definition relpath (cwd : str) (path : value) (start : str) : result str :=
  match path with
  | VInt n => if bool_decide (n = 0) then Raise ValueError else Raise TypeError
  | VStr path =>
    if bool_decide (path = []) then Raise ValueError
    else
      let start_list := components (abspath cwd start) in
      let path_list := components (abspath cwd path) in
      let i := length (commonprefix start_list path_list) in
      let rel_list :=
        replicate (length start_list - i) pardir ++ drop i path_list in
      match rel_list with
      | [] => Ok curdir
      | a :: p => Ok (join a p)
      end
  end.
End posixpath.

(** ** textparser.py *)

Module TextParser.
Record t := {
  fix_subvols : bool;
  ignore_ext_backup : bool;
}.

Section Parser.
Context `{Interpreter}.

(** *** [parse_fls_files] *)

(** The body of the loop for one line: [None] when the line is passed
    over, the appended [[path, inode]] otherwise. *)
Definition fls_line (self : t) (raw : str) : result (option (str * Z)) :=
  let line := split (ch "|") raw in
  if bool_decide (1 < length line)%nat then
    name ← index line 1;
    c ← index name 1;
    if (c =? ch "$")%N then mret None
    else if fix_subvols self && contains (u "snapshot") name
              && bool_decide (0 < count (u "subvolume") name)%nat
    then mret None
    else if ignore_ext_backup self && contains (u "ext2_saved") name
    then mret None
    else
      kind ← index line 3;
      k ← index kind 0;
      let path :=
        if (k =? ch "l")%N
        then slice name 1 (find (u " -> ") name)
        else slice_from name 1 in
      field ← index line 2;
      inode ← int field;
      mret (Some (path, inode))
  else mret None.

Definition fls_loop (self : t) : list str → list (str * Z) → result (list (str * Z)) :=
  for_each (λ files raw,
    r ← fls_line self raw;
    mret (match r with Some entry => files ++ [entry] | None => files end)).

Definition parse_fls_files (self : t) (data : bytes)
    : result (list (str * Z)) :=
  text ← decode (Byte.to_N <$> data);
  fls_loop self (splitlines text) [].

(** *** [parse_ils] *)

(** One line of the loop: [None] when it is filtered, the key and the
    value stored in [inodes] otherwise. *)
Definition ils_line (raw : str) : result (option (value * list value)) :=
  let line := split (ch "|") raw in
  first ← index line 0;
  if isdigit first && negb (str_eqb first (u "0")) then
    alloc ← index line 8;
    if negb (str_eqb alloc (u "0")) then
      let intline := int_or_str <$> line in
      key ← index intline 0;
      mret (Some (key, slice_from intline 1))
    else mret None
  else mret None.

Definition ils_loop
    : list str → gmap value (list value) → result (gmap value (list value)) :=
  for_each (λ inodes raw,
    r ← ils_line raw;
    mret (match r with
          | Some (key, attrs) => <[key := attrs]> inodes
          | None => inodes
          end)).

Definition parse_ils (data : bytes) : result (gmap value (list value)) :=
  text ← decode (Byte.to_N <$> data);
  ils_loop (splitlines text) ∅.

(** *** [parse_stat] *)

(** One line of the first loop: [None] when it is filtered, the appended
    [intline] otherwise. *)
Definition stat_line (self : t) (raw : str) : result (option (list value)) :=
  let line := split (ch "|") raw in
  name ← index line 0;
  if fix_subvols self && contains (u "snapshot") name
     && bool_decide (0 < count (u "subvolume") name)%nat
  then mret None
  else if ignore_ext_backup self && contains (u "ext2_saved") name
  then mret None
  else mret (Some (int_or_str <$> line)).

Definition stat_loop (self : t)
    : list str → list (list value) → result (list (list value)) :=
  for_each (λ inodes raw,
    r ← stat_line self raw;
    mret (match r with Some intline => inodes ++ [intline] | None => inodes end)).

(** [line[0] = os.path.relpath(line[0], mpath)] *)
Definition set_relpath (cwd mpath : str) (line : list value) : result (list value) :=
  name ← index line 0;
  rel ← posixpath.relpath cwd name mpath;
  mret (<[0%nat := VStr rel]> line).

Definition parse_stat (self : t) (cwd : str) (data : bytes)
    (mpath : option str) : result (list (list value)) :=
  text ← decode (Byte.to_N <$> data);
  inodes ← stat_loop self (splitlines text) [];
  match mpath with
  | Some mpath => mapM (set_relpath cwd mpath) inodes
  | None => mret inodes
  end.
End Parser.
End TextParser.

(** ** test_btrfs.py *)

Module TestBtrfs.
(** The options of the class and its two shared sets; a member of
    [tsk] or [stat] is a tuple of fields. *)
Record t := {
  mpath : str;
  rec_dir : str;
  ignore_ext_backup : bool;
  fix_subvols : bool;
  fix_size : bool;
  tsk : gset (list value);
  stat : gset (list value);
}.

(** [parser = textparser.TextParser(ignore_ext_backup, fix_subvols)] *)
Definition parser (self : t) : TextParser.t :=
  {| TextParser.fix_subvols := fix_subvols self;
     TextParser.ignore_ext_backup := ignore_ext_backup self |}.

(** [self.assertEqual(first, second)] *)
Definition assertEqual {A} `{EqDecision A} (first second : A) : result unit :=
  if decide (first = second) then Ok () else Raise AssertionError.

(** [s = set(); for line in lines: s.add(f(line))] *)
Definition set_of {A} `{Countable B} (f : A → result B) (lines : list A)
    : result (gset B) :=
  list_to_set <$> mapM f lines.

(** [str(e)] of the [KeyError] a dictionary raises for a missing [int]
    key: the decimal form of the key, and nothing else. *)
Definition key_error_str (key : Z) : str :=
  u (match key with
     | Z0 => "0"
     | Zpos p => NilEmpty.string_of_uint (Pos.to_uint p)
     | Zneg p => String "-" (NilEmpty.string_of_uint (Pos.to_uint p))
     end).

Section Tests.
Context `{Interpreter}.

(** *** [setUpClassCustom]: joining the file listing with the inode listing *)

(** [for line in tsk_files: line.extend(tsk_inodes[line[1]]);
    self.tsk.add(tuple(line))] *)
Definition merge (tsk_inodes : gmap value (list value))
    : list (str * Z) → gset (list value) → result (gset (list value)) :=
  for_each (λ tsk '(path, inode),
    attrs ← or_raise (KeyError (VInt inode)) (tsk_inodes !! VInt inode);
    mret ({[ VStr path :: VInt inode :: attrs ]} ∪ tsk)).

(** The part of [setUpClassCustom] that fills [self.tsk], [fls] and
    [ils] being the captured outputs of the two commands. *)
Definition retrieve_tsk (self : t) (fls ils : bytes) : result (gset (list value)) :=
  tsk_files ← TextParser.parse_fls_files (parser self) fls;
  tsk_inodes ← TextParser.parse_ils ils;
  merge tsk_inodes tsk_files (tsk self).

(** *** [test_metadata_inode] *)

(** [istat.splitlines()[2].decode('utf-8').split(' ')[2]] as an [int] *)
Definition istat_inode (istat : bytes) : result Z :=
  let lines := bytes_splitlines istat in
  line ← index lines 2;
  text ← decode line;
  field ← index (split (ch " ") text) 2;
  int field.

(** One turn of the first loop; [istat] gives what the command wrote
    for an inode, returned by [check_output] or kept in [e.output]. *)
Definition inode_pair_tsk (istat : value → bytes) (line : list value)
    : result (value * value) :=
  inode ← index line 1;
  n ← istat_inode (istat inode);
  name ← index line 0;
  mret (name, VInt n).

Definition inode_pair_stat (line : list value) : result (value * value) :=
  name ← index line 0;
  inode ← index line 1;
  mret (name, inode).

Definition test_metadata_inode (self : t) (istat : value → bytes) : result unit :=
  tsk ← set_of (inode_pair_tsk istat) (elements (tsk self));
  stat ← set_of inode_pair_stat (elements (stat self));
  assertEqual stat tsk.

(** *** [test_metadata_size] *)

Definition size_pair_tsk (line : list value) : result (value * value) :=
  name ← index line 0;
  size ← index line 11;
  mret (name, size).

(** [line[0].split('/')[-1]]; an [int] has no [split]. *)
Definition last_component (name : value) : result str :=
  match name with
  | VStr name => or_raise IndexError (last (split (ch "/") name))
  | VInt _ => Raise AttributeError
  end.

Definition size_pair_stat (self : t) (line : list value) : result (value * value) :=
  size ← index line 11;
  size ←
    (if fix_size self then
       name ← index line 0;
       last ← last_component name;
       if contains (u "directory") last || contains (u "subvolume") last
          || contains (u "snapshot") last
       then mret (VInt 0)
       else mret size
     else mret size);
  name ← index line 0;
  mret (name, size).

(** The two sets [test_metadata_size] compares. *)
Definition tsk_sizes (self : t) : result (gset (value * value)) :=
  set_of size_pair_tsk (elements (tsk self)).
Definition stat_sizes (self : t) : result (gset (value * value)) :=
  set_of (size_pair_stat self) (elements (stat self)).

Definition test_metadata_size (self : t) : result unit :=
  tsk ← tsk_sizes self;
  stat ← stat_sizes self;
  assertEqual stat tsk.

(** *** [test_filedata] *)

(** What is read from a file opened in text mode ([newline=None]) that
    holds [text]: a carriage return, with the line feed that follows it
    if there is one, is read as a line feed. *)
Fixpoint universal_newlines (text : str) : str :=
  match text with
  | [] => []
  | c :: text' =>
    if (c =? 0x0D)%N then
      0x0A%N :: match text' with
                | d :: text'' =>
                  if (d =? 0x0A)%N then universal_newlines text''
                  else universal_newlines text'
                | [] => []
                end
    else c :: universal_newlines text'
  end.

(** The lines of a text, each with the line feed that ends it. *)
Fixpoint keepends (text : str) : list str :=
  match text with
  | [] => []
  | c :: text' =>
    if (c =? 0x0A)%N then [c] :: keepends text'
    else match keepends text' with
         | [] => [[c]]
         | l :: ls => (c :: l) :: ls
         end
  end.

(** What successive calls of [f.readline()] return before the final
    [''], on a file opened in text mode that holds [text]. *)
Definition readlines (text : str) : list str :=
  keepends (universal_newlines text).

(** The [while] loop over the manifest. *)
Fixpoint manifest_loop (lines : list str) (stat : gset (str * str))
    : result (gset (str * str)) :=
  match lines with
  | [] => mret stat
  | line :: lines' =>
    c ← index line 0;
    if (c =? ch "-")%N then mret stat
    else
      let line := split (ch " ") (slice line 0 (-1)) in
      let fname := sep_join (ch " ") (slice_from line 1) in
      hash ← index line 0;
      manifest_loop lines' ({[ (fname, hash) ]} ∪ stat)
  end.

(** The body of the inner loop over the files of one directory:
    [None] when the file is passed over. *)
Definition recovered_file (self : t) (cwd : str) (md5sum : str → result str)
    (root f : str) : result (option (str * str)) :=
  c ← index f 0;
  if (c =? ch "$")%N then mret None
  else
    let fpath := posixpath.join root [f] in
    if fix_subvols self && contains (u "snapshot") fpath
       && bool_decide (0 < count (u "subvolume") fpath)%nat
    then mret None
    else if ignore_ext_backup self && contains (u "ext2_saved") fpath
    then mret None
    else
      h ← md5sum fpath;
      rel ← posixpath.relpath cwd (VStr fpath) (rec_dir self);
      mret (Some (rel, h)).

(** [manifest] is the text of the file [self.files[-1]], [walk] what
    [os.walk(self.rec_dir)] yields, [md5sum] the digest
    [self.fac.md5sum] computes for a path. *)
Definition test_filedata (self : t) (cwd : str) (manifest : str)
    (walk : list (str * list str * list str)) (md5sum : str → result str)
    : result unit :=
  stat ← manifest_loop (readlines manifest) ∅;
  found ← mapM (λ '(root, _, files),
                  mapM (recovered_file self cwd md5sum root) files) walk;
  let tsk : gset (str * str) := list_to_set (omap id (concat found)) in
  assertEqual stat tsk.

(** *** [setUpClassCustom]: collecting the records of [stat] *)

(** The part of [setUpClassCustom] that fills [self.stat]. [top] is the
    captured output of [stat] on the entries of the mount point; [dirs]
    gives, for each directory [os.walk] comes to, the output of [stat]
    on its entries, or [None] when the command failed
    ([CalledProcessError], the one exception the loop passes over). *)
Definition retrieve_stat (self : t) (cwd : str) (top : bytes)
    (dirs : list (option bytes)) : result (gset (list value)) :=
  stat_inodes ← TextParser.parse_stat (parser self) cwd top (Some (mpath self));
  stat_inodes ←
    for_each (λ stat_inodes out,
      match out with
      | Some out =>
        more ← TextParser.parse_stat (parser self) cwd out (Some (mpath self));
        mret (stat_inodes ++ more)
      | None => mret stat_inodes
      end) dirs stat_inodes;
  mret (list_to_set stat_inodes ∪ stat self).

(** *** [test_structure] *)

Definition test_structure (self : t) : result unit :=
  tsk ← set_of (λ line : list value, index line 0) (elements (tsk self));
  stat ← set_of (λ line : list value, index line 0) (elements (stat self));
  assertEqual stat tsk.

(** *** The tests of one attribute *)

(** [(line[0], line[k])] *)
Definition field_pair (k : nat) (line : list value) : result (value * value) :=
  name ← index line 0;
  field ← index line k;
  mret (name, field).

(** The body shared by the eight tests that differ in the index of the
    attribute only. *)
Definition compare_field (k : nat) (self : t) : result unit :=
  tsk ← set_of (field_pair k) (elements (tsk self));
  stat ← set_of (field_pair k) (elements (stat self));
  assertEqual stat tsk.

Definition test_metadata_uid : t → result unit := compare_field 3.
Definition test_metadata_gid : t → result unit := compare_field 4.
Definition test_metadata_mtime : t → result unit := compare_field 5.
Definition test_metadata_atime : t → result unit := compare_field 6.
Definition test_metadata_ctime : t → result unit := compare_field 7.
Definition test_metadata_crtime : t → result unit := compare_field 8.
Definition test_metadata_mode : t → result unit := compare_field 9.
Definition test_metadata_links : t → result unit := compare_field 10.
End Tests.

(** [self.files] as [setUpClassCustom] sets it: the names of
    [ImageFactory.create] below [ipath], or the custom image and its
    manifest. *)
Definition files (names : list str) (ipath imagetype : str) (custom : bool)
    : list str :=
  if custom then [imagetype; imagetype ++ u ".md5"]
  else (λ f, posixpath.join ipath [f]) <$> names.
End TestBtrfs.

(** ** testimage.py *)

(** [str(n)] for an [int]. *)
Definition str_of_int (n : Z) : str :=
  u (match n with
     | Z0 => "0"
     | Zpos p => NilEmpty.string_of_uint (Pos.to_uint p)
     | Zneg p => String "-" (NilEmpty.string_of_uint (Pos.to_uint p))
     end).

(** ['{:c<w}'.format(s)]: [s] padded on the right with [fill] up to
    [width] characters, and left as it is when it is longer. *)
Definition format_left (fill : N) (width : nat) (s : str) : str :=
  s ++ replicate (width - length s) fill.

(** [main]: the list of permitted image types. *)
Definition types : list str :=
  u <$> ["ext4"; "btrfs"; "btrfs_zlib"; "btrfs_lzo"; "btrfs_mixed";
         "btrfs_nofeature"; "btrfs_nodemin"; "btrfs_nodemax";
         "btrfs_noextref"; "btrfs_noskinny"; "btrfs_noholes";
         "btrfs_raid0DM"; "btrfs_raid1D"; "btrfs_raid1DM"; "ext2_btrfs";
         "ext3_btrfs"; "ext4_btrfs"]%string.

Module ImageFactory.
Definition MOUNT_PATH : str := u "/mnt/loop".
Definition BTRFS_STD_OPT : str := u "-Oextref,skinny-metadata".

(** [os.path.basename(p)] *)
Definition basename (p : str) : str := default [] (last (split posixpath.sep p)).

(** [__type_to_names] *)
Definition type_to_names (imagetype : str) : list str :=
  let names :=
    if contains (u "raid") imagetype
    then [imagetype ++ u ".1.img"; imagetype ++ u ".2.img"]
    else [imagetype ++ u ".img"] in
  names ++ [imagetype ++ u ".img.md5"].

(** *** [create] *)

(** [filename] and [hfname]: the image files and the manifest, below
    [imagedir]. *)
Definition create_filename (imagetype imagedir : str) : list str :=
  (λ f, posixpath.join imagedir [f]) <$> slice (type_to_names imagetype) 0 (-1).
Definition create_hfname (imagetype imagedir : str) : result str :=
  f ← or_raise IndexError (last (type_to_names imagetype));
  mret (posixpath.join imagedir [f]).

(** The command that formats the image(s), [loopdev] being the loop
    devices, one for each name of [filename]. *)
Definition create_cmd (imagetype : str) (loopdev : list str) : result (list str) :=
  let is_type t := str_eqb imagetype (u t) in
  if is_type "ext4" || is_type "ext4_btrfs" then
    d ← index loopdev 0; mret [u "mkfs.ext4"; d]
  else if is_type "ext3_btrfs" then
    d ← index loopdev 0; mret [u "mkfs.ext3"; d]
  else if is_type "ext2_btrfs" then
    d ← index loopdev 0; mret [u "mkfs.ext2"; d]
  else if is_type "btrfs" || is_type "btrfs_zlib" || is_type "btrfs_lzo" then
    d ← index loopdev 0; mret [u "mkfs.btrfs"; BTRFS_STD_OPT; d]
  else if is_type "btrfs_nofeature" then
    d ← index loopdev 0;
    mret [u "mkfs.btrfs"; u "-O^extref,^skinny-metadata"; d]
  else if is_type "btrfs_nodemin" then
    d ← index loopdev 0; mret [u "mkfs.btrfs"; BTRFS_STD_OPT; u "-n4096"; d]
  else if is_type "btrfs_nodemax" then
    d ← index loopdev 0; mret [u "mkfs.btrfs"; BTRFS_STD_OPT; u "-n65536"; d]
  else if is_type "btrfs_noextref" then
    d ← index loopdev 0;
    mret [u "mkfs.btrfs"; u "-O^extref,skinny-metadata"; d]
  else if is_type "btrfs_noskinny" then
    d ← index loopdev 0;
    mret [u "mkfs.btrfs"; u "-Oextref,^skinny-metadata"; d]
  else if is_type "btrfs_noholes" then
    d ← index loopdev 0;
    mret [u "mkfs.btrfs"; BTRFS_STD_OPT ++ u ",no-holes"; d]
  else if is_type "btrfs_mixed" then
    d ← index loopdev 0; mret [u "mkfs.btrfs"; BTRFS_STD_OPT; u "--mixed"; d]
  else if is_type "btrfs_raid0DM" then
    d0 ← index loopdev 0; d1 ← index loopdev 1;
    mret [u "mkfs.btrfs"; BTRFS_STD_OPT; u "-draid0"; u "-mraid0"; d0; d1]
  else if is_type "btrfs_raid1D" then
    d0 ← index loopdev 0; d1 ← index loopdev 1;
    mret [u "mkfs.btrfs"; BTRFS_STD_OPT; u "-draid1"; u "-mraid0"; d0; d1]
  else if is_type "btrfs_raid1DM" then
    d0 ← index loopdev 0; d1 ← index loopdev 1;
    mret [u "mkfs.btrfs"; BTRFS_STD_OPT; u "-draid1"; u "-mraid1"; d0; d1]
  else Raise ImageCreationError.

(** *** [mount] *)

(** The command [mount] runs. [ipath] is [None] for a custom image,
    which [imagetype] then is the path of. *)
Definition mount_cmd (imagetype : str) (ipath : option str) (mpath : str)
    : result (list str) :=
  image ←
    match ipath with
    | None => index [basename imagetype; basename imagetype ++ u ".md5"] 0
    | Some ipath =>
      f ← index (type_to_names imagetype) 0;
      mret (posixpath.join ipath [f])
    end;
  let cmd := [u "mount"] in
  let cmd :=
    if str_eqb imagetype (u "btrfs_zlib") then cmd ++ [u "-ocompress-force=zlib"]
    else if str_eqb imagetype (u "btrfs_lzo") then cmd ++ [u "-ocompress-force=lzo"]
    else cmd in
  mret (cmd ++ [image; mpath]).

(** *** [umount] *)

(** [umount(mpath)], [res] being what [subprocess.call(['umount', mpath])]
    returns. *)
Definition umount (mpath : option str) (res : Z) : result unit :=
  match mpath with
  | None => Raise ValueError
  | Some _ => if bool_decide (res ≠ 0) then Raise ImageCreationError else Ok ()
  end.

(** *** [delete], and how [create] cleans up after a failure *)

(** An exception with its message. *)
Inductive error : Type := Error (class : exn) (message : str).

(** The loop of [delete] on the set [fs] of the files that exist:
    [os.remove] takes a file away or, when it is not there, raises the
    [OSError] that [delete] turns into its own error; the files left
    and the error raised, if any. *)
Fixpoint delete_loop (fs : gset str) (paths : list str) : gset str * option error :=
  match paths with
  | [] => (fs, None)
  | p :: paths =>
    if decide (p ∈ fs) then delete_loop (fs ∖ {[ p ]}) paths
    else (fs, Some (Error ImageCreationError (u "could not remove files")))
  end.

Definition delete (fs : gset str) (imagetype ipath : str) : gset str * option error :=
  delete_loop fs ((λ f, posixpath.join ipath [f]) <$> type_to_names imagetype).

(** [except: self.__cleanup(loopdev); self.delete(imagetype, imagedir);
    raise] in [create], for an exception [e] raised in the [try] block:
    the files left and the exception that leaves [create]. *)
Definition create_cleanup (e : error) (fs : gset str) (imagetype imagedir : str)
    : gset str * error :=
  match delete fs imagetype imagedir with
  | (fs, Some e') => (fs, e')
  | (fs, None) => (fs, e)
  end.

(** *** [__create_raw_file] *)

(** The text [__create_raw_file] appends to the file. *)
Definition create_raw_file (bsize : Z) : str :=
  let lines := (bsize - 5) `div` 80 in
  let padding := (bsize - 5) `mod` 80 in
  if 5 <? bsize then
    concat ((λ i, format_left (ch "0") 79 (str_of_int (i + 1) ++ u " ") ++ [0x0A%N])
              <$> seqZ 0 lines)
    ++ replicate (Z.to_nat padding) (ch "-")
  else [].

(** *** [__md5sum_image] *)

(** The loop over the mounted tree; [hf] is the text of the manifest
    so far, [walk] what [os.walk(MOUNT_PATH)] yields, [special] tells
    of a path whether [os.stat] finds a device, a socket or a pipe
    there, [md5sum] is the digest of the file at a path. *)
Definition md5sum_image (cwd : str) (walk : list (str * list str * list str))
    (special : str → bool) (md5sum : str → result str) (hf : str) : result str :=
  for_each (λ hf '(root, _, files),
    for_each (λ hf fname,
      if special (posixpath.join root [fname]) then mret hf
      else
        res ← md5sum (posixpath.join root [fname]);
        rp ← posixpath.relpath cwd (VStr (posixpath.join root [fname])) MOUNT_PATH;
        mret (hf ++ res ++ u " " ++ rp ++ [0x0A%N])) files hf) walk hf.

(** The manifest as [create] leaves it: the file is opened for
    appending to its text [hf]; the lines of the files, the line of
    dashes, and the digests of the images. Whatever is raised on the
    way is turned into [ImageCreationError]. *)
Definition create_manifest (cwd : str) (walk : list (str * list str * list str))
    (special : str → bool) (md5sum : str → result str)
    (filename : list str) (hf : str) : result str :=
  match
    hf ← md5sum_image cwd walk special md5sum hf;
    for_each (λ hf f,
      h ← md5sum f;
      mret (hf ++ h ++ u "  " ++ basename f ++ [0x0A%N])) filename
      (hf ++ u "--------------------------------" ++ [0x0A%N])
  with
  | Ok hf => Ok hf
  | Raise _ => Raise ImageCreationError
  end.
End ImageFactory.

(** ** [TestBtrfs.setUpClassCustom]: the handler around the set-up *)

(** [try: body
    except Exception:
        self.fac.umount(self.mpath)
        shutil.rmtree(self.rec_dir, ignore_errors=True)
        raise]
    with [res] what the [umount] command returns: an exception of the
    body is raised again after the clean-up, unless the clean-up raises
    one of its own. *)
Definition try_umount {A} (self : TestBtrfs.t) (res : Z) (body : result A)
    : result A :=
  match body with
  | Ok a => Ok a
  | Raise e =>
    _ ← ImageFactory.umount (Some (TestBtrfs.mpath self)) res;
    Raise e
  end.

(** [setUpClassCustom] from the call of [fls] to the loop that fills
    [self.tsk], inside its [try] block. *)
Definition setUpClassCustom_tsk `{Interpreter} (self : TestBtrfs.t)
    (fls ils : bytes) (res : Z) : result (gset (list value)) :=
  try_umount self res (TestBtrfs.retrieve_tsk self fls ils).

(** ** Vocabulary of the statements *)

(** The filters of the loop that depend on the options. *)
Definition excluded (self : TextParser.t) (name : str) : bool :=
  TextParser.fix_subvols self && contains (u "snapshot") name && contains (u "subvolume") name
  || TextParser.ignore_ext_backup self && contains (u "ext2_saved") name.

(** Where the components of a returned path can come from: with no
    mount path the paths are left as they are; an absolute path, or a
    working directory without either word, leaves [relpath] nothing to
    add from the working directory. *)
Definition relpath_adds_nothing (cwd : str) (mpath : option str) (text : str) : Prop :=
  mpath = None
  ∨ (contains (u "snapshot") cwd = false ∧ contains (u "subvolume") cwd = false)
  ∨ (∀ raw name, raw ∈ splitlines text →
       split (ch "|") raw !! 0%nat = Some name → posixpath.isabs name = true).

(** The exceptions the parsing of one [istat] output can raise. *)
Definition parse_exn (e : exn) : Prop :=
  e = IndexError ∨ e = UnicodeDecodeError ∨ e = ValueError.

(** The final component of [path] has ["directory"], ["subvolume"] or
    ["snapshot"] in its name. *)
Definition pseudo_entry (path : str) : bool :=
  match last (split (ch "/") path) with
  | Some name =>
    contains (u "directory") name || contains (u "subvolume") name
    || contains (u "snapshot") name
  | None => false
  end.

(** The size the stat side of the size test gives to a record with
    the name [name] and the reported size [size]: 0 for a pseudo entry
    when [fix_size] is set, the reported size otherwise. *)
Definition stat_size (self : TestBtrfs.t) (name size : value) : value :=
  match name with
  | VStr path =>
    if TestBtrfs.fix_size self && pseudo_entry path then VInt 0 else size
  | VInt _ => size
  end.

(** A name that is one plain component of a path. *)
Definition plain (x : str) : Prop :=
  x ≠ [] ∧ (posixpath.sep ∉ x) ∧ x ≠ posixpath.curdir ∧ x ≠ posixpath.pardir.

(** A record of [records] has the path [p] and, at index [k], the
    value [v]. *)
Definition has_field (k : nat) (records : gset (list value)) (p v : value) : Prop :=
  ∃ line, line ∈ records ∧ line !! 0%nat = Some p ∧ line !! k = Some v.

(** The tests of one attribute, each with the index it looks at. *)
Definition attribute_tests : list (nat * (TestBtrfs.t → result unit)) :=
  [(3%nat, TestBtrfs.test_metadata_uid); (4%nat, TestBtrfs.test_metadata_gid);
   (5%nat, TestBtrfs.test_metadata_mtime); (6%nat, TestBtrfs.test_metadata_atime);
   (7%nat, TestBtrfs.test_metadata_ctime); (8%nat, TestBtrfs.test_metadata_crtime);
   (9%nat, TestBtrfs.test_metadata_mode); (10%nat, TestBtrfs.test_metadata_links)].

(** A line of the manifest as [__md5sum_image] writes it for a path
    and its digest. *)
Definition manifest_line (entry : str * str) : str :=
  entry.2 ++ ch " " :: entry.1 ++ [0x0A%N].

(** A pair of a path and a digest that one line of the manifest can
    carry: the digest is not empty, has no space and does not begin with
    ['-'], and neither of the two has a line feed or a carriage return. *)
Definition manifest_entry (entry : str * str) : Prop :=
  let path := entry.1 in
  let hash := entry.2 in
  hash ≠ [] ∧ (ch " " ∉ hash) ∧ (0x0A%N ∉ hash) ∧ (0x0D%N ∉ hash)
  ∧ head hash ≠ Some (ch "-") ∧ (0x0A%N ∉ path) ∧ (0x0D%N ∉ path).

(** A digest as [hexdigest()] returns it. *)
Definition hexdigest (h : str) : Prop :=
  length h = 32%nat ∧ Forall (λ c, c ∈ u "0123456789abcdef") h.

(** A name of a file or of a directory: one plain component, without a
    line feed or a carriage return. *)
Definition file_name (x : str) : Prop :=
  plain x ∧ (0x0A%N ∉ x) ∧ (0x0D%N ∉ x).

(** A tree of directories, listed as [os.walk] goes through it: for
    each directory the components of its path below the top, the names
    of its subdirectories and the names of its files. [walk top tree] is
    what [os.walk(top)] yields for it, [tree_files tree] its files, each
    one as the list of its components below the top. *)
Definition walk (top : str) (tree : list (list str * list str * list str))
    : list (str * list str * list str) :=
  (λ '(ds, dirs, files), (posixpath.join top ds, dirs, files)) <$> tree.

Definition tree_files (tree : list (list str * list str * list str))
    : list (list str) :=
  concat ((λ '(ds, _, files), (λ f : str, ds ++ [f]) <$> (files : list str))
            <$> tree).

(** The pairs of a path and a digest for the files of a tree, [digest]
    giving the digest of a file from its components. *)
Definition tree_entries (digest : list str → str)
    (tree : list (list str * list str * list str)) : list (str * str) :=
  (λ cs, (sep_join posixpath.sep cs, digest cs)) <$> tree_files tree.


(** ** Inputs on which the model is run *)

Module Examples.
Import TextParser TestBtrfs.

Definition nl : bytes := [x0a].

(** The parser as [TestBtrfs] builds it. *)
Definition parser : TextParser.t :=
  {| TextParser.fix_subvols := true; TextParser.ignore_ext_backup := true |}.

(** [fls -r -m /]: a file, a metadata entry, a link with its target and
    a link whose name is all there is. *)
Definition fls_file : string := "0|/file|257|r/rrw-r--r--|0|0|10|1|2|3|4".
Definition fls_orphans : string := "0|/$OrphanFiles|3|d/d---------|0|0|0|0|0|0|0".
Definition fls_link : string := "0|/link -> file|258|l/lrwxrwxrwx|0|0|4|1|2|3|4".
Definition fls_bare_link : string := "0|/link|258|l/lrwxrwxrwx|0|0|4|1|2|3|4".
Definition fls_bad_inode : string := "0|/file|25x|r/rrw-r--r--|0|0|10|1|2|3|4".

Definition fls_missing : string := "0|/a/b|77|r/rrw-r--r--|0|0|10|1|2|3|4".
Definition fls_missing_next : string := "0|/c|78|r/rrw-r--r--|0|0|10|1|2|3|4".

(** A listing with two entries that [ils] does not know, after one
    that it knows. *)
Definition fls_two_missing : bytes :=
  b fls_file ++ nl ++ b fls_missing ++ nl ++ b fls_missing_next.

Definition fls_listing : bytes := b fls_file ++ nl ++ b fls_orphans ++ nl ++ b fls_link.
Definition fls_text : str :=
  u fls_file ++ [0x0A%N] ++ u fls_orphans ++ [0x0A%N] ++ u fls_link.

(** [ils -a]: the header and two lines for inode 257. *)
Definition ils_header : string :=
  "st_ino|st_alloc|st_uid|st_gid|st_mtime|st_atime|st_ctime|st_crtime|st_mode|st_nlink|st_size".
Definition ils_first : string := "257|a|0|0|1|2|3|4|100644|1|10".
Definition ils_second : string := "257|a|0|0|1|2|3|4|100644|1|99".

Definition ils_listing : bytes :=
  b ils_header ++ nl ++ b ils_first ++ nl ++ b ils_second.

Definition ils_text : str :=
  u ils_header ++ [0x0A%N] ++ u ils_first ++ [0x0A%N] ++ u ils_second.

Definition ils_attrs (size : Z) : list value :=
  [VStr (u "a"); VInt 0; VInt 0; VInt 1; VInt 2; VInt 3; VInt 4;
   VInt 100644; VInt 1; VInt size].

(** [stat -c '%n|%i|a|%u|%g|%Y|%X|%Z|%W|%a|%h|%s'] *)
Definition stat_file : string := "/mnt/loop/file|257|a|0|0|1|2|3|4|644|1|10".
Definition stat_relative : string := "x|257|a|0|0|1|2|3|4|644|1|10".

Definition stat_attrs : list value :=
  [VInt 257; VStr (u "a"); VInt 0; VInt 0; VInt 1; VInt 2; VInt 3; VInt 4;
   VInt 644; VInt 1; VInt 10].

(** A test class with one record on each side. *)
Definition record (name : string) (size : Z) : list value :=
  [VStr (u name); VInt 257; VStr (u "a"); VInt 0; VInt 0; VInt 1; VInt 2;
   VInt 3; VInt 4; VInt 644; VInt 1; VInt size].

Definition test (name : string) (size : Z) : TestBtrfs.t :=
  {| mpath := u "/mnt/loop"; rec_dir := u ".files";
     TestBtrfs.ignore_ext_backup := true; TestBtrfs.fix_subvols := true;
     fix_size := true;
     tsk := {[ record name size ]}; stat := {[ record name size ]} |}.

(** The digest of the empty file, and a manifest line in the two
    spellings: one space as [__md5sum_image] writes it, two as
    [md5sum(1)] prints it. *)
Definition empty_md5 : string := "d41d8cd98f00b204e9800998ecf8427e".
Definition md5sum (fname : str) : result str := Ok (u empty_md5).
Definition image_hashes : str :=
  u "--------------------------------" ++ [0x0A%N].
Definition manifest_one_space : str :=
  u "d41d8cd98f00b204e9800998ecf8427e empty_file" ++ 0x0A%N :: image_hashes.
Definition manifest_two_spaces : str :=
  u "d41d8cd98f00b204e9800998ecf8427e  empty_file" ++ 0x0A%N :: image_hashes.
Definition recovered : list (str * list str * list str) :=
  [(u ".files", [], [u "empty_file"])].

(** A listing that begins with a message of the tool, and a line whose
    name is empty. *)
Definition fls_message : string := "fls: partial listing".
Definition fls_noted : bytes := b fls_message ++ nl ++ b fls_file.
Definition fls_noted_text : str := u fls_message ++ [0x0A%N] ++ u fls_file.
Definition fls_unnamed : string := "0||3".

(** A line of [ils] that stops after its fourth field. *)
Definition ils_short : string := "257|a|0|0".

(** [stat] on a file two directories below the mount point, with a
    space in its name; and a listing with a blank line. *)
Definition stat_deep : string :=
  "/mnt/loop/dir/sub/a file|300|a|0|0|1|2|3|4|644|1|10".
Definition stat_deep_fields : list str :=
  u <$> ["300"; "a"; "0"; "0"; "1"; "2"; "3"; "4"; "644"; "1"; "10"]%string.
Definition stat_deep_attrs : list value :=
  [VInt 300; VStr (u "a"); VInt 0; VInt 0; VInt 1; VInt 2; VInt 3; VInt 4;
   VInt 644; VInt 1; VInt 10].
Definition stat_blank : bytes := b stat_file ++ nl ++ nl ++ b stat_file.
Definition stat_blank_text : str :=
  u stat_file ++ [0x0A%N; 0x0A%N] ++ u stat_file.

(** A test class with the given records on the two sides. *)
Definition test_sets (tsk stat : list (list value)) : TestBtrfs.t :=
  {| mpath := u "/mnt/loop"; rec_dir := u ".files";
     TestBtrfs.ignore_ext_backup := true; TestBtrfs.fix_subvols := true;
     fix_size := true;
     tsk := list_to_set tsk; stat := list_to_set stat |}.

(** What [istat] prints for inode 257, as far as the test reads it. *)
Definition istat_257 : bytes :=
  b "inode: 257" ++ nl ++ b "Allocated" ++ nl ++ b "Inode Number: 257".

(** A tree with a file at the top and one in a directory, every file
    empty; the manifest [create] writes for it and for one image. *)
Definition tree : list (list str * list str * list str) :=
  [([], [u "dir"], [u "a file"]); ([u "dir"], [], [u "EOD"])].
Definition empty_digest (cs : list str) : str := u empty_md5.
Definition tree_manifest : str :=
  u "d41d8cd98f00b204e9800998ecf8427e a file" ++ [0x0A%N]
  ++ u "d41d8cd98f00b204e9800998ecf8427e dir/EOD" ++ [0x0A%N]
  ++ u "--------------------------------" ++ [0x0A%N]
  ++ u "d41d8cd98f00b204e9800998ecf8427e  btrfs.img" ++ [0x0A%N].

(** A manifest that lists the image saved by [btrfs-convert], and a
    recovered tree that has it. *)
Definition manifest_backup : str :=
  u "d41d8cd98f00b204e9800998ecf8427e ext2_saved/image" ++ 0x0A%N :: image_hashes.
Definition recovered_backup : list (str * list str * list str) :=
  [(u ".files", [u "ext2_saved"], []); (u ".files/ext2_saved", [], [u "image"])].

(** A custom image in a directory of its own. *)
Definition custom_image : str := u "images/custom.img".

(** The failure of [mkfs] in [create], and the files that exist by
    then: the image, not yet the manifest. *)
Definition formatting_failed : ImageFactory.error :=
  ImageFactory.Error ImageCreationError (u "formatting failed").
Definition files_before_manifest : gset str := {[ u "images/btrfs.img" ]}.

(** An earlier manifest, left behind without its image. *)
Definition stale_manifest : str :=
  u "00000000000000000000000000000000 old file" ++ [0x0A%N]
  ++ u "--------------------------------" ++ [0x0A%N]
  ++ u "11111111111111111111111111111111  btrfs.img" ++ [0x0A%N].
End Examples.

(** * Properties *)

(** A decidable closed proposition, settled by evaluation. *)
Ltac by_compute := apply (bool_decide_unpack _); vm_compute; exact I.

(** ** The result monad and the loops *)

Lemma bind_Ok {A B} (r : result A) (f : A → result B) (v : B) :
  r ≫= f = Ok v ↔ ∃ a, r = Ok a ∧ f a = Ok v.
Proof.
  destruct r as [a|e]; simpl.
  - split; [eauto | by intros (? & [= ->] & ?)].
  - split; [done | by intros (? & ? & ?)].
Qed.

Lemma bind_Ok_l {A B} (a : A) (f : A → result B) : Ok a ≫= f = f a.
Proof. done. Qed.

Lemma index_Some {A} (l : list A) i x : l !! i = Some x → index l i = Ok x.
Proof. unfold index. by intros ->. Qed.

Lemma index_None {A} (l : list A) i : l !! i = None → index l i = Raise IndexError.
Proof. unfold index. by intros ->. Qed.

Lemma bind_Raise_l {A B} e (f : A → result B) : Raise e ≫= f = Raise e.
Proof. done. Qed.

(** Case analysis on [index l i] at the head of a sequence of binds. *)
Ltac case_index l i :=
  let E := fresh "E" in
  destruct (l !! i) eqn:E;
  [ rewrite (index_Some _ _ _ E), bind_Ok_l
  | rewrite (index_None _ _ E), bind_Raise_l ].

Lemma fmap_Ok {A B} (f : A → B) (r : result A) (v : B) :
  f <$> r = Ok v ↔ ∃ a, r = Ok a ∧ v = f a.
Proof.
  destruct r as [a|e]; simpl.
  - split; [intros [= <-]; eauto | by intros (? & [= ->] & ->)].
  - split; [done | by intros (? & ? & ?)].
Qed.

Lemma index_Ok {A} (l : list A) i x : index l i = Ok x ↔ l !! i = Some x.
Proof. unfold index. destruct (l !! i); simpl; naive_solver. Qed.

Lemma mapM_Ok {A B} (f : A → result B) l k :
  mapM f l = Ok k ↔ Forall2 (λ x y, f x = Ok y) l k.
Proof.
  revert k. induction l as [|x l IH]; intros k; simpl.
  - split; [intros [= <-]; constructor | by inversion 1].
  - rewrite bind_Ok. split.
    + intros (y & Hy & Hk). apply bind_Ok in Hk as (k' & Hk' & [= <-]).
      constructor; [done | by apply IH].
    + inversion 1 as [|? y ? k' Hy Hk']; subst. exists y. split; [done|].
      apply IH in Hk'. by rewrite Hk'.
Qed.

Lemma mapM_Raise {A B} (f : A → result B) l x :
  x ∈ l → is_raise (f x) → is_raise (mapM f l).
Proof.
  intros Hx [e He]. induction l as [|y l IH]; [by apply elem_of_nil in Hx|].
  simpl. destruct (f y) as [v|e'] eqn:Hy; simpl; [|by eexists].
  apply elem_of_cons in Hx as [->|Hx]; [congruence|].
  destruct (IH Hx) as [e' ->]. by eexists.
Qed.

Lemma mapM_is_Ok {A B} (f : A → result B) l :
  (∀ x, x ∈ l → ∃ y, f x = Ok y) → ∃ k, mapM f l = Ok k.
Proof.
  induction l as [|x l IH]; intros Hl; simpl; [by eexists|].
  destruct (Hl x) as [y ->]; [apply list_elem_of_here|].
  destruct IH as [k ->]; [|by eexists].
  intros x' Hx'. apply Hl. by apply list_elem_of_further.
Qed.

(** A loop whose body computes [step x] and then updates the state is a
    [mapM] of the steps followed by a pure fold. *)
Lemma for_each_step {A X S} (step : A → result X) (upd : S → X → S) l s :
  for_each (λ s x, r ← step x; mret (upd s r)) l s = foldl upd s <$> mapM step l.
Proof.
  revert s. induction l as [|x l IH]; intros s; simpl; [done|].
  destruct (step x) as [r|e]; simpl; [|done].
  rewrite IH. by destruct (mapM step l).
Qed.

Lemma for_each_app {A S} (body : S → A → result S) l1 l2 s :
  for_each body (l1 ++ l2) s = for_each body l1 s ≫= for_each body l2.
Proof.
  revert s. induction l1 as [|x l1 IH]; intros s; simpl; [done|].
  destruct (body s x); simpl; [apply IH | done].
Qed.

Lemma foldl_snoc_omap {X} (acc : list X) (rs : list (option X)) :
  foldl (λ acc r, match r with Some x => acc ++ [x] | None => acc end) acc rs
  = acc ++ omap id rs.
Proof.
  revert acc. induction rs as [|[x|] rs IH]; intros acc; simpl.
  - by rewrite app_nil_r.
  - by rewrite IH, <-app_assoc.
  - apply IH.
Qed.

(** ** Strings *)

Lemma startswith_spec sub s : startswith sub s = true ↔ ∃ t, s = sub ++ t.
Proof.
  revert s. induction sub as [|c sub IH]; intros [|d s]; simpl.
  - split; [by exists [] | done].
  - split; [by exists (d :: s) | done].
  - split; [done | by intros [? ?]].
  - rewrite andb_true_iff, N.eqb_eq, IH. split.
    + intros [-> [t ->]]. by exists t.
    + intros [t [= -> ->]]. eauto.
Qed.

Lemma contains_spec sub s : contains sub s = true ↔ ∃ a t, s = a ++ sub ++ t.
Proof.
  induction s as [|d s IH]; simpl.
  - rewrite orb_false_r, startswith_spec. split.
    + intros [t ->]. by exists [], t.
    + intros (a & t & Heq). symmetry in Heq.
      apply app_eq_nil in Heq as [-> Heq]. apply app_eq_nil in Heq as [-> ->].
      by exists [].
  - rewrite orb_true_iff, startswith_spec, IH. split.
    + intros [[t ->]|(a & t & ->)]; [by exists [], t | by exists (d :: a), t].
    + intros ([|d' a] & t & Heq); simpl in Heq.
      * left. eauto.
      * injection Heq as -> ->. right. eauto.
Qed.

Lemma contains_app_l sub s t : contains sub s = true → contains sub (s ++ t) = true.
Proof.
  rewrite !contains_spec. intros (a & r & ->). exists a, (r ++ t).
  by rewrite <-!app_assoc.
Qed.

Lemma contains_app_r sub s t : contains sub t = true → contains sub (s ++ t) = true.
Proof.
  rewrite !contains_spec. intros (a & r & ->). exists (s ++ a), r.
  by rewrite <-!app_assoc.
Qed.

Lemma find_from_contains sub s i :
  0 ≤ i → (find_from sub s i = -1 ↔ contains sub s = false).
Proof.
  revert i. induction s as [|d s IH]; intros i Hi; simpl.
  - destruct (startswith sub []); simpl; split; (done || lia).
  - destruct (startswith sub (d :: s)); simpl; [split; (done || lia)|].
    apply IH. lia.
Qed.

Lemma find_contains sub s : find sub s = -1 ↔ contains sub s = false.
Proof. by apply find_from_contains. Qed.

Lemma count_from_contains sub s skip :
  (0 < count_from sub s skip)%nat → contains sub s = true.
Proof.
  revert skip. induction s as [|d s IH]; intros skip; simpl; [lia|].
  destruct skip as [|k].
  - destruct (startswith sub (d :: s)); [done|]. intros Hs%IH. by rewrite Hs.
  - intros Hs%IH. by rewrite Hs, orb_true_r.
Qed.

Lemma contains_count sub s :
  sub ≠ [] → contains sub s = true → (0 < count sub s)%nat.
Proof.
  intros Hsub. unfold count. induction s as [|d s IH]; simpl.
  - destruct sub; [done|]. simpl. by rewrite ?orb_false_r.
  - destruct (startswith sub (d :: s)); simpl; [lia | done].
Qed.

(** [s.count(sub) > 0] is [sub in s]. *)
Lemma count_pos_contains sub s :
  sub ≠ [] → bool_decide (0 < count sub s)%nat = contains sub s.
Proof.
  intros Hsub. destruct (contains sub s) eqn:Hc.
  - apply bool_decide_eq_true. by apply contains_count.
  - apply bool_decide_eq_false. intros Hpos%count_from_contains. congruence.
Qed.

(** A slice that starts at index 1 is empty or begins with [l[1]]. *)
Lemma slice_1_head {A} (l : list A) hi c :
  l !! 1%nat = Some c → slice l 1 hi = [] ∨ ∃ t, slice l 1 hi = c :: t.
Proof.
  intros Hc. unfold slice.
  assert (2 ≤ length l)%nat as Hlen by (apply lookup_lt_Some in Hc; lia).
  replace (adjust_index (Z.of_nat (length l)) 1) with 1
    by (unfold adjust_index; simpl; lia).
  change (Z.to_nat 1) with 1%nat.
  destruct l as [|a [|c' l]]; simpl in *; try lia. injection Hc as ->.
  destruct (Z.to_nat _); simpl; eauto.
Qed.

(** [l[1:-1]] of a list of two elements or more drops the first and the last. *)
Lemma slice_1_m1 {A} (l : list A) :
  (2 ≤ length l)%nat → ∃ a z, l = a :: slice l 1 (-1) ++ [z].
Proof.
  intros Hlen. destruct l as [|a l]; simpl in *; [lia|].
  destruct (exists_last (l:=l)) as (m & z & ->); [by intros ->; simpl in *; lia|].
  exists a, z. f_equal. f_equal. unfold slice.
  rewrite length_cons, length_app. simpl length.
  unfold adjust_index.
  change (-1 <? 0) with true. change (1 <? 0) with false. cbv iota.
  replace (Z.to_nat (1 `min` _)) with 1%nat by lia.
  replace (Z.to_nat _) with (length m) by lia.
  cbn [drop]. by rewrite drop_0, take_app_length.
Qed.

(** ** [parse_fls_files] *)

Section Fls.
Context `{Interpreter}.
Import TextParser.

Lemma fls_loop_spec self lines files :
  fls_loop self lines files
  = (λ rs, files ++ omap id rs) <$> mapM (fls_line self) lines.
Proof.
  unfold fls_loop. rewrite for_each_step.
  destruct (mapM _ _); simpl; [|done]. by rewrite foldl_snoc_omap.
Qed.

Lemma parse_fls_files_Ok self data files :
  parse_fls_files self data = Ok files ↔
  ∃ text rs, decode (Byte.to_N <$> data) = Ok text
    ∧ Forall2 (λ raw r, fls_line self raw = Ok r) (splitlines text) rs
    ∧ files = omap id rs.
Proof.
  unfold parse_fls_files. rewrite bind_Ok. setoid_rewrite fls_loop_spec.
  setoid_rewrite fmap_Ok. setoid_rewrite mapM_Ok. split.
  - intros (text & Htext & rs & Hrs & ->). by exists text, rs.
  - intros (text & rs & Htext & Hrs & ->). exists text. eauto.
Qed.

(** What an appended entry says about its line. *)
Lemma fls_line_Some self raw path inode :
  fls_line self raw = Ok (Some (path, inode)) →
  ∃ name c kind k field,
    split (ch "|") raw !! 1%nat = Some name
    ∧ name !! 1%nat = Some c ∧ c ≠ ch "$"
    ∧ excluded self name = false
    ∧ split (ch "|") raw !! 3%nat = Some kind
    ∧ kind !! 0%nat = Some k
    ∧ path = (if (k =? ch "l")%N then slice name 1 (find (u " -> ") name)
              else slice_from name 1)
    ∧ split (ch "|") raw !! 2%nat = Some field
    ∧ int_of_str field = Some inode.
Proof.
  unfold fls_line, excluded. intros Hl.
  case_bool_decide; [|done].
  apply bind_Ok in Hl as (name & Hname%index_Ok & Hl).
  apply bind_Ok in Hl as (c & Hc%index_Ok & Hl).
  destruct (c =? ch "$")%N eqn:Hd; [done|]. apply N.eqb_neq in Hd.
  rewrite count_pos_contains in Hl by done.
  destruct (fix_subvols self && _ && _) eqn:Hf; [done|].
  destruct (ignore_ext_backup self && _) eqn:He; [done|].
  apply bind_Ok in Hl as (kind & Hkind%index_Ok & Hl).
  apply bind_Ok in Hl as (k & Hk%index_Ok & Hl). cbv zeta in Hl.
  apply bind_Ok in Hl as (field & Hfield%index_Ok & Hl).
  destruct (proj1 (bind_Ok _ _ _) Hl) as (n & Hn & Hret).
  injection Hret as <- <-.
  unfold int, or_raise in Hn. destruct (int_of_str field) eqn:Hi; [|done].
  injection Hn as ->. exists name, c, kind, k, field.
  rewrite Hf, He. by repeat split.
Qed.

(** A line whose name has ['$'] after its first character is passed over. *)
Lemma fls_line_metadata self raw name :
  split (ch "|") raw !! 1%nat = Some name →
  name !! 1%nat = Some (ch "$") →
  fls_line self raw = Ok None.
Proof.
  intros Hname Hc. unfold fls_line.
  rewrite bool_decide_eq_true_2 by (apply lookup_lt_Some in Hname; lia).
  rewrite (index_Some _ _ _ Hname), bind_Ok_l.
  rewrite (index_Some _ _ _ Hc), bind_Ok_l. by rewrite N.eqb_refl.
Qed.

Lemma fls_line_path self raw path inode :
  fls_line self raw = Ok (Some (path, inode)) → startswith (u "$") path = false.
Proof.
  intros (name & c & kind & k & field & _ & Hc & Hd & _ & _ & _ & -> & _)%fls_line_Some.
  assert (∀ hi, startswith (u "$") (slice name 1 hi) = false) as Hs.
  { intros hi. destruct (slice_1_head name hi c Hc) as [->|[t ->]]; [done|].
    change (u "$") with [ch "$"]. cbn [startswith].
    apply andb_false_intro1, N.eqb_neq. congruence. }
  destruct (k =? ch "l")%N; apply Hs.
Qed.

Lemma parse_fls_files_line self data text files raw :
  decode (Byte.to_N <$> data) = Ok text →
  parse_fls_files self data = Ok files →
  raw ∈ splitlines text →
  ∃ r, fls_line self raw = Ok r ∧ ∀ entry, r = Some entry → entry ∈ files.
Proof.
  intros Htext (text' & rs & Htext' & Hrs & ->)%parse_fls_files_Ok Hraw.
  rewrite Htext in Htext'. injection Htext' as <-.
  apply list_elem_of_lookup in Hraw as [i Hi].
  destruct (Forall2_lookup_l _ _ _ _ _ Hrs Hi) as (r & Hr & Hline).
  exists r. split; [done|]. intros entry ->.
  apply list_elem_of_omap. exists (Some entry). split; [|done].
  apply list_elem_of_lookup. eauto.
Qed.

Lemma parse_fls_files_entry self data files entry :
  parse_fls_files self data = Ok files →
  entry ∈ files →
  ∃ text raw, decode (Byte.to_N <$> data) = Ok text
    ∧ raw ∈ splitlines text ∧ fls_line self raw = Ok (Some entry).
Proof.
  intros (text & rs & Htext & Hrs & ->)%parse_fls_files_Ok Hentry.
  apply list_elem_of_omap in Hentry as (r & Hr & Hid). simpl in Hid. subst r.
  apply list_elem_of_lookup in Hr as [i Hi].
  destruct (Forall2_lookup_r _ _ _ _ _ Hrs Hi) as (raw & Hraw & Hline).
  exists text, raw. split; [done|]. split; [|done].
  apply list_elem_of_lookup. eauto.
Qed.

Lemma parse_fls_files_Raise self data text raw :
  decode (Byte.to_N <$> data) = Ok text →
  raw ∈ splitlines text →
  is_raise (fls_line self raw) →
  is_raise (parse_fls_files self data).
Proof.
  intros Htext Hraw Hline. unfold parse_fls_files.
  rewrite Htext, bind_Ok_l, fls_loop_spec.
  destruct (mapM_Raise (fls_line self) _ _ Hraw Hline) as [e ->]. by eexists.
Qed.

(** C1: a path returned by [parse_fls_files] never begins with ['$'],
    and a line whose name has ['$'] right after its first character (the
    type tag) is skipped: the result is the one of the listing without
    that line. *)
Theorem parse_fls_files_skips_metadata_entries self data files :
  parse_fls_files self data = Ok files →
  (∀ path inode, (path, inode) ∈ files → startswith (u "$") path = false)
  ∧ (∀ text pre raw post name,
       decode (Byte.to_N <$> data) = Ok text →
       splitlines text = pre ++ raw :: post →
       split (ch "|") raw !! 1%nat = Some name →
       name !! 1%nat = Some (ch "$") →
       fls_loop self (pre ++ post) [] = Ok files).
Proof.
  intros Hparse. split.
  - intros path inode Hin.
    destruct (parse_fls_files_entry _ _ _ _ Hparse Hin) as (text & raw & _ & _ & Hline).
    by eapply fls_line_path.
  - intros text pre raw post name Htext Hlines Hname Hc.
    unfold parse_fls_files in Hparse.
    rewrite Htext, bind_Ok_l, Hlines in Hparse.
    unfold fls_loop in *. rewrite for_each_app in Hparse |- *.
    destruct (for_each _ pre []) as [files'|]; [|done].
    rewrite bind_Ok_l in Hparse |- *. simpl in Hparse.
    by rewrite (fls_line_metadata _ _ _ Hname Hc) in Hparse.
Qed.

(** The goal is an exception of the expected class, already raised. *)
Ltac raised :=
  eexists; split; [reflexivity | split; [auto | intros; congruence]].

(** C7: a line that passes the filters and whose third field [int]
    refuses is not passed over. The line raises [ValueError], or
    [IndexError] when it has no fourth field to look at; [parse_fls_files]
    raises, and so does the set-up of any test class that parses the
    listing. *)
Theorem parse_fls_files_bad_inode_raises self data text raw name field :
  decode (Byte.to_N <$> data) = Ok text →
  raw ∈ splitlines text →
  split (ch "|") raw !! 1%nat = Some name →
  name !! 1%nat ≠ Some (ch "$") →
  excluded self name = false →
  split (ch "|") raw !! 2%nat = Some field →
  int_of_str field = None →
  (∃ e, fls_line self raw = Raise e
        ∧ (e = ValueError ∨ e = IndexError)
        ∧ (∀ c kind k, name !! 1%nat = Some c →
             split (ch "|") raw !! 3%nat = Some kind → kind !! 0%nat = Some k →
             e = ValueError))
  ∧ is_raise (parse_fls_files self data)
  ∧ (∀ test ils, TestBtrfs.parser test = self →
       is_raise (TestBtrfs.retrieve_tsk test data ils)).
Proof.
  intros Htext Hraw Hname Hc Hex Hfield Hint.
  assert (∃ e, fls_line self raw = Raise e
               ∧ (e = ValueError ∨ e = IndexError)
               ∧ (∀ c kind k, name !! 1%nat = Some c →
                    split (ch "|") raw !! 3%nat = Some kind →
                    kind !! 0%nat = Some k → e = ValueError))
    as (e & He & Hcls).
  { unfold fls_line.
    rewrite bool_decide_eq_true_2 by (apply lookup_lt_Some in Hname; lia).
    rewrite (index_Some _ _ _ Hname), bind_Ok_l.
    case_index name 1%nat; [|raised].
    destruct (_ =? ch "$")%N eqn:Hd.
    { apply N.eqb_eq in Hd as ->. done. }
    unfold excluded in Hex. apply orb_false_elim in Hex as [Hf He].
    rewrite count_pos_contains, Hf, He by done.
    case_index (split (ch "|") raw) 3%nat;
      [|raised].
    match goal with |- context [index ?kind 0] => case_index kind 0%nat end;
      [|raised].
    cbv zeta.
    rewrite (index_Some _ _ _ Hfield), bind_Ok_l.
    unfold int. rewrite Hint. raised. }
  split; [by eauto|].
  assert (is_raise (parse_fls_files self data)) as [e' He'].
  { eapply parse_fls_files_Raise; [done..|]. by exists e. }
  split; [by exists e'|].
  intros test ils <-. exists e'. unfold TestBtrfs.retrieve_tsk. by rewrite He'.
Qed.

(** C10: for a line of a symbolic link whose name has no [" -> "], the
    returned path is the name without its first and without its last
    character. *)
Theorem parse_fls_files_symlink_without_arrow self data text files raw name kind :
  decode (Byte.to_N <$> data) = Ok text →
  parse_fls_files self data = Ok files →
  raw ∈ splitlines text →
  split (ch "|") raw !! 1%nat = Some name →
  split (ch "|") raw !! 3%nat = Some kind →
  kind !! 0%nat = Some (ch "l") →
  contains (u " -> ") name = false →
  name !! 1%nat ≠ Some (ch "$") →
  excluded self name = false →
  ∃ first path last inode,
    name = first :: path ++ [last] ∧ (path, inode) ∈ files.
Proof.
  intros Htext Hparse Hraw Hname Hkind Hk Harrow Hc Hex.
  destruct (parse_fls_files_line _ _ _ _ _ Htext Hparse Hraw) as (r & Hline & Hin).
  destruct r as [[path inode]|].
  - apply fls_line_Some in Hline
      as (name' & c & kind' & k & field & Hname' & Hc' & _ & _ & Hkind' & Hk' & -> & _).
    rewrite Hname in Hname'. injection Hname' as <-.
    rewrite Hkind in Hkind'. injection Hkind' as <-.
    rewrite Hk in Hk'. injection Hk' as <-.
    rewrite N.eqb_refl, (proj2 (find_contains _ _) Harrow) in Hin.
    destruct (slice_1_m1 name) as (first & last & Heq).
    { apply lookup_lt_Some in Hc'. lia. }
    exists first, (slice name 1 (-1)), last, inode. split; [done|]. by apply Hin.
  - exfalso. revert Hline. unfold fls_line.
    rewrite bool_decide_eq_true_2 by (apply lookup_lt_Some in Hname; lia).
    rewrite (index_Some _ _ _ Hname), bind_Ok_l.
    case_index name 1%nat; [|done].
    destruct (_ =? ch "$")%N eqn:Hd.
    { apply N.eqb_eq in Hd as ->. done. }
    unfold excluded in Hex. apply orb_false_elim in Hex as [Hf He].
    rewrite count_pos_contains, Hf, He by done.
    rewrite (index_Some _ _ _ Hkind), bind_Ok_l.
    rewrite (index_Some _ _ _ Hk), bind_Ok_l. cbv zeta.
    destruct (index _ 2%nat); [|done]. rewrite bind_Ok_l.
    by destruct (int _).
Qed.
End Fls.

(** ** [parse_ils] *)

Section Ils.
Context `{Interpreter}.
Import TextParser.

Lemma slice_from_1 {A} (l : list A) : slice_from l 1 = drop 1 l.
Proof.
  unfold slice_from, slice, adjust_index.
  rewrite (proj2 (Z.ltb_ge (Z.of_nat (length l)) 0)) by lia.
  change (1 <? 0) with false. cbv iota.
  destruct l as [|a l]; [done|].
  replace (Z.to_nat (1 `min` _)) with 1%nat by (simpl length; lia).
  rewrite take_ge; [done|]. rewrite length_drop. simpl length. lia.
Qed.

(** A line is stored when its first field is made of digits and is not
    ["0"] and its ninth field is not ["0"]; the key is the first field,
    the value the fields after it, each one converted when [int] takes it. *)
Lemma ils_line_Some raw key attrs :
  ils_line raw = Ok (Some (key, attrs)) ↔
  ∃ first alloc,
    split (ch "|") raw !! 0%nat = Some first
    ∧ isdigit first = true ∧ first ≠ u "0"
    ∧ split (ch "|") raw !! 8%nat = Some alloc ∧ alloc ≠ u "0"
    ∧ key = int_or_str first
    ∧ attrs = int_or_str <$> drop 1 (split (ch "|") raw).
Proof.
  unfold ils_line, str_eqb. split.
  - case_index (split (ch "|") raw) 0%nat; [|done].
    destruct (isdigit _) eqn:Hd; [|done]. case_bool_decide as Hz; [done|].
    simpl negb. simpl andb. cbv iota.
    case_index (split (ch "|") raw) 8%nat; [|done].
    case_bool_decide as Ha; [done|]. simpl negb. cbv iota zeta.
    rewrite slice_from_1.
    destruct (split (ch "|") raw) as [|f fs]; [done|].
    injection E as ->. simpl. intros [= <- <-].
    eexists _, _. by rewrite fmap_drop, drop_0.
  - intros (first & alloc & Hfirst & Hd & Hz & Halloc & Ha & -> & ->).
    rewrite (index_Some _ _ _ Hfirst), bind_Ok_l, Hd.
    rewrite bool_decide_eq_false_2 by done. simpl negb. simpl andb. cbv iota.
    rewrite (index_Some _ _ _ Halloc), bind_Ok_l.
    rewrite bool_decide_eq_false_2 by done. simpl negb. cbv iota zeta.
    rewrite slice_from_1.
    destruct (split (ch "|") raw) as [|f fs]; [done|].
    injection Hfirst as ->. simpl. by rewrite drop_0.
Qed.

(** The lines after the last one stored under [key] leave its value. *)
Lemma ils_loop_other key lines inodes inodes' :
  ils_loop lines inodes = Ok inodes' →
  (∀ raw attrs, raw ∈ lines → ils_line raw ≠ Ok (Some (key, attrs))) →
  inodes' !! key = inodes !! key.
Proof.
  unfold ils_loop. revert inodes.
  induction lines as [|raw lines IH]; intros inodes Hloop Hother; simpl in Hloop.
  - by injection Hloop as ->.
  - destruct (ils_line raw) as [r|] eqn:Hline; [|done].
    rewrite !bind_Ok_l in Hloop. apply IH in Hloop.
    + rewrite Hloop. destruct r as [[k a]|]; [|done].
      apply lookup_insert_ne. intros ->.
      eapply Hother; [|done]. apply list_elem_of_here.
    + intros raw' attrs Hin. apply Hother. by apply list_elem_of_further.
Qed.

(** C9: when several stored lines have the same key, [parse_ils] maps
    the key to the value of the last of them, and to no earlier one. *)
Theorem parse_ils_last_write_wins data text inodes pre raw1 mid raw2 post
    key attrs1 attrs2 :
  decode (Byte.to_N <$> data) = Ok text →
  parse_ils data = Ok inodes →
  splitlines text = pre ++ raw1 :: mid ++ raw2 :: post →
  ils_line raw1 = Ok (Some (key, attrs1)) →
  ils_line raw2 = Ok (Some (key, attrs2)) →
  (∀ raw attrs, raw ∈ post → ils_line raw ≠ Ok (Some (key, attrs))) →
  inodes !! key = Some attrs2
  ∧ (attrs1 ≠ attrs2 → inodes !! key ≠ Some attrs1).
Proof.
  intros Htext Hparse Hlines _ Hraw2 Hpost.
  assert (inodes !! key = Some attrs2) as Hkey.
  { unfold parse_ils in Hparse. rewrite Htext, bind_Ok_l, Hlines in Hparse.
    replace (pre ++ raw1 :: mid ++ raw2 :: post)
      with ((pre ++ raw1 :: mid) ++ raw2 :: post) in Hparse
      by (by rewrite <-app_assoc).
    unfold ils_loop in Hparse. rewrite for_each_app in Hparse.
    destruct (for_each _ (pre ++ raw1 :: mid) ∅) as [m|]; [|done].
    rewrite bind_Ok_l in Hparse. simpl in Hparse.
    rewrite Hraw2, !bind_Ok_l in Hparse.
    apply (ils_loop_other key) in Hparse; [|done].
    by rewrite Hparse, lookup_insert_eq. }
  split; [done|]. rewrite Hkey. congruence.
Qed.
End Ils.

(** ** Components of a path *)

Lemma contains_in_nil sub : contains sub [] = true → sub = [].
Proof. by destruct sub. Qed.

Lemma contains_cons sub c s : contains sub s = true → contains sub (c :: s) = true.
Proof. intros Hs. simpl. by rewrite Hs, orb_true_r. Qed.

(** A string without the separator that occurs in [a + sep + t] occurs
    on one side of the separator. *)
Lemma contains_sep sep sub a t :
  sep ∉ sub →
  contains sub (a ++ sep :: t) = true →
  contains sub a = true ∨ contains sub t = true.
Proof.
  intros Hsep. rewrite !contains_spec. intros (x & y & Heq).
  apply app_eq_inv in Heq as [(k & -> & Heq)|(k & -> & Heq)].
  - left. apply app_eq_inv in Heq as [(k' & -> & Heq)|(k' & -> & _)].
    + destruct k' as [|c k'].
      * exists x, []. by rewrite !app_nil_r.
      * injection Heq as <- _. exfalso. apply Hsep. set_solver.
    + by exists x, k'.
  - destruct k as [|c k]; simpl in Heq.
    + destruct sub as [|c sub].
      * left. exists a, []. by rewrite app_nil_r.
      * injection Heq as <- _. exfalso. apply Hsep. set_solver.
    + injection Heq as <- ->. right. by exists k, y.
Qed.

Lemma split_nonnil sep s : split sep s ≠ [].
Proof.
  destruct s as [|c s]; simpl; [done|].
  destruct (c =? sep)%N; [done|]. by destruct (split sep s).
Qed.

Lemma sep_join_cons sep p ps :
  ps ≠ [] → sep_join sep (p :: ps) = p ++ sep :: sep_join sep ps.
Proof. by destruct ps. Qed.

Lemma sep_join_split sep s : sep_join sep (split sep s) = s.
Proof.
  induction s as [|c s IH]; simpl; [done|].
  destruct (c =? sep)%N eqn:Hc.
  - apply N.eqb_eq in Hc as ->.
    rewrite sep_join_cons by apply split_nonnil. by rewrite IH.
  - pose proof (split_nonnil sep s) as Hne.
    destruct (split sep s) as [|f fs]; [done|].
    rewrite <-IH. by destruct fs.
Qed.

Lemma contains_sep_join_elem sep sub l x :
  x ∈ l → contains sub x = true → contains sub (sep_join sep l) = true.
Proof.
  intros Hx Hsub. induction l as [|p ps IH]; [by apply elem_of_nil in Hx|].
  destruct ps as [|p' ps].
  - apply list_elem_of_singleton in Hx as ->. done.
  - rewrite sep_join_cons by done.
    apply elem_of_cons in Hx as [->|Hx].
    + by apply contains_app_l.
    + apply contains_app_r, contains_cons. by apply IH.
Qed.

(** A field of [s.split(sep)] is a piece of [s]. *)
Lemma contains_split_elem sep sub s x :
  x ∈ split sep s → contains sub x = true → contains sub s = true.
Proof.
  intros Hx Hsub. rewrite <-(sep_join_split sep s).
  by eapply contains_sep_join_elem.
Qed.

Lemma contains_sep_join sep sub l :
  sep ∉ sub → sub ≠ [] →
  contains sub (sep_join sep l) = true →
  ∃ x, x ∈ l ∧ contains sub x = true.
Proof.
  intros Hsep Hsub. induction l as [|p ps IH]; simpl.
  - by intros ?%contains_in_nil.
  - destruct ps as [|p' ps].
    + intros Hp. exists p. split; [apply list_elem_of_here | done].
    + intros [Hp|Hps]%contains_sep; [| |done].
      * exists p. split; [apply list_elem_of_here | done].
      * destruct (IH Hps) as (x & Hx & Hc).
        exists x. split; [by apply list_elem_of_further | done].
Qed.

Lemma contains_replicate_sep sep sub k s :
  sep ∉ sub → sub ≠ [] →
  contains sub (replicate k sep ++ s) = true → contains sub s = true.
Proof.
  intros Hsep Hsub. induction k as [|k IH]; simpl replicate; [done|].
  intros Hc. apply IH.
  destruct (contains_sep sep sub [] (replicate k sep ++ s) Hsep Hc)
    as [?%contains_in_nil|]; done.
Qed.

(** ** [os.path] *)

Section Posixpath.
Import posixpath.

(** What occurs in a joined path occurs in one of the joined parts, when
    it has no separator. *)
Lemma contains_join sub a p :
  sep ∉ sub →
  contains sub (join a p) = true →
  contains sub a = true ∨ ∃ x, x ∈ p ∧ contains sub x = true.
Proof.
  intros Hsep. unfold join. revert a.
  induction p as [|x p IH]; intros a; cbn [foldl]; [by left|].
  intros [Hc|(y & Hy & Hc)]%IH;
    [|right; exists y; split; [by apply list_elem_of_further | done]].
  assert (contains sub a = true ∨ contains sub x = true) as [?|?];
    [|by left|right; exists x; split; [apply list_elem_of_here | done]].
  revert Hc. destruct (startswith [sep] x); [intros; by right|].
  destruct (bool_decide (a = []) || endswith_sep a) eqn:Hend; intros Hc.
  - apply orb_true_iff in Hend as [->%bool_decide_eq_true|Hend]; [by right|].
    unfold endswith_sep in Hend.
    destruct (exists_last (l:=a)) as (a' & c & ->).
    { intros ->. done. }
    rewrite last_snoc in Hend. apply N.eqb_eq in Hend as ->.
    rewrite <-app_assoc in Hc. simpl in Hc.
    apply contains_sep in Hc as [Hc|Hc]; [|by right|done].
    left. by apply contains_app_l.
  - by apply contains_sep in Hc.
Qed.

Lemma elem_of_removelast {A} (l : list A) x : x ∈ removelast l → x ∈ l.
Proof.
  induction l as [|a [|a' l] IH]; simpl; [done| |].
  - by intros ?%elem_of_nil.
  - intros [->|Hx]%elem_of_cons; [apply list_elem_of_here|].
    apply list_elem_of_further. by apply IH.
Qed.

(** The components [normpath] keeps are components of its argument. *)
Lemma normpath_comps_subseteq k comps acc x :
  x ∈ foldl (normpath_step k) acc comps → x ∈ acc ∨ x ∈ comps.
Proof.
  revert acc. induction comps as [|c comps IH]; intros acc; simpl; [by left|].
  intros [Hx|Hx]%IH; [|right; by apply list_elem_of_further].
  unfold normpath_step in Hx.
  destruct (bool_decide (c = [] ∨ c = curdir)); [by left|].
  destruct (_ || _).
  - apply elem_of_app in Hx as [?| ->%list_elem_of_singleton]; [by left|].
    right. apply list_elem_of_here.
  - left. by apply elem_of_removelast.
Qed.

Lemma contains_normpath sub path :
  sep ∉ sub → sub ≠ [] → contains sub curdir = false →
  contains sub (normpath path) = true → contains sub path = true.
Proof.
  intros Hsep Hsub Hdot. unfold normpath.
  destruct (bool_decide (path = [])); [congruence|]. cbv zeta.
  destruct (bool_decide (_ = [])); [congruence|].
  intros (x & Hx & Hc)%contains_replicate_sep%contains_sep_join; [|done..].
  apply normpath_comps_subseteq in Hx as [?%elem_of_nil|Hx]; [done|].
  by eapply contains_split_elem.
Qed.

Lemma contains_abspath sub cwd path :
  sep ∉ sub → sub ≠ [] → contains sub curdir = false →
  contains sub (abspath cwd path) = true →
  contains sub path = true ∨ isabs path = false ∧ contains sub cwd = true.
Proof.
  intros Hsep Hsub Hdot. unfold abspath.
  destruct (isabs path); intros Hc%contains_normpath; try done; [by left|].
  apply contains_join in Hc as [?|(x & ->%list_elem_of_singleton & ?)];
    [by right|by left|done].
Qed.

(** What occurs in a relative path comes from the path, or from the
    working directory when the path is not absolute. *)
Lemma contains_relpath sub cwd path start rel :
  sep ∉ sub → sub ≠ [] → contains sub pardir = false →
  relpath cwd (VStr path) start = Ok rel →
  contains sub rel = true →
  contains sub path = true ∨ isabs path = false ∧ contains sub cwd = true.
Proof.
  intros Hsep Hsub Hpar.
  assert (contains sub curdir = false) as Hdot.
  { destruct (contains sub curdir) eqn:Hc; [|done].
    rewrite <-Hpar. symmetry. by apply (contains_app_l sub curdir curdir). }
  unfold relpath. destruct (bool_decide (path = [])); [done|]. cbv zeta.
  set (path_list := components (abspath cwd path)).
  set (start_list := components (abspath cwd start)).
  set (i := length (commonprefix start_list path_list)).
  assert (∀ x, x ∈ replicate (length start_list - i) pardir ++ drop i path_list →
            contains sub x = true →
            contains sub path = true ∨ isabs path = false ∧ contains sub cwd = true)
    as Hparts.
  { intros x [[-> _]%elem_of_replicate|Hx%subseteq_drop]%elem_of_app Hc;
      [congruence|].
    apply list_elem_of_filter in Hx as [_ Hx].
    apply contains_abspath; [done..|]. by eapply contains_split_elem. }
  destruct (replicate _ _ ++ _) as [|a p].
  - intros [= <-]. congruence.
  - intros [= <-] [Hc|(x & Hx & Hc)]%contains_join; [| |done].
    + eapply Hparts; [apply list_elem_of_here | done].
    + eapply Hparts; [by apply list_elem_of_further | done].
Qed.
End Posixpath.

(** ** [parse_stat] *)

Section Stat.
Context `{Interpreter}.
Import TextParser.

Lemma int_or_str_VStr i s : int_or_str i = VStr s → s = i.
Proof. unfold int_or_str. destruct (int_of_str i); congruence. Qed.

(** The first loop raises nothing: a line is filtered on its first
    field or appended with its fields converted. *)
Lemma stat_line_eq self raw :
  ∃ name fields, split (ch "|") raw = name :: fields
    ∧ stat_line self raw
      = Ok (if excluded self name then None
            else Some (int_or_str <$> name :: fields)).
Proof.
  unfold stat_line, excluded. pose proof (split_nonnil (ch "|") raw) as Hne.
  destruct (split (ch "|") raw) as [|name fields]; [done|].
  exists name, fields. split; [done|].
  rewrite (index_Some _ 0%nat name), bind_Ok_l by done.
  rewrite count_pos_contains by done.
  destruct (fix_subvols self && _ && _); [done|].
  by destruct (ignore_ext_backup self && _).
Qed.

Lemma stat_loop_spec self lines inodes :
  stat_loop self lines inodes
  = (λ rs, inodes ++ omap id rs) <$> mapM (stat_line self) lines.
Proof.
  unfold stat_loop. rewrite for_each_step.
  destruct (mapM _ _); simpl; [|done]. by rewrite foldl_snoc_omap.
Qed.

Lemma parse_stat_Ok self cwd data mpath inodes :
  parse_stat self cwd data mpath = Ok inodes ↔
  ∃ text rs, decode (Byte.to_N <$> data) = Ok text
    ∧ Forall2 (λ raw r, stat_line self raw = Ok r) (splitlines text) rs
    ∧ match mpath with
      | Some mpath =>
        Forall2 (λ line line', set_relpath cwd mpath line = Ok line')
          (omap id rs) inodes
      | None => inodes = omap id rs
      end.
Proof.
  unfold parse_stat. split.
  - intros (text & Htext & Hrest)%bind_Ok.
    apply bind_Ok in Hrest as (inodes0 & Hloop & Hrel).
    rewrite stat_loop_spec in Hloop.
    apply fmap_Ok in Hloop as (rs & Hrs%mapM_Ok & ->).
    exists text, rs. split; [done|]. split; [done|].
    destruct mpath; [by apply mapM_Ok | by injection Hrel].
  - intros (text & rs & Htext & Hrs%mapM_Ok & Hrel).
    rewrite Htext, bind_Ok_l, stat_loop_spec, Hrs. simpl.
    destruct mpath; [by apply mapM_Ok | by subst].
Qed.

Lemma set_relpath_Ok cwd mpath line line' :
  set_relpath cwd mpath line = Ok line' →
  ∃ name rel, line !! 0%nat = Some (VStr name)
    ∧ posixpath.relpath cwd (VStr name) mpath = Ok rel
    ∧ line' = <[0%nat := VStr rel]> line.
Proof.
  unfold set_relpath. case_index line 0%nat; [|done].
  intros (rel & Hrel & [= <-])%bind_Ok.
  destruct v as [n|name]; [simpl in Hrel; by case_bool_decide|]. by exists name, rel.
Qed.

(** An appended line was not excluded, and its first field, when it
    stayed a [str], is the first field of the raw line. *)
Lemma stat_line_Some self raw line path :
  stat_line self raw = Ok (Some line) →
  line !! 0%nat = Some (VStr path) →
  excluded self path = false ∧ split (ch "|") raw !! 0%nat = Some path.
Proof.
  destruct (stat_line_eq self raw) as (name & fields & Hsplit & ->).
  destruct (excluded self name) eqn:Hex; [done|].
  intros [= <-]. simpl. intros [= ->%int_or_str_VStr]. by rewrite Hsplit.
Qed.

(** C2, amended: with [fix_subvols] set, no path returned by
    [parse_stat] contains both ["snapshot"] and ["subvolume"], as long as
    [relpath] adds nothing from the working directory. *)
Theorem parse_stat_excludes_snapshot_duplicates self cwd data mpath text inodes
    line path :
  fix_subvols self = true →
  decode (Byte.to_N <$> data) = Ok text →
  relpath_adds_nothing cwd mpath text →
  parse_stat self cwd data mpath = Ok inodes →
  line ∈ inodes →
  line !! 0%nat = Some (VStr path) →
  contains (u "snapshot") path && contains (u "subvolume") path = false.
Proof.
  intros Hfix Htext Hadds (text' & rs & Htext' & Hrs & Hrel)%parse_stat_Ok Hline Hpath.
  rewrite Htext in Htext'. injection Htext' as <-.
  assert (∀ line0 name, line0 ∈ omap id rs → line0 !! 0%nat = Some (VStr name) →
            contains (u "snapshot") name && contains (u "subvolume") name = false
            ∧ ∃ raw, raw ∈ splitlines text
                ∧ split (ch "|") raw !! 0%nat = Some name) as Hraw.
  { intros line0 name (r & Hr & Hid)%list_elem_of_omap Hname.
    simpl in Hid. subst r. apply list_elem_of_lookup in Hr as [i Hi].
    destruct (Forall2_lookup_r _ _ _ _ _ Hrs Hi) as (raw & Hraw & Hst).
    destruct (stat_line_Some _ _ _ _ Hst Hname) as [Hex Hsplit].
    unfold excluded in Hex. rewrite Hfix in Hex.
    apply orb_false_elim in Hex as [Hex _]. split; [done|].
    exists raw. split; [|done]. apply list_elem_of_lookup. eauto. }
  destruct mpath as [mpath|].
  - apply list_elem_of_lookup in Hline as [i Hi].
    destruct (Forall2_lookup_r _ _ _ _ _ Hrel Hi) as (line0 & Hline0 & Hset).
    apply set_relpath_Ok in Hset as (name & rel & Hname & Hrelpath & ->).
    rewrite list_lookup_insert_eq in Hpath by (apply lookup_lt_Some in Hname; lia).
    injection Hpath as <-.
    destruct (Hraw line0 name) as (Hboth & raw & Hin & Hsplit);
      [apply list_elem_of_lookup; eauto | done |].
    assert (∀ sub, sub = u "snapshot" ∨ sub = u "subvolume" →
              contains sub rel = true →
              contains sub name = true
              ∨ posixpath.isabs name = false ∧ contains sub cwd = true) as Hfrom.
    { intros sub Hsub. apply (contains_relpath sub cwd name mpath rel); [..|done];
        destruct Hsub as [-> | ->]; (by_compute || by vm_compute). }
    destruct (contains (u "snapshot") rel) eqn:Hsnap; [|done].
    destruct (contains (u "subvolume") rel) eqn:Hsub; [|done].
    apply Hfrom in Hsnap as [Hsnap|[Habs Hsnap]]; [| |by left].
    + rewrite Hsnap in Hboth. simpl in Hboth.
      apply Hfrom in Hsub as [Hsub|[Habs Hsub]]; [congruence| |by right].
      destruct Hadds as [?|[[_ Hcwd]|Habs']]; [done|congruence|].
      rewrite (Habs' raw name) in Habs; done.
    + destruct Hadds as [?|[[Hcwd _]|Habs']]; [done|congruence|].
      rewrite (Habs' raw name) in Habs; done.
  - subst inodes. by destruct (Hraw line path).
Qed.

(** C8, amended: the parsers check no uniqueness. Two accepted lines
    with the same path give two entries with that path, in the order of
    the input, among the entries of the other lines; and nothing but a
    line that raises makes [parse_fls_files] raise, while the loop of
    [parse_stat] raises on no line at all. *)
Theorem parsers_keep_duplicate_paths self cwd data mpath text l1 raw1 l2 raw2 l3 :
  decode (Byte.to_N <$> data) = Ok text →
  splitlines text = l1 ++ raw1 :: l2 ++ raw2 :: l3 →
  (∀ files path inode1 inode2,
     parse_fls_files self data = Ok files →
     fls_line self raw1 = Ok (Some (path, inode1)) →
     fls_line self raw2 = Ok (Some (path, inode2)) →
     ∃ f1 f2 f3, files = f1 ++ (path, inode1) :: f2 ++ (path, inode2) :: f3)
  ∧ (∀ inodes line1 line2,
       parse_stat self cwd data mpath = Ok inodes →
       stat_line self raw1 = Ok (Some line1) →
       stat_line self raw2 = Ok (Some line2) →
       line1 !! 0%nat = line2 !! 0%nat →
       ∃ f1 e1 f2 e2 f3,
         inodes = f1 ++ e1 :: f2 ++ e2 :: f3
         ∧ e1 !! 0%nat = e2 !! 0%nat
         ∧ drop 1 e1 = drop 1 line1 ∧ drop 1 e2 = drop 1 line2)
  ∧ ((∀ raw, raw ∈ splitlines text → ∃ r, fls_line self raw = Ok r) →
       ∃ files, parse_fls_files self data = Ok files)
  ∧ (∃ inodes, parse_stat self cwd data None = Ok inodes).
Proof.
  intros Htext Hlines.
  assert (∀ {X} (step : str → result (option X)) rs (x1 x2 : X),
            Forall2 (λ raw r, step raw = Ok r) (splitlines text) rs →
            step raw1 = Ok (Some x1) → step raw2 = Ok (Some x2) →
            ∃ f1 f2 f3, omap id rs = f1 ++ x1 :: f2 ++ x2 :: f3) as Hsplit.
  { intros X step rs x1 x2 Hrs H1 H2. rewrite Hlines in Hrs.
    apply Forall2_app_inv_l in Hrs as (rs1 & rs' & _ & Hrs & ->).
    apply Forall2_cons_inv_l in Hrs as (r1 & rs'' & Hr1 & Hrs & ->).
    apply Forall2_app_inv_l in Hrs as (rs2 & rs' & _ & Hrs & ->).
    apply Forall2_cons_inv_l in Hrs as (r2 & rs3 & Hr2 & _ & ->).
    rewrite H1 in Hr1. injection Hr1 as <-.
    rewrite H2 in Hr2. injection Hr2 as <-.
    exists (omap id rs1), (omap id rs2), (omap id rs3).
    rewrite omap_app. simpl. by rewrite omap_app. }
  split; [|split; [|split]].
  - intros files path i1 i2 (text' & rs & Htext' & Hrs & ->)%parse_fls_files_Ok H1 H2.
    rewrite Htext in Htext'. injection Htext' as <-. eauto.
  - intros inodes line1 line2 (text' & rs & Htext' & Hrs & Hrel)%parse_stat_Ok
      H1 H2 Hsame.
    rewrite Htext in Htext'. injection Htext' as <-.
    destruct (Hsplit _ _ rs line1 line2 Hrs H1 H2) as (f1 & f2 & f3 & Heq).
    destruct mpath as [mpath|].
    + rewrite Heq in Hrel.
      apply Forall2_app_inv_l in Hrel as (g1 & g' & _ & Hrel & ->).
      apply Forall2_cons_inv_l in Hrel as (e1 & g'' & He1 & Hrel & ->).
      apply Forall2_app_inv_l in Hrel as (g2 & g' & _ & Hrel & ->).
      apply Forall2_cons_inv_l in Hrel as (e2 & g3 & He2 & _ & ->).
      exists g1, e1, g2, e2, g3. split; [done|].
      apply set_relpath_Ok in He1 as (n1 & rel1 & Hn1 & Hrel1 & ->).
      apply set_relpath_Ok in He2 as (n2 & rel2 & Hn2 & Hrel2 & ->).
      pose proof (lookup_lt_Some _ _ _ Hn1) as Hlen1.
      pose proof (lookup_lt_Some _ _ _ Hn2) as Hlen2.
      rewrite Hsame, Hn2 in Hn1. injection Hn1 as <-.
      rewrite Hrel2 in Hrel1. injection Hrel1 as <-.
      rewrite !list_lookup_insert_eq by done. split; [done|].
      by destruct line1, line2.
    + subst inodes. exists f1, line1, f2, line2, f3. by rewrite Heq.
  - intros [rs Hrs]%mapM_is_Ok. unfold parse_fls_files.
    rewrite Htext, bind_Ok_l, fls_loop_spec, Hrs. by eexists.
  - destruct (mapM_is_Ok (stat_line self) (splitlines text)) as [rs Hrs].
    { intros raw _. destruct (stat_line_eq self raw) as (? & ? & _ & ->). by eexists. }
    unfold parse_stat. rewrite Htext, bind_Ok_l, stat_loop_spec, Hrs. by eexists.
Qed.
End Stat.

(** ** [test_btrfs.py] *)

Lemma mapM_Raise_inv {A B} (f : A → result B) l e :
  mapM f l = Raise e → ∃ x, x ∈ l ∧ f x = Raise e.
Proof.
  induction l as [|x l IH]; simpl; [done|].
  destruct (f x) as [y|e'] eqn:Hx; simpl.
  - destruct (mapM f l) as [k|e'']; simpl; [done|]. intros [= ->].
    destruct IH as (x' & Hin & Hx'); [done|].
    exists x'. split; [by apply list_elem_of_further | done].
  - intros [= ->]. exists x. split; [apply list_elem_of_here | done].
Qed.

Lemma set_of_Ok {A} `{Countable B} (f : A → result B) l (s : gset B) :
  TestBtrfs.set_of f l = Ok s ↔
  ∃ ks, Forall2 (λ x y, f x = Ok y) l ks ∧ s = list_to_set ks.
Proof. unfold TestBtrfs.set_of. rewrite fmap_Ok. by setoid_rewrite mapM_Ok. Qed.

(** The set a loop builds holds what its body gives for the elements. *)
Lemma set_of_spec {A} `{Countable B} (f : A → result B) l (s : gset B) :
  TestBtrfs.set_of f l = Ok s →
  ∀ y, y ∈ s ↔ ∃ x, x ∈ l ∧ f x = Ok y.
Proof.
  intros (ks & Hks & ->)%set_of_Ok y. rewrite elem_of_list_to_set. split.
  - intros [i Hi]%list_elem_of_lookup.
    destruct (Forall2_lookup_r _ _ _ _ _ Hks Hi) as (x & Hx & Hf).
    exists x. split; [|done]. apply list_elem_of_lookup. eauto.
  - intros (x & [i Hi]%list_elem_of_lookup & Hf).
    destruct (Forall2_lookup_l _ _ _ _ _ Hks Hi) as (y' & Hy' & Hf').
    rewrite Hf in Hf'. injection Hf' as <-. apply list_elem_of_lookup. eauto.
Qed.

Lemma assertEqual_Ok {A} `{EqDecision A} (x y : A) :
  TestBtrfs.assertEqual x y = Ok () ↔ x = y.
Proof. unfold TestBtrfs.assertEqual. destruct (decide (x = y)); naive_solver. Qed.

Section Tests.
Context `{Interpreter}.
Import TestBtrfs.

Lemma set_of_elem {A} `{Countable B} (f : A → result B) l (s : gset B) x y :
  set_of f l = Ok s → x ∈ l → f x = Ok y → y ∈ s.
Proof.
  unfold set_of. intros (k & Hk%mapM_Ok & ->)%fmap_Ok Hx Hy.
  apply list_elem_of_lookup in Hx as [i Hi].
  destruct (Forall2_lookup_l _ _ _ _ _ Hk Hi) as (y' & Hy' & Hf).
  rewrite Hy in Hf. injection Hf as <-.
  apply elem_of_list_to_set, list_elem_of_lookup. eauto.
Qed.

Lemma set_of_Raise {A} `{Countable B} (f : A → result B) l e :
  set_of f l = Raise e ↔ mapM f l = Raise e.
Proof. unfold set_of. destruct (mapM f l); simpl; split; congruence. Qed.

(** *** The merge of [setUpClassCustom] *)

(** The merge stops at the first entry whose inode is no key. *)
Lemma merge_first_missing tsk_inodes tsk_files tsk path inode :
  (path, inode) ∈ tsk_files →
  tsk_inodes !! VInt inode = None →
  ∃ pre path' inode' post,
    tsk_files = pre ++ (path', inode') :: post
    ∧ Forall (λ entry, is_Some (tsk_inodes !! VInt entry.2)) pre
    ∧ tsk_inodes !! VInt inode' = None
    ∧ merge tsk_inodes tsk_files tsk = Raise (KeyError (VInt inode')).
Proof.
  intros Hin Hnone. unfold merge. revert tsk.
  induction tsk_files as [|[p i] files IH]; intros tsk; [by apply elem_of_nil in Hin|].
  simpl. destruct (tsk_inodes !! VInt i) as [attrs|] eqn:Hi; simpl.
  - apply elem_of_cons in Hin as [[= -> ->]|Hin]; [congruence|].
    destruct (IH Hin ({[VStr p :: VInt i :: attrs]} ∪ tsk))
      as (pre & p' & i' & post & -> & Hpre & Hnone' & ->).
    exists ((p, i) :: pre), p', i', post. split; [done|].
    split; [|done]. apply Forall_cons_2; [simpl; by rewrite Hi | done].
  - exists [], p, i, files. split; [done|]. by split; [apply Forall_nil_2|].
Qed.

(** C4, amended: a file-listing entry whose inode is no key of the
    inode listing makes the merge raise [KeyError]: the loop stops at
    the first such entry of the listing, and the exception carries the
    inode number of that entry and nothing of its path. The handler of
    [setUpClassCustom] unmounts and raises it again, so the set-up
    ends with this [KeyError] when the [umount] command returns 0, and
    with the [ImageCreationError] of [umount] otherwise; in neither
    case is the set [self.tsk] returned with the entry left out. *)
Theorem retrieve_tsk_missing_inode self fls ils tsk_files tsk_inodes path inode res :
  TextParser.parse_fls_files (parser self) fls = Ok tsk_files →
  TextParser.parse_ils ils = Ok tsk_inodes →
  (path, inode) ∈ tsk_files →
  tsk_inodes !! VInt inode = None →
  ∃ pre path' inode' post,
    tsk_files = pre ++ (path', inode') :: post
    ∧ Forall (λ entry, is_Some (tsk_inodes !! VInt entry.2)) pre
    ∧ tsk_inodes !! VInt inode' = None
    ∧ retrieve_tsk self fls ils = Raise (KeyError (VInt inode'))
    ∧ setUpClassCustom_tsk self fls ils res
      = Raise (if bool_decide (res = 0) then KeyError (VInt inode')
               else ImageCreationError).
Proof.
  intros Hfls Hils Hin Hnone. unfold setUpClassCustom_tsk, retrieve_tsk.
  rewrite Hfls, bind_Ok_l, Hils, bind_Ok_l.
  destruct (merge_first_missing tsk_inodes tsk_files (tsk self) path inode Hin Hnone)
    as (pre & path' & inode' & post & Hfiles & Hpre & Hnone' & Hmerge).
  exists pre, path', inode', post. rewrite Hmerge.
  repeat (split; [done|]). unfold try_umount, ImageFactory.umount.
  by repeat case_bool_decide.
Qed.

(** *** [test_metadata_inode] *)

(** The inode number is read from the third field of the third line. *)
Lemma istat_inode_Ok out n :
  istat_inode out = Ok n ↔
  ∃ line text field,
    bytes_splitlines out !! 2%nat = Some line
    ∧ decode line = Ok text
    ∧ split (ch " ") text !! 2%nat = Some field
    ∧ int_of_str field = Some n.
Proof.
  unfold istat_inode, int. cbv zeta. split.
  - intros (line & Hline%index_Ok & Hrest)%bind_Ok.
    apply bind_Ok in Hrest as (text & Htext & Hrest).
    apply bind_Ok in Hrest as (field & Hfield%index_Ok & Hint).
    exists line, text, field. repeat split; [done..|].
    by destruct (int_of_str field) as [m|]; [injection Hint as ->|].
  - intros (line & text & field & Hline & Htext & Hfield & Hint).
    rewrite (index_Some _ _ _ Hline), bind_Ok_l, Htext, bind_Ok_l.
    by rewrite (index_Some _ _ _ Hfield), bind_Ok_l, Hint.
Qed.

Lemma istat_inode_Raise out e : istat_inode out = Raise e → parse_exn e.
Proof.
  unfold istat_inode, parse_exn. cbv zeta.
  case_index (bytes_splitlines out) 2%nat; [|intros [= <-]; tauto].
  unfold decode at 1. destruct (utf8_decode _) as [text|]; simpl;
    [|intros [= <-]; tauto].
  case_index (split (ch " ") text) 2%nat; [|intros [= <-]; tauto].
  unfold int. destruct (int_of_str _); simpl; [done|intros [= <-]; tauto].
Qed.

Lemma inode_pair_tsk_Raise istat line e :
  inode_pair_tsk istat line = Raise e → parse_exn e.
Proof.
  unfold inode_pair_tsk.
  case_index line 1%nat; [|intros [= <-]; unfold parse_exn; tauto].
  destruct (istat_inode _) as [n|e'] eqn:Hn; simpl.
  - case_index line 0%nat; [done|intros [= <-]; unfold parse_exn; tauto].
  - intros [= <-]. by eapply istat_inode_Raise.
Qed.

(** C3, amended: the captured output of [istat] is parsed whatever the
    command returned, and a buffer that cannot be parsed makes
    [test_metadata_inode] raise [IndexError], [UnicodeDecodeError] or
    [ValueError]: the comparison is not made. *)
Theorem test_metadata_inode_parse_failure self istat line inode e :
  line ∈ tsk self →
  line !! 1%nat = Some inode →
  istat_inode (istat inode) = Raise e →
  ∃ e', test_metadata_inode self istat = Raise e'
    ∧ parse_exn e' ∧ e' ≠ AssertionError.
Proof.
  intros Hline Hinode He. unfold test_metadata_inode.
  assert (is_raise (mapM (inode_pair_tsk istat) (elements (tsk self)))) as [e' He'].
  { apply (mapM_Raise _ _ line); [by apply elem_of_elements|].
    exists e. unfold inode_pair_tsk.
    by rewrite (index_Some _ _ _ Hinode), bind_Ok_l, He. }
  rewrite (proj2 (set_of_Raise _ _ _) He'), bind_Raise_l.
  exists e'. split; [done|].
  apply mapM_Raise_inv in He' as (line' & _ & Hpair%inode_pair_tsk_Raise).
  split; [done|]. by destruct Hpair as [-> | [-> | ->]].
Qed.

(** *** [test_metadata_size] *)

Lemma size_pair_stat_eq self line path size :
  line !! 0%nat = Some (VStr path) →
  line !! 11%nat = Some size →
  size_pair_stat self line
  = Ok (VStr path, if fix_size self && pseudo_entry path then VInt 0 else size).
Proof.
  intros Hpath Hsize. unfold size_pair_stat, pseudo_entry.
  rewrite (index_Some _ _ _ Hsize), bind_Ok_l.
  destruct (fix_size self); simpl andb; cbv iota.
  - rewrite (index_Some _ _ _ Hpath), !bind_Ok_l. unfold last_component.
    pose proof (split_nonnil (ch "/") path) as Hne.
    destruct (last (split (ch "/") path)) as [name|] eqn:Hlast.
    + simpl or_raise. rewrite bind_Ok_l.
      by destruct (_ || _).
    + by apply last_None in Hlast.
  - by rewrite bind_Ok_l, (index_Some _ _ _ Hpath).
Qed.

Lemma size_pair_stat_Ok self line pair :
  size_pair_stat self line = Ok pair ↔
  ∃ name size,
    line !! 0%nat = Some name ∧ line !! 11%nat = Some size
    ∧ (fix_size self = true → ∃ path, name = VStr path)
    ∧ pair = (name, stat_size self name size).
Proof.
  destruct (line !! 11%nat) as [size|] eqn:Hsize.
  2:{ split.
      - unfold size_pair_stat. by rewrite (index_None _ _ Hsize), bind_Raise_l.
      - by intros (? & ? & _ & ? & _). }
  destruct (line !! 0%nat) as [[n|path]|] eqn:Hname.
  - destruct (fix_size self) eqn:Hfix.
    + split.
      * unfold size_pair_stat.
        by rewrite Hfix, (index_Some _ _ _ Hsize), bind_Ok_l,
          (index_Some _ _ _ Hname), bind_Ok_l.
      * intros (name & size' & [= <-] & _ & Hstr & _).
        by destruct Hstr as [? ?].
    + assert (size_pair_stat self line = Ok (VInt n, size)) as ->.
      { unfold size_pair_stat.
        by rewrite Hfix, (index_Some _ _ _ Hsize), !bind_Ok_l,
          (index_Some _ _ _ Hname), bind_Ok_l. }
      split.
      * intros [= <-]. exists (VInt n), size. by repeat split.
      * by intros (name & size' & [= <-] & [= <-] & _ & ->).
  - rewrite (size_pair_stat_eq self line path size) by done. split.
    + intros [= <-]. exists (VStr path), size. repeat split; eauto.
    + by intros (name & size' & [= <-] & [= <-] & _ & ->).
  - apply lookup_ge_None in Hname. apply lookup_lt_Some in Hsize. lia.
Qed.

Lemma size_pair_tsk_Ok line pair :
  size_pair_tsk line = Ok pair ↔
  ∃ name size,
    line !! 0%nat = Some name ∧ line !! 11%nat = Some size ∧ pair = (name, size).
Proof.
  unfold size_pair_tsk.
  destruct (line !! 0%nat) as [name|] eqn:Hname.
  2:{ rewrite (index_None _ _ Hname), bind_Raise_l.
      split; [done | by intros (? & ? & ? & _)]. }
  rewrite (index_Some _ _ _ Hname), bind_Ok_l.
  destruct (line !! 11%nat) as [size|] eqn:Hsize.
  - rewrite (index_Some _ _ _ Hsize), bind_Ok_l. split.
    + intros [= <-]. by exists name, size.
    + by intros (? & ? & [= <-] & [= <-] & ->).
  - rewrite (index_None _ _ Hsize), bind_Raise_l.
    split; [done | by intros (? & ? & _ & ? & _)].
Qed.

Lemma size_pair_stat_Raise self line e :
  size_pair_stat self line = Raise e → e = IndexError ∨ e = AttributeError.
Proof.
  destruct (line !! 11%nat) as [size|] eqn:Hsize.
  2:{ unfold size_pair_stat. rewrite (index_None _ _ Hsize), bind_Raise_l.
      intros [= <-]. by left. }
  destruct (line !! 0%nat) as [[n|path]|] eqn:Hname.
  - unfold size_pair_stat.
    rewrite (index_Some _ _ _ Hsize), bind_Ok_l, (index_Some _ _ _ Hname).
    destruct (fix_size self); [intros [= <-]; by right|]. by rewrite !bind_Ok_l.
  - by rewrite (size_pair_stat_eq self line path size).
  - apply lookup_ge_None in Hname. apply lookup_lt_Some in Hsize. lia.
Qed.

Lemma size_pair_tsk_Raise line e : size_pair_tsk line = Raise e → e = IndexError.
Proof.
  unfold size_pair_tsk. case_index line 0%nat; [|by intros [= <-]].
  case_index line 11%nat; [done | by intros [= <-]].
Qed.

(** A loop over a set gives a set when its body gives a value for
    every element. *)
Lemma set_of_total {A} `{Countable B} (f : A → result B) l :
  (∀ x, x ∈ l → ∃ y, f x = Ok y) → ∃ s : gset B, set_of f l = Ok s.
Proof.
  intros Hf. destruct (set_of f l) as [s|e] eqn:Hs; [by eexists|].
  apply set_of_Raise, mapM_Raise_inv in Hs as (x & Hx & He).
  destruct (Hf x Hx) as [y Hy]. congruence.
Qed.

(** C5: the sets [test_metadata_size] compares. With [fix_size] set, a
    record of [self.stat] whose last path component is a directory,
    subvolume or snapshot entry gives the pair of its path and 0,
    whatever its size; a record whose last component is none of them
    gives its size, with or without the switch; a record of [self.tsk]
    always gives its size. The set of the stat side is the set of these
    pairs for the records of [self.stat] and nothing else, the set of
    the forensic side that of the pairs with the reported sizes for the
    records of [self.tsk]; both are built when every record has its
    twelve fields and a [str] for its path; and the test passes exactly
    when the two sets are built and are the same, and fails with
    [AssertionError] exactly when they are built and differ. *)
Theorem test_metadata_size_override self :
  (∀ line path size,
     line !! 0%nat = Some (VStr path) → line !! 11%nat = Some size →
     (fix_size self = true → pseudo_entry path = true →
        size_pair_stat self line = Ok (VStr path, VInt 0)
        ∧ stat_size self (VStr path) size = VInt 0)
     ∧ (pseudo_entry path = false →
          size_pair_stat self line = Ok (VStr path, size)
          ∧ stat_size self (VStr path) size = size)
     ∧ size_pair_tsk line = Ok (VStr path, size))
  ∧ (∀ sizes, stat_sizes self = Ok sizes →
       ∀ pair, pair ∈ sizes ↔
         ∃ line name size,
           line ∈ stat self ∧ line !! 0%nat = Some name
           ∧ line !! 11%nat = Some size
           ∧ pair = (name, stat_size self name size))
  ∧ (∀ sizes, tsk_sizes self = Ok sizes →
       ∀ pair, pair ∈ sizes ↔
         ∃ line name size,
           line ∈ tsk self ∧ line !! 0%nat = Some name
           ∧ line !! 11%nat = Some size
           ∧ pair = (name, size))
  ∧ ((∀ line, line ∈ stat self →
        ∃ path size, line !! 0%nat = Some (VStr path) ∧ line !! 11%nat = Some size) →
     ∃ sizes, stat_sizes self = Ok sizes)
  ∧ ((∀ line, line ∈ tsk self →
        ∃ name size, line !! 0%nat = Some name ∧ line !! 11%nat = Some size) →
     ∃ sizes, tsk_sizes self = Ok sizes)
  ∧ (test_metadata_size self = Ok ()
     ↔ ∃ sizes, tsk_sizes self = Ok sizes ∧ stat_sizes self = Ok sizes)
  ∧ (test_metadata_size self = Raise AssertionError
     ↔ ∃ tsk_set stat_set,
         tsk_sizes self = Ok tsk_set ∧ stat_sizes self = Ok stat_set
         ∧ stat_set ≠ tsk_set).
Proof.
  split; [|split; [|split; [|split; [|split; [|split]]]]].
  - intros line path size Hpath Hsize.
    pose proof (size_pair_stat_eq self line path size Hpath Hsize) as Hstat.
    split; [|split].
    + intros Hfix Hpseudo. unfold stat_size.
      by rewrite Hfix, Hpseudo in Hstat |- *.
    + intros Hpseudo. unfold stat_size.
      by rewrite Hpseudo, andb_false_r in Hstat |- *.
    + unfold size_pair_tsk.
      by rewrite (index_Some _ _ _ Hpath), bind_Ok_l, (index_Some _ _ _ Hsize).
  - intros sizes Hsizes pair. rewrite (set_of_spec _ _ _ Hsizes).
    setoid_rewrite size_pair_stat_Ok. setoid_rewrite elem_of_elements. split.
    + intros (line & Hline & name & size & Hname & Hsize & _ & ->).
      by exists line, name, size.
    + intros (line & name & size & Hline & Hname & Hsize & ->).
      exists line. split; [done|]. exists name, size.
      split; [done|]. split; [done|]. split; [|done]. intros Hfix.
      apply set_of_Ok in Hsizes as (ks & Hks & _).
      apply elem_of_elements, list_elem_of_lookup in Hline as [i Hi].
      destruct (Forall2_lookup_l _ _ _ _ _ Hks Hi) as (pair & _ & Hpair).
      apply size_pair_stat_Ok in Hpair as (name' & _ & Hname' & _ & Hstr & _).
      rewrite Hname in Hname'. injection Hname' as <-. by apply Hstr.
  - intros sizes Hsizes pair. rewrite (set_of_spec _ _ _ Hsizes).
    setoid_rewrite size_pair_tsk_Ok. setoid_rewrite elem_of_elements. split.
    + intros (line & Hline & name & size & Hname & Hsize & ->).
      by exists line, name, size.
    + intros (line & name & size & Hline & Hname & Hsize & ->).
      exists line. split; [done|]. by exists name, size.
  - intros Hrecords. apply set_of_total. intros line Hline%elem_of_elements.
    destruct (Hrecords line Hline) as (path & size & Hpath & Hsize).
    eexists. by apply size_pair_stat_eq.
  - intros Hrecords. apply set_of_total. intros line Hline%elem_of_elements.
    destruct (Hrecords line Hline) as (name & size & Hname & Hsize).
    eexists. apply size_pair_tsk_Ok. by exists name, size.
  - unfold test_metadata_size. split.
    + intros (t & Ht & (s & Hs & ->%assertEqual_Ok)%bind_Ok)%bind_Ok. by exists t.
    + intros (sizes & -> & ->). rewrite !bind_Ok_l. by apply assertEqual_Ok.
  - unfold test_metadata_size. split.
    + destruct (tsk_sizes self) as [t|e] eqn:Ht.
      2:{ intros [= ->]. apply set_of_Raise, mapM_Raise_inv in Ht
            as (line & _ & Hline%size_pair_tsk_Raise). done. }
      rewrite bind_Ok_l. destruct (stat_sizes self) as [s|e] eqn:Hs.
      2:{ intros [= ->]. apply set_of_Raise, mapM_Raise_inv in Hs
            as (line & _ & [Hline|Hline]%size_pair_stat_Raise); done. }
      rewrite bind_Ok_l. unfold assertEqual.
      destruct (decide (s = t)); [done|]. intros _. by exists t, s.
    + intros (t & s & -> & -> & Hne). rewrite !bind_Ok_l. unfold assertEqual.
      by rewrite decide_False.
Qed.
End Tests.

(** ** A file right under the directory [relpath] starts from *)

Lemma split_app_sep sep a t :
  split sep (a ++ sep :: t) = split sep a ++ split sep t.
Proof.
  induction a as [|c a IH]; simpl.
  - by rewrite N.eqb_refl.
  - destruct (c =? sep)%N; [by rewrite IH|]. rewrite IH.
    pose proof (split_nonnil sep a). by destruct (split sep a).
Qed.

Lemma split_sep_free sep a : sep ∉ a → split sep a = [a].
Proof.
  induction a as [|c a IH]; [done|]. intros [Hc Ha]%not_elem_of_cons. simpl.
  rewrite (proj2 (N.eqb_neq c sep)) by done. by rewrite IH.
Qed.

Lemma split_elem_sep_free sep s : Forall (λ x, sep ∉ x) (split sep s).
Proof.
  induction s as [|c s IH]; simpl.
  - constructor; [apply not_elem_of_nil | constructor].
  - destruct (c =? sep)%N eqn:Hc.
    + constructor; [apply not_elem_of_nil | done].
    + apply N.eqb_neq in Hc. destruct (split sep s) as [|f fs].
      * constructor; [|done]. apply not_elem_of_cons. split; [done | apply not_elem_of_nil].
      * inversion IH; subst. constructor; [|done].
        apply not_elem_of_cons. split; [congruence | done].
Qed.

Lemma split_sep_join sep l :
  l ≠ [] → Forall (λ x, sep ∉ x) l → split sep (sep_join sep l) = l.
Proof.
  intros Hne Hl. induction Hl as [|p ps Hp Hps IH]; [done|].
  destruct ps as [|p' ps]; [by apply split_sep_free|].
  rewrite sep_join_cons, split_app_sep, split_sep_free, IH by done. done.
Qed.

Lemma split_replicate_sep sep k s :
  split sep (replicate k sep ++ s) = replicate k [] ++ split sep s.
Proof. induction k as [|k IH]; simpl; [done|]. by rewrite N.eqb_refl, IH. Qed.

Lemma filter_Forall_id {A} (P : A → Prop) `{∀ x, Decision (P x)} l :
  Forall P l → filter P l = l.
Proof.
  induction 1 as [|x l Hx _ IH]; [done|]. by rewrite filter_cons_True, IH.
Qed.

Lemma filter_Forall_nil {A} (P : A → Prop) `{∀ x, Decision (P x)} l :
  Forall (λ x, ¬ P x) l → filter P l = [].
Proof.
  induction 1 as [|x l Hx _ IH]; [done|]. by rewrite filter_cons_False.
Qed.

Section Relpath.
Import posixpath.

Lemma normpath_comps_abs k acc comps :
  foldl (normpath_step k) acc comps
  = foldl (normpath_step (if bool_decide (k = 0%nat) then 0 else 1)) acc comps.
Proof.
  revert acc. induction comps as [|c comps IH]; intros acc; simpl; [done|].
  rewrite IH. f_equal. unfold normpath_step. by destruct k.
Qed.

Lemma normpath_step_plain k acc c : plain c → normpath_step k acc c = acc ++ [c].
Proof.
  intros (Hne & _ & Hcur & Hpar). unfold normpath_step.
  rewrite bool_decide_eq_false_2 by tauto.
  by rewrite (bool_decide_eq_true_2 (c ≠ pardir)) by done.
Qed.

Lemma normpath_comps_wf k comps acc :
  Forall (λ x, sep ∉ x) comps →
  Forall (λ x, x ≠ [] ∧ sep ∉ x) acc →
  Forall (λ x, x ≠ [] ∧ sep ∉ x) (foldl (normpath_step k) acc comps).
Proof.
  intros Hcomps. revert acc.
  induction Hcomps as [|c comps Hc _ IH]; intros acc Hacc; simpl; [done|].
  apply IH. unfold normpath_step. case_bool_decide as Hskip; [done|].
  destruct (_ || _).
  - apply Forall_app. split; [done|]. constructor; [|done]. tauto.
  - apply Forall_forall. intros x Hx%elem_of_removelast.
    by eapply Forall_forall in Hacc.
Qed.

Lemma sep_join_nonnil l :
  l ≠ [] → Forall (λ x, x ≠ [] ∧ sep ∉ x) l → sep_join sep l ≠ [].
Proof.
  intros Hne Hl. destruct Hl as [|p ps [Hp _] _]; [done|].
  destruct ps; simpl; [done|]. by destruct p.
Qed.

(** The components of a normalised path are the ones the loop of
    [normpath] kept, when it kept any. *)
Lemma components_normpath path :
  path ≠ [] →
  foldl (normpath_step (if isabs path then 1 else 0)) [] (split sep path) ≠ [] →
  components (normpath path)
  = foldl (normpath_step (if isabs path then 1 else 0)) [] (split sep path).
Proof.
  intros Hpath. unfold normpath, isabs.
  rewrite bool_decide_eq_false_2 by done. cbv zeta.
  rewrite (normpath_comps_abs (initial_slashes path)).
  replace (if bool_decide (initial_slashes path = 0%nat) then 0%nat else 1%nat)
    with (if startswith [sep] path then 1%nat else 0%nat)
    by (unfold initial_slashes; destruct (startswith [sep] path);
        [by destruct (_ && _) | done]).
  set (comps := foldl _ [] _). intros Hne.
  assert (Forall (λ x, x ≠ [] ∧ sep ∉ x) comps) as Hwf.
  { apply normpath_comps_wf; [apply split_elem_sep_free | done]. }
  rewrite bool_decide_eq_false_2.
  - unfold components.
    rewrite split_replicate_sep, split_sep_join, filter_app; [|done|].
    + rewrite filter_Forall_nil, filter_Forall_id; [done| |].
      * eapply Forall_impl; [exact Hwf|]. by intros x [? _].
      * apply Forall_forall. intros x ->%elem_of_replicate_inv Hx. by apply Hx.
    + eapply Forall_impl; [exact Hwf|]. by intros x [_ ?].
  - intros [_ Hj]%app_eq_nil. by apply sep_join_nonnil in Hj.
Qed.

Lemma plain_not_abs x : plain x → startswith [sep] x = false.
Proof.
  intros (Hne & Hsep & _). destruct x as [|c x]; [done|]. cbn [startswith].
  apply not_elem_of_cons in Hsep as [Hc _].
  by rewrite (proj2 (N.eqb_neq sep c)).
Qed.

Lemma plain_not_endswith_sep x : plain x → endswith_sep x = false.
Proof.
  intros (Hne & Hsep & _). unfold endswith_sep.
  destruct (last x) as [c|] eqn:Hlast; [|done].
  apply N.eqb_neq. intros ->. apply Hsep, list_elem_of_lookup.
  rewrite last_lookup in Hlast. eauto.
Qed.

Lemma join_plain d f : plain d → plain f → join d [f] = d ++ sep :: f.
Proof.
  intros Hd Hf. unfold join. cbn [foldl].
  rewrite (plain_not_abs f Hf), (plain_not_endswith_sep d Hd).
  destruct Hd as [Hd _]. by rewrite bool_decide_eq_false_2.
Qed.

(** [join(cwd, y)] puts before a relative [y] nothing, or something
    that ends with a separator; the components before those of [y] and
    whether the result is absolute do not depend on [y]. *)
Lemma join_cwd cwd :
  ∃ (ab : bool) (before : list str), ∀ y,
    y ≠ [] → startswith [sep] y = false →
    join cwd [y] ≠ []
    ∧ isabs (join cwd [y]) = ab
    ∧ split sep (join cwd [y]) = before ++ split sep y.
Proof.
  destruct (bool_decide (cwd = []) || endswith_sep cwd) eqn:Hend.
  - apply orb_true_iff in Hend as [->%bool_decide_eq_true|Hlast].
    + exists false, []. intros y Hne Hy. unfold join, isabs. cbn [foldl].
      by rewrite Hy.
    + unfold endswith_sep in Hlast.
      destruct (exists_last (l:=cwd)) as (c & z & ->); [by intros ->|].
      rewrite last_snoc in Hlast. apply N.eqb_eq in Hlast as ->.
      exists (startswith [sep] (c ++ [sep])), (split sep c).
      intros y Hne Hy. unfold join, isabs. cbn [foldl].
      rewrite Hy. unfold endswith_sep. rewrite last_snoc, N.eqb_refl, orb_true_r.
      rewrite <-app_assoc. simpl. split; [by destruct c|].
      split; [by destruct c | apply split_app_sep].
  - apply orb_false_elim in Hend as [Hnil%bool_decide_eq_false Hlast].
    exists (startswith [sep] cwd), (split sep cwd).
    intros y Hne Hy. unfold join, isabs. cbn [foldl].
    rewrite Hy, Hlast, bool_decide_eq_false_2 by done. simpl.
    split; [by destruct cwd|]. split; [by destruct cwd | apply split_app_sep].
Qed.

Lemma commonprefix_app_r (l t : list str) : commonprefix l (l ++ t) = l.
Proof.
  induction l as [|x l IH]; simpl; [done|].
  unfold str_eqb. by rewrite bool_decide_eq_true_2, IH.
Qed.

Lemma normpath_comps_plain k acc comps :
  Forall plain comps → foldl (normpath_step k) acc comps = acc ++ comps.
Proof.
  intros Hcomps. revert acc.
  induction Hcomps as [|c comps Hc _ IH]; intros acc; cbn [foldl].
  - by rewrite app_nil_r.
  - by rewrite normpath_step_plain, IH, <-app_assoc.
Qed.

(** The components of [abspath(y)] for a relative [y] made of plain
    components: those the working directory gives, then those of [y]. *)
Lemma components_abspath cwd :
  ∃ under, ∀ y,
    y ≠ [] → startswith [sep] y = false →
    Forall plain (split sep y) →
    components (abspath cwd y) = under ++ split sep y.
Proof.
  destruct (join_cwd cwd) as (ab & before & Hjoin).
  exists (foldl (normpath_step (if ab then 1 else 0)) [] before).
  intros y Hne Hy Hplain. unfold abspath. unfold isabs at 1. rewrite Hy.
  cbv iota.
  destruct (Hjoin y Hne Hy) as (Hne' & Hab & Hsplit).
  assert (foldl (normpath_step (if isabs (join cwd [y]) then 1 else 0)) []
            (split sep (join cwd [y]))
          = foldl (normpath_step (if ab then 1 else 0)) [] before ++ split sep y)
    as Hcomps.
  { by rewrite Hab, Hsplit, foldl_app, normpath_comps_plain. }
  rewrite components_normpath; [exact Hcomps | exact Hne' |].
  rewrite Hcomps. intros [_ ?]%app_eq_nil. by eapply split_nonnil.
Qed.

(** [relpath] of a file that lies right under [start] is its name,
    whatever the working directory. *)
Lemma relpath_child cwd d f :
  plain d → plain f → relpath cwd (VStr (join d [f])) d = Ok f.
Proof.
  intros Hd Hf. rewrite (join_plain d f Hd Hf). unfold relpath.
  pose proof (plain_not_abs d Hd) as Hdabs.
  assert (d ≠ []) as Hdne by apply Hd.
  assert (startswith [sep] (d ++ sep :: f) = false) as Hpabs.
  { destruct d as [|c d]; done. }
  rewrite bool_decide_eq_false_2 by (by destruct d).
  destruct (components_abspath cwd) as (under & Hunder).
  assert (split sep d = [d]) as Hsd by apply split_sep_free, Hd.
  assert (split sep (d ++ sep :: f) = [d; f]) as Hsp.
  { rewrite split_app_sep, Hsd, split_sep_free; [done | apply Hf]. }
  rewrite (Hunder d), (Hunder (d ++ sep :: f)), Hsd, Hsp.
  - cbv zeta. change [d; f] with ([d] ++ [f]). rewrite (app_assoc under).
    by rewrite commonprefix_app_r, Nat.sub_diag, drop_app_length.
  - by destruct d.
  - done.
  - rewrite Hsp. repeat first [apply Forall_nil_2 | apply Forall_cons_2; [done|]].
  - done.
  - done.
  - rewrite Hsd. repeat first [apply Forall_nil_2 | apply Forall_cons_2; [done|]].
Qed.
End Relpath.

(** ** [test_filedata] *)

Section Filedata.
Context `{Interpreter}.
Import TestBtrfs.

Lemma universal_newlines_line l text :
  0x0D%N ∉ l →
  universal_newlines (l ++ 0x0A%N :: text) = l ++ 0x0A%N :: universal_newlines text.
Proof.
  induction l as [|c l IH]; [done|]. intros [Hc Hl]%not_elem_of_cons.
  cbn [app universal_newlines]. rewrite (proj2 (N.eqb_neq c 0x0D%N)) by done.
  by rewrite IH.
Qed.

Lemma keepends_line l text :
  0x0A%N ∉ l → keepends (l ++ 0x0A%N :: text) = (l ++ [0x0A%N]) :: keepends text.
Proof.
  induction l as [|c l IH]; [done|]. intros [Hc Hl]%not_elem_of_cons.
  cbn [app keepends]. rewrite (proj2 (N.eqb_neq c 0x0A%N)) by done.
  by rewrite IH.
Qed.

Lemma readlines_line l text :
  0x0A%N ∉ l → 0x0D%N ∉ l →
  readlines (l ++ 0x0A%N :: text) = (l ++ [0x0A%N]) :: readlines text.
Proof.
  intros Hlf Hcr. unfold readlines.
  by rewrite universal_newlines_line, keepends_line.
Qed.

(** After the lines of the files the manifest ends, or goes on with a
    line that begins with ['-']: the loop stops there. *)
Lemma manifest_loop_end tail stat :
  tail = [] ∨ startswith (u "-") tail = true →
  manifest_loop (readlines tail) stat = Ok stat.
Proof.
  intros [->|Htail]; [done|].
  destruct tail as [|c tail]; [done|].
  change (u "-") with [ch "-"] in Htail. cbn [startswith] in Htail.
  apply andb_true_iff in Htail as [<-%N.eqb_eq _].
  unfold readlines. cbn [universal_newlines].
  change (ch "-" =? 0x0D)%N with false. cbv iota.
  cbn [keepends]. change (ch "-" =? 0x0A)%N with false. cbv iota.
  by destruct (keepends (universal_newlines tail)).
Qed.

(** C6, amended: a manifest whose only line before the ['-'] line is the
    hash, one space and [empty_file], and a recovered tree whose only
    file is [empty_file] with that hash, pass [test_filedata]. *)
Theorem test_filedata_manifest_round_trip self cwd tail dirs md5sum :
  rec_dir self = u ".files" →
  md5sum (u ".files/empty_file") = Ok (u "d41d8cd98f00b204e9800998ecf8427e") →
  tail = [] ∨ startswith (u "-") tail = true →
  test_filedata self cwd
    (u "d41d8cd98f00b204e9800998ecf8427e empty_file" ++ 0x0A%N :: tail)
    [(u ".files", dirs, [u "empty_file"])] md5sum
  = Ok ().
Proof.
  intros Hrec Hmd5 Htail. unfold test_filedata.
  rewrite readlines_line by by_compute.
  set (line := u "d41d8cd98f00b204e9800998ecf8427e empty_file" ++ [0x0A%N]).
  cbn [manifest_loop].
  replace (index line 0) with (Ok (ch "d")) by (by vm_compute).
  rewrite bind_Ok_l. change (ch "d" =? ch "-")%N with false. cbv iota zeta.
  replace (split (ch " ") (slice line 0 (-1)))
    with [u "d41d8cd98f00b204e9800998ecf8427e"; u "empty_file"]
    by (by vm_compute).
  replace (index [u "d41d8cd98f00b204e9800998ecf8427e"; u "empty_file"] 0)
    with (Ok (u "d41d8cd98f00b204e9800998ecf8427e")) by done.
  rewrite bind_Ok_l, manifest_loop_end, bind_Ok_l by done.
  replace (sep_join (ch " ")
             (slice_from [u "d41d8cd98f00b204e9800998ecf8427e"; u "empty_file"] 1))
    with (u "empty_file") by (by vm_compute).
  assert (recovered_file self cwd md5sum (u ".files") (u "empty_file")
          = Ok (Some (u "empty_file", u "d41d8cd98f00b204e9800998ecf8427e")))
    as Hfile.
  { unfold recovered_file.
    replace (index (u "empty_file") 0) with (Ok (ch "e")) by (by vm_compute).
    rewrite bind_Ok_l. change (ch "e" =? ch "$")%N with false. cbv iota zeta.
    replace (contains (u "snapshot") (posixpath.join (u ".files") [u "empty_file"]))
      with false by (by vm_compute).
    replace (contains (u "ext2_saved") (posixpath.join (u ".files") [u "empty_file"]))
      with false by (by vm_compute).
    rewrite andb_false_r, andb_false_r. simpl andb. cbv iota.
    replace (md5sum (posixpath.join (u ".files") [u "empty_file"]))
      with (md5sum (u ".files/empty_file")) by (f_equal; by vm_compute).
    rewrite Hmd5, bind_Ok_l, Hrec.
    rewrite relpath_child; [done | unfold plain; by_compute..]. }
  cbn [mapM]. rewrite Hfile. cbn.
  unfold assertEqual. by rewrite decide_True.
Qed.
End Filedata.

(** ** The statements at concrete inputs *)

Section Runs.
Import TextParser TestBtrfs Examples.
#[local] Existing Instance Ascii_interpreter.interp.

(** C1 on a listing with [$OrphanFiles] between a file and a link. *)
Lemma parse_fls_files_skips_metadata_entries_run :
  parse_fls_files parser fls_listing = Ok [(u "file", 257); (u "link", 258)]
  ∧ startswith (u "$") (u "file") = false
  ∧ fls_loop parser [u fls_file; u fls_link] []
    = Ok [(u "file", 257); (u "link", 258)].
Proof.
  assert (parse_fls_files parser fls_listing
          = Ok [(u "file", 257); (u "link", 258)]) as Hparse
    by (vm_compute; reflexivity).
  destruct (parse_fls_files_skips_metadata_entries _ _ _ Hparse) as [Hpaths Hskip].
  split; [exact Hparse|]. split.
  - apply (Hpaths _ 257). apply list_elem_of_here.
  - apply (Hskip fls_text [u fls_file] (u fls_orphans) [u fls_link]
             (u "/$OrphanFiles")); vm_compute; reflexivity.
Defined.

(** C7 on a line whose third field is [25x]. *)
Lemma parse_fls_files_bad_inode_raises_run :
  fls_line parser (u fls_bad_inode) = Raise ValueError
  ∧ parse_fls_files parser (b fls_bad_inode) = Raise ValueError
  ∧ is_raise (retrieve_tsk (test "file" 10) (b fls_bad_inode) ils_listing).
Proof.
  pose proof (parse_fls_files_bad_inode_raises parser (b fls_bad_inode)
                (u fls_bad_inode) (u fls_bad_inode) (u "/file") (u "25x")) as Hraises.
  destruct Hraises as (_ & _ & Hsetup).
  - vm_compute; reflexivity.
  - by_compute.
  - vm_compute; reflexivity.
  - by_compute.
  - vm_compute; reflexivity.
  - vm_compute; reflexivity.
  - vm_compute; reflexivity.
  - split; [vm_compute; reflexivity|]. split; [vm_compute; reflexivity|].
    by apply Hsetup.
Defined.

(** C10 on a link line without [" -> "]: [/link] comes back as [lin]. *)
Lemma parse_fls_files_symlink_without_arrow_run :
  ∃ first path last inode,
    u "/link" = first :: path ++ [last] ∧ (path, inode) ∈ [(u "lin", 258)].
Proof.
  apply (parse_fls_files_symlink_without_arrow parser (b fls_bare_link)
           (u fls_bare_link) [(u "lin", 258)] (u fls_bare_link) (u "/link")
           (u "l/lrwxrwxrwx")).
  - vm_compute; reflexivity.
  - vm_compute; reflexivity.
  - by_compute.
  - vm_compute; reflexivity.
  - vm_compute; reflexivity.
  - vm_compute; reflexivity.
  - vm_compute; reflexivity.
  - by_compute.
  - vm_compute; reflexivity.
Defined.

(** C9 on two lines for inode 257: the size of the second is kept. *)
Lemma parse_ils_last_write_wins_run :
  parse_ils ils_listing = Ok {[ VInt 257 := ils_attrs 99 ]}
  ∧ ({[ VInt 257 := ils_attrs 99 ]} : gmap value (list value)) !! VInt 257
    = Some (ils_attrs 99).
Proof.
  assert (parse_ils ils_listing = Ok {[ VInt 257 := ils_attrs 99 ]}) as Hparse
    by (vm_compute; reflexivity).
  split; [exact Hparse|].
  apply (parse_ils_last_write_wins ils_listing ils_text _
           [u ils_header] (u ils_first) [] (u ils_second) []
           (VInt 257) (ils_attrs 10) (ils_attrs 99)).
  - vm_compute; reflexivity.
  - exact Hparse.
  - vm_compute; reflexivity.
  - vm_compute; reflexivity.
  - vm_compute; reflexivity.
  - intros raw attrs Hraw. by apply elem_of_nil in Hraw.
Defined.

(** C2, as stated, on a relative name listed from [/snapshot/subvolume]. *)
Lemma parse_stat_relative_name_counterexample :
  parse_stat parser (u "/snapshot/subvolume") (b stat_relative)
    (Some (u "/mnt/loop"))
  = Ok [VStr (u "../../snapshot/subvolume/x") :: stat_attrs]
  ∧ contains (u "snapshot") (u "../../snapshot/subvolume/x")
    && contains (u "subvolume") (u "../../snapshot/subvolume/x") = true.
Proof. split; vm_compute; reflexivity. Qed.

(** C2, amended, on an absolute name under the mount path. *)
Lemma parse_stat_excludes_snapshot_duplicates_run :
  parse_stat parser (u "/root") (b stat_file) (Some (u "/mnt/loop"))
  = Ok [VStr (u "file") :: stat_attrs]
  ∧ contains (u "snapshot") (u "file") && contains (u "subvolume") (u "file")
    = false.
Proof.
  assert (parse_stat parser (u "/root") (b stat_file) (Some (u "/mnt/loop"))
          = Ok [VStr (u "file") :: stat_attrs]) as Hparse
    by (vm_compute; reflexivity).
  split; [exact Hparse|].
  apply (parse_stat_excludes_snapshot_duplicates parser (u "/root") (b stat_file)
           (Some (u "/mnt/loop")) (u stat_file)
           [VStr (u "file") :: stat_attrs] (VStr (u "file") :: stat_attrs)
           (u "file")).
  - reflexivity.
  - vm_compute; reflexivity.
  - right. left. split; vm_compute; reflexivity.
  - exact Hparse.
  - apply list_elem_of_here.
  - reflexivity.
Defined.

(** C8, as stated, on a listing that has the same line twice. *)
Lemma parsers_duplicate_lines_counterexample :
  parse_fls_files parser (b fls_file ++ nl ++ b fls_file)
  = Ok [(u "file", 257); (u "file", 257)]
  ∧ parse_stat parser (u "/root") (b stat_file ++ nl ++ b stat_file)
      (Some (u "/mnt/loop"))
    = Ok [VStr (u "file") :: stat_attrs; VStr (u "file") :: stat_attrs].
Proof. split; vm_compute; reflexivity. Qed.

(** C8, amended, on the same listing. *)
Lemma parsers_keep_duplicate_paths_run :
  ∃ f1 f2 f3,
    [(u "file", 257); (u "file", 257)]
    = f1 ++ (u "file", 257) :: f2 ++ (u "file", 257) :: f3.
Proof.
  apply (proj1 (parsers_keep_duplicate_paths parser (u "/root")
                  (b fls_file ++ nl ++ b fls_file) None
                  (u fls_file ++ [0x0A%N] ++ u fls_file)
                  [] (u fls_file) [] (u fls_file) []
                  ltac:(vm_compute; reflexivity) ltac:(vm_compute; reflexivity)));
    vm_compute; reflexivity.
Defined.

(** C4, as stated: the exception for inode 77 of [a/b] is
    [KeyError(77)], which prints as [77]. *)
Lemma retrieve_tsk_key_error_counterexample :
  retrieve_tsk (test "file" 10) (b fls_missing) ils_listing
  = Raise (KeyError (VInt 77))
  ∧ key_error_str 77 = u "77"
  ∧ contains (u "a/b") (key_error_str 77) = false.
Proof. repeat split; vm_compute; reflexivity. Qed.

(** C4, amended, on a listing with two such entries, [a/b] with inode
    77 before [c] with inode 78, and an [umount] that fails. *)
Lemma retrieve_tsk_missing_inode_run :
  ∃ pre path' inode' post,
    [(u "file", 257); (u "a/b", 77); (u "c", 78)] = pre ++ (path', inode') :: post
    ∧ Forall (λ entry : str * Z,
                is_Some (({[ VInt 257 := ils_attrs 99 ]} : gmap value (list value))
                           !! VInt entry.2)) pre
    ∧ ({[ VInt 257 := ils_attrs 99 ]} : gmap value (list value)) !! VInt inode'
      = None
    ∧ retrieve_tsk (test "file" 10) fls_two_missing ils_listing
      = Raise (KeyError (VInt inode'))
    ∧ setUpClassCustom_tsk (test "file" 10) fls_two_missing ils_listing 1
      = Raise (if bool_decide (1 = 0) then KeyError (VInt inode')
               else ImageCreationError).
Proof.
  apply (retrieve_tsk_missing_inode (test "file" 10) fls_two_missing ils_listing
           [(u "file", 257); (u "a/b", 77); (u "c", 78)]
           {[ VInt 257 := ils_attrs 99 ]} (u "c") 78 1).
  - vm_compute; reflexivity.
  - vm_compute; reflexivity.
  - do 2 apply list_elem_of_further. apply list_elem_of_here.
  - vm_compute; reflexivity.
Defined.

(** The same listing run through the set-up: the first of the two
    entries is the one the exception names, and a failing [umount]
    takes its place. *)
Lemma setUpClassCustom_tsk_run :
  retrieve_tsk (test "file" 10) fls_two_missing ils_listing
  = Raise (KeyError (VInt 77))
  ∧ setUpClassCustom_tsk (test "file" 10) fls_two_missing ils_listing 0
    = Raise (KeyError (VInt 77))
  ∧ setUpClassCustom_tsk (test "file" 10) fls_two_missing ils_listing 1
    = Raise ImageCreationError
  ∧ setUpClassCustom_tsk (test "file" 10) (b fls_file) ils_listing 1
    = Ok ({[ VStr (u "file") :: VInt 257 :: ils_attrs 99 ]} ∪ tsk (test "file" 10)).
Proof. repeat split; vm_compute; reflexivity. Qed.

(** C3, as stated: [istat] failed and wrote nothing. *)
Lemma test_metadata_inode_empty_output_counterexample :
  test_metadata_inode (test "file" 10) (λ _, []) = Raise IndexError.
Proof. vm_compute; reflexivity. Qed.

(** C3, amended, on the same run. *)
Lemma test_metadata_inode_parse_failure_run :
  ∃ e', test_metadata_inode (test "file" 10) (λ _, []) = Raise e'
    ∧ parse_exn e' ∧ e' ≠ AssertionError.
Proof.
  apply (test_metadata_inode_parse_failure (test "file" 10) (λ _, [])
           (record "file" 10) (VInt 257) IndexError).
  - by_compute.
  - reflexivity.
  - vm_compute; reflexivity.
Defined.

(** C5 on a subvolume of 4096 bytes and on a file of 10: the stat side
    gives the subvolume the size 0, the forensic side 4096, and the
    test of a class whose two sets hold this one record fails. *)
Lemma test_metadata_size_override_run :
  size_pair_stat (test "dir/subvolume1" 4096) (record "dir/subvolume1" 4096)
  = Ok (VStr (u "dir/subvolume1"), VInt 0)
  ∧ size_pair_stat (test "dir/subvolume1" 4096) (record "file" 10)
    = Ok (VStr (u "file"), VInt 10)
  ∧ size_pair_tsk (record "dir/subvolume1" 4096)
    = Ok (VStr (u "dir/subvolume1"), VInt 4096)
  ∧ test_metadata_size (test "dir/subvolume1" 4096) = Raise AssertionError.
Proof.
  pose proof (test_metadata_size_override (test "dir/subvolume1" 4096))
    as (Hpair & _ & _ & _ & _ & _ & Hfail).
  pose proof (Hpair (record "dir/subvolume1" 4096) (u "dir/subvolume1") (VInt 4096)
                eq_refl eq_refl) as (Hpseudo & _ & Htsk).
  pose proof (Hpair (record "file" 10) (u "file") (VInt 10) eq_refl eq_refl)
    as (_ & Hfile & _).
  split; [|split; [|split]].
  - apply Hpseudo; vm_compute; reflexivity.
  - apply Hfile; vm_compute; reflexivity.
  - exact Htsk.
  - apply Hfail.
    exists {[ (VStr (u "dir/subvolume1"), VInt 4096) ]},
           {[ (VStr (u "dir/subvolume1"), VInt 0) ]}.
    split; [vm_compute; reflexivity|]. split; [vm_compute; reflexivity|].
    intros Heq. assert ((VStr (u "dir/subvolume1"), VInt 0)
                        ∈ ({[ (VStr (u "dir/subvolume1"), VInt 4096) ]}
                             : gset (value * value))) as Hin.
    { rewrite <-Heq. by apply elem_of_singleton. }
    by apply elem_of_singleton in Hin.
Defined.

(** C6, as stated: with two spaces the manifest names [" empty_file"]. *)
Lemma test_filedata_two_spaces_counterexample :
  manifest_loop (readlines manifest_two_spaces) ∅
  = Ok {[ (u " empty_file", u empty_md5) ]}
  ∧ test_filedata (test "file" 10) (u "/root") manifest_two_spaces recovered md5sum
    = Raise AssertionError.
Proof. split; vm_compute; reflexivity. Qed.

(** C6, amended: with one space the test passes. *)
Lemma test_filedata_manifest_round_trip_run :
  test_filedata (test "file" 10) (u "/root") manifest_one_space recovered md5sum
  = Ok ().
Proof.
  apply (test_filedata_manifest_round_trip (test "file" 10) (u "/root")
           image_hashes [] md5sum).
  - reflexivity.
  - reflexivity.
  - right. vm_compute; reflexivity.
Defined.
End Runs.
(** * Further properties of the code *)

(** ** [parse_fls_files]: filters, paths and errors *)

Lemma contains_slice {sub : str} (s : str) lo hi :
  contains sub (slice s lo hi) = true → contains sub s = true.
Proof.
  unfold slice. intros (a & t & Heq)%contains_spec. apply contains_spec.
  set (m := Z.to_nat _) in Heq. set (n := Z.to_nat _) in Heq.
  exists (take n s ++ a), (t ++ drop m (drop n s)).
  rewrite <-(take_drop n s) at 1. rewrite <-(take_drop m (drop n s)) at 1.
  rewrite Heq. by rewrite <-!(assoc_L (++)).
Qed.

Lemma contains_slice_from {sub : str} (s : str) lo :
  contains sub (slice_from s lo) = true → contains sub s = true.
Proof. apply contains_slice. Qed.

(** A text that has no more of the searched words than another one is
    excluded only if the other one is. *)
Lemma excluded_substring self (s t : str) :
  (∀ sub, contains sub s = true → contains sub t = true) →
  excluded self t = false → excluded self s = false.
Proof.
  intros Hsub Ht. destruct (excluded self s) eqn:Hs; [|done].
  rewrite <-Ht. unfold excluded in *.
  apply orb_true_iff in Hs as [[[-> H1]%andb_true_iff H2]%andb_true_iff
                              |[-> H3]%andb_true_iff].
  - by rewrite (Hsub _ H1), (Hsub _ H2).
  - by rewrite (Hsub _ H3), orb_true_r.
Qed.

(** The first occurrence of [sub]: where [find] points. *)
Lemma find_from_first sub s i :
  contains sub s = true →
  ∃ pre post, s = pre ++ sub ++ post
    ∧ find_from sub s i = i + Z.of_nat (length pre)
    ∧ ∀ pre' post', s = pre' ++ sub ++ post' → (length pre ≤ length pre')%nat.
Proof.
  revert i. induction s as [|c s IH]; intros i Hc.
  - cbn [contains] in Hc. rewrite orb_false_r in Hc.
    apply startswith_spec in Hc as [t Ht]. exists [], t.
    split; [done|]. split; [|simpl; lia].
    destruct sub; [simpl; lia|done].
  - cbn [contains find_from] in *.
    destruct (startswith sub (c :: s)) eqn:Hs.
    + apply startswith_spec in Hs as [t Ht]. exists [], t.
      split; [done|]. split; simpl; lia.
    + simpl in Hc. destruct (IH (i + 1) Hc) as (pre & post & -> & Hf & Hmin).
      exists (c :: pre), post. split; [done|]. split.
      * rewrite Hf. simpl length. lia.
      * intros [|c' pre'] post' Heq.
        { simpl in Heq. assert (startswith sub (c :: pre ++ sub ++ post) = true)
            as Hs' by (apply startswith_spec; eauto). congruence. }
        injection Heq as <- Heq. apply Hmin in Heq. simpl. lia.
Qed.

Lemma slice_1_prefix {A} (pre rest : list A) :
  (2 ≤ length (pre ++ rest))%nat →
  slice (pre ++ rest) 1 (Z.of_nat (length pre)) = drop 1 pre.
Proof.
  intros Hlen. unfold slice, adjust_index.
  replace (1 <? 0) with false by done.
  replace (Z.of_nat (length pre) <? 0) with false
    by (symmetry; apply Z.ltb_ge; lia).
  rewrite length_app in *.
  rewrite !Z.min_l by lia. destruct pre as [|c pre]; [done|].
  change (Z.to_nat 1) with 1%nat. simpl drop. rewrite drop_0.
  replace (Z.to_nat _) with (length pre) by (simpl; lia).
  by rewrite take_app_length.
Qed.

Section Fls_entries.
Context `{Interpreter}.
Import TextParser.

(** A line that passes the filters is not passed over. *)
Lemma fls_line_kept self raw name r :
  split (ch "|") raw !! 1%nat = Some name →
  name !! 1%nat ≠ Some (ch "$") →
  excluded self name = false →
  fls_line self raw = Ok r →
  ∃ path inode, r = Some (path, inode).
Proof.
  intros Hname Hc Hex. unfold fls_line.
  rewrite bool_decide_eq_true_2 by (apply lookup_lt_Some in Hname; lia).
  rewrite (index_Some _ _ _ Hname), bind_Ok_l.
  case_index name 1%nat; [|done].
  destruct (_ =? ch "$")%N eqn:Hd.
  { apply N.eqb_eq in Hd as ->. done. }
  unfold excluded in Hex. apply orb_false_elim in Hex as [Hf He].
  rewrite count_pos_contains, Hf, He by done.
  case_index (split (ch "|") raw) 3%nat; [|done].
  match goal with |- context [index ?kind 0] => case_index kind 0%nat end;
    [|done].
  cbv zeta.
  case_index (split (ch "|") raw) 2%nat; [|done].
  destruct (int _); simpl; [|done]. intros [= <-]. eauto.
Qed.

(** X1: the filters of [parse_fls_files] hold of the returned paths, not
    only of the names they are cut from. *)
Theorem parse_fls_files_respects_filters self data files path inode :
  parse_fls_files self data = Ok files →
  (path, inode) ∈ files →
  excluded self path = false.
Proof.
  intros Hparse Hin.
  destruct (parse_fls_files_entry _ _ _ _ Hparse Hin) as (text & raw & _ & _ & Hline).
  apply fls_line_Some in Hline
    as (name & c & kind & k & field & _ & _ & _ & Hex & _ & _ & -> & _).
  revert Hex. apply excluded_substring. intros sub.
  destruct (k =? ch "l")%N; [apply contains_slice | apply contains_slice_from].
Qed.

(** X2: the path of an entry. For a line that is kept the path is the
    name without its first character; for a symbolic link (type ['l'])
    whose name has [" -> "] it ends before the first [" -> "], so the
    target is dropped. *)
Theorem parse_fls_files_path_of_entry self data text files raw name kind k :
  decode (Byte.to_N <$> data) = Ok text →
  parse_fls_files self data = Ok files →
  raw ∈ splitlines text →
  split (ch "|") raw !! 1%nat = Some name →
  name !! 1%nat ≠ Some (ch "$") →
  excluded self name = false →
  split (ch "|") raw !! 3%nat = Some kind →
  kind !! 0%nat = Some k →
  ∃ field inode,
    split (ch "|") raw !! 2%nat = Some field
    ∧ int_of_str field = Some inode
    ∧ (k ≠ ch "l" → (drop 1 name, inode) ∈ files)
    ∧ (k = ch "l" → contains (u " -> ") name = true →
         ∃ pre target,
           name = pre ++ u " -> " ++ target
           ∧ (∀ pre' target',
                name = pre' ++ u " -> " ++ target' → (length pre ≤ length pre')%nat)
           ∧ contains (u " -> ") (drop 1 pre) = false
           ∧ (drop 1 pre, inode) ∈ files).
Proof.
  intros Htext Hparse Hraw Hname Hc Hex Hkind Hk.
  destruct (parse_fls_files_line _ _ _ _ _ Htext Hparse Hraw) as (r & Hline & Hin).
  destruct (fls_line_kept _ _ _ _ Hname Hc Hex Hline) as (path & inode & ->).
  specialize (Hin _ eq_refl).
  apply fls_line_Some in Hline
    as (name' & c & kind' & k' & field & Hname' & Hc' & _ & _ & Hkind' & Hk'
        & Hpath & Hfield & Hint).
  rewrite Hname in Hname'. injection Hname' as <-.
  rewrite Hkind in Hkind'. injection Hkind' as <-.
  rewrite Hk in Hk'. injection Hk' as <-.
  exists field, inode. split; [done|]. split; [done|]. split.
  - intros Hnl. apply N.eqb_neq in Hnl. rewrite Hnl in Hpath.
    by rewrite slice_from_1 in Hpath; subst path.
  - intros -> Harrow. rewrite N.eqb_refl in Hpath.
    destruct (find_from_first _ _ 0 Harrow) as (pre & target & Heq & Hfind & Hmin).
    exists pre, target. split; [done|]. split; [done|].
    assert (path = drop 1 pre) as ->.
    { subst path. unfold find. rewrite Hfind, Z.add_0_l.
      rewrite Heq at 1. apply slice_1_prefix. rewrite <-Heq.
      apply lookup_lt_Some in Hc'. lia. }
    split; [|done].
    destruct (contains _ (drop 1 pre)) eqn:Hd; [|done]. exfalso.
    apply contains_spec in Hd as (a & t & Hd).
    assert (name = (take 1 pre ++ a) ++ u " -> " ++ (t ++ u " -> " ++ target)) as Heq'.
    { rewrite Heq at 1. rewrite <-(take_drop 1 pre) at 1. rewrite Hd.
      by rewrite <-!(assoc_L (++)). }
    apply Hmin in Heq'. rewrite length_app in Heq'.
    assert (length pre = length (take 1 pre) + length (drop 1 pre))%nat as Hl
      by (by rewrite <-length_app, take_drop).
    rewrite Hd, !length_app in Hl. change (length (u " -> ")) with 4%nat in Hl. lia.
Qed.

(** Lines a loop passes over without a change of its variables can be
    left out. *)
Lemma for_each_filter {A S} (body : S → A → result S) (P : A → Prop)
    `{∀ x, Decision (P x)} l s :
  (∀ s x, ¬ P x → body s x = Ok s) →
  for_each body l s = for_each body (filter P l) s.
Proof.
  intros Hskip. revert s. induction l as [|x l IH]; intros s; [done|].
  rewrite filter_cons. destruct (decide (P x)) as [Hx|Hx]; simpl.
  - destruct (body s x); simpl; [apply IH | done].
  - rewrite (Hskip _ _ Hx). simpl. apply IH.
Qed.

(** X3: a line with no ['|'] (a blank line, a message of the tool) is
    passed over without an error, whatever else it holds: the outcome of
    [parse_fls_files], result or exception, is that of the loop over the
    lines that have a ['|']. *)
Theorem parse_fls_files_ignores_unseparated_lines self data text :
  decode (Byte.to_N <$> data) = Ok text →
  parse_fls_files self data
  = fls_loop self (filter (λ raw, ch "|" ∈ raw) (splitlines text)) [].
Proof.
  intros Htext. unfold parse_fls_files. rewrite Htext, bind_Ok_l.
  unfold fls_loop. apply for_each_filter. intros files raw Hraw.
  unfold fls_line. rewrite (split_sep_free _ _ Hraw).
  by rewrite bool_decide_eq_false_2 by (simpl; lia).
Qed.

Lemma fls_line_Raise self raw e :
  fls_line self raw = Raise e → e = IndexError ∨ e = ValueError.
Proof.
  unfold fls_line. case_bool_decide; [|done].
  case_index (split (ch "|") raw) 1%nat; [|intros [= <-]; auto].
  match goal with |- context [index ?name 1] => case_index name 1%nat end;
    [|intros [= <-]; auto].
  destruct (_ =? ch "$")%N; [done|].
  destruct (_ && _ && _); [done|]. destruct (_ && _); [done|].
  case_index (split (ch "|") raw) 3%nat; [|intros [= <-]; auto].
  match goal with |- context [index ?kind 0] => case_index kind 0%nat end;
    [|intros [= <-]; auto].
  cbv zeta.
  case_index (split (ch "|") raw) 2%nat; [|intros [= <-]; auto].
  unfold int. destruct (int_of_str _); simpl; [done|]. intros [= <-]; auto.
Qed.

(** X4: the exceptions of [parse_fls_files]. It raises nothing but
    [UnicodeDecodeError], [IndexError] and [ValueError]; and a line with
    a ['|'] whose name (second field) has fewer than two characters is
    not passed over: it makes the parser raise. *)
Theorem parse_fls_files_exceptions self data :
  (∀ e, parse_fls_files self data = Raise e →
     e = UnicodeDecodeError ∨ e = IndexError ∨ e = ValueError)
  ∧ (∀ text raw name,
       decode (Byte.to_N <$> data) = Ok text →
       raw ∈ splitlines text →
       split (ch "|") raw !! 1%nat = Some name →
       (length name < 2)%nat →
       fls_line self raw = Raise IndexError
       ∧ is_raise (parse_fls_files self data)).
Proof.
  split.
  - intros e. unfold parse_fls_files, decode.
    destruct (utf8_decode _) as [text|]; simpl; [|intros [= <-]; auto].
    rewrite fls_loop_spec. destruct (mapM _ _) as [rs|e'] eqn:Hm; simpl; [done|].
    intros [= ->]. apply mapM_Raise_inv in Hm as (raw & _ & Hraw).
    apply fls_line_Raise in Hraw. tauto.
  - intros text raw name Htext Hraw Hname Hlen.
    assert (fls_line self raw = Raise IndexError) as Hline.
    { unfold fls_line.
      rewrite bool_decide_eq_true_2 by (apply lookup_lt_Some in Hname; lia).
      rewrite (index_Some _ _ _ Hname), bind_Ok_l.
      rewrite (index_None name 1); [done|]. apply lookup_ge_None. lia. }
    split; [done|]. eapply parse_fls_files_Raise; [done..|]. by eexists.
Qed.
End Fls_entries.

(** ** [parse_ils]: what the dictionary holds, and when it is not built *)

Section Ils_entries.
Context `{Interpreter}.
Import TextParser.

(** Every entry the loop leaves was there before or comes from a line. *)
Lemma ils_loop_sound lines inodes inodes' key attrs :
  ils_loop lines inodes = Ok inodes' →
  inodes' !! key = Some attrs →
  inodes !! key = Some attrs
  ∨ ∃ raw, raw ∈ lines ∧ ils_line raw = Ok (Some (key, attrs)).
Proof.
  unfold ils_loop. revert inodes.
  induction lines as [|raw lines IH]; intros inodes Hloop Hkey; simpl in Hloop.
  - injection Hloop as ->. by left.
  - destruct (ils_line raw) as [r|] eqn:Hline; [|done].
    rewrite !bind_Ok_l in Hloop.
    destruct (IH _ Hloop Hkey) as [Hin|(raw' & Hraw' & Hline')].
    + destruct r as [[k a]|]; [|by left].
      destruct (decide (k = key)) as [->|Hne].
      * rewrite lookup_insert_eq in Hin. injection Hin as ->.
        right. exists raw. split; [apply list_elem_of_here | done].
      * rewrite lookup_insert_ne in Hin by done. by left.
    + right. exists raw'. split; [by apply list_elem_of_further | done].
Qed.

(** The key of a stored line stays in the dictionary. *)
Lemma ils_loop_complete lines inodes inodes' key :
  ils_loop lines inodes = Ok inodes' →
  is_Some (inodes !! key)
  ∨ (∃ raw attrs, raw ∈ lines ∧ ils_line raw = Ok (Some (key, attrs))) →
  is_Some (inodes' !! key).
Proof.
  unfold ils_loop. revert inodes.
  induction lines as [|raw lines IH]; intros inodes Hloop Hkey; simpl in Hloop.
  - injection Hloop as ->. destruct Hkey as [?|(? & ? & []%elem_of_nil & _)]; done.
  - destruct (ils_line raw) as [r|] eqn:Hline; [|done].
    rewrite !bind_Ok_l in Hloop. apply (IH _ Hloop).
    destruct Hkey as [Hin|(raw' & attrs & [->|Hraw']%elem_of_cons & Hline')].
    + left. destruct r as [[k a]|]; [|done].
      destruct (decide (k = key)) as [->|Hne].
      * by rewrite lookup_insert_eq.
      * by rewrite lookup_insert_ne.
    + left. rewrite Hline in Hline'. injection Hline' as ->.
      by rewrite lookup_insert_eq.
    + right. eauto.
Qed.

(** X5: the dictionary of [parse_ils]. Every entry comes from a line
    whose first field is made of digits and is not ["0"] and whose ninth
    field is there and is not ["0"]: the key is the first field and the
    value the fields after it (at least eight of them), each converted
    when [int] takes it. Every such line leaves its key in the
    dictionary. *)
Theorem parse_ils_entries data text inodes :
  decode (Byte.to_N <$> data) = Ok text →
  parse_ils data = Ok inodes →
  (∀ key attrs, inodes !! key = Some attrs →
     ∃ raw first ninth,
       raw ∈ splitlines text
       ∧ split (ch "|") raw !! 0%nat = Some first
       ∧ isdigit first = true ∧ first ≠ u "0"
       ∧ split (ch "|") raw !! 8%nat = Some ninth ∧ ninth ≠ u "0"
       ∧ key = int_or_str first
       ∧ attrs = int_or_str <$> drop 1 (split (ch "|") raw)
       ∧ (8 ≤ length attrs)%nat)
  ∧ (∀ raw first ninth,
       raw ∈ splitlines text →
       split (ch "|") raw !! 0%nat = Some first →
       isdigit first = true → first ≠ u "0" →
       split (ch "|") raw !! 8%nat = Some ninth → ninth ≠ u "0" →
       is_Some (inodes !! int_or_str first)).
Proof.
  intros Htext Hparse. unfold parse_ils in Hparse.
  rewrite Htext, bind_Ok_l in Hparse. split.
  - intros key attrs Hkey.
    destruct (ils_loop_sound _ _ _ _ _ Hparse Hkey) as [Hin|(raw & Hraw & Hline)];
      [by rewrite lookup_empty in Hin|].
    apply ils_line_Some in Hline
      as (first & ninth & Hfirst & Hd & Hz & Hninth & Hn & -> & ->).
    exists raw, first, ninth. repeat (split; [done|]).
    rewrite length_fmap, length_drop. apply lookup_lt_Some in Hninth. lia.
  - intros raw first ninth Hraw Hfirst Hd Hz Hninth Hn.
    apply (ils_loop_complete _ _ _ _ Hparse). right.
    exists raw, (int_or_str <$> drop 1 (split (ch "|") raw)). split; [done|].
    apply ils_line_Some. exists first, ninth. by repeat split.
Qed.

(** A line raises when its first field passes the test and it has no
    ninth field, and only then. *)
Lemma ils_line_Raise raw e :
  ils_line raw = Raise e ↔
  e = IndexError
  ∧ ∃ first, split (ch "|") raw !! 0%nat = Some first
      ∧ isdigit first = true ∧ first ≠ u "0"
      ∧ (length (split (ch "|") raw) < 9)%nat.
Proof.
  unfold ils_line, str_eqb.
  pose proof (split_nonnil (ch "|") raw) as Hnil.
  destruct (split (ch "|") raw) as [|first fields] eqn:Hs; [done|]. clear Hnil.
  rewrite (index_Some _ 0%nat first) by done. rewrite bind_Ok_l.
  destruct (isdigit first) eqn:Hd; simpl andb.
  - case_bool_decide as Hz; simpl negb; cbv iota.
    + split; [done|]. intros (_ & ? & [= <-] & _ & ? & _). done.
    + case_index (first :: fields) 8%nat.
      * split.
        { destruct (negb _); [|done]. cbv zeta.
          rewrite (index_Some _ 0%nat (int_or_str first)) by done. done. }
        intros (_ & ? & _ & _ & _ & Hlen). apply lookup_lt_Some in E. lia.
      * split; [|by intros [-> _]]. intros [= <-]. split; [done|].
        exists first. apply lookup_ge_None in E. repeat split; [done..|lia].
  - split; [done|]. intros (_ & ? & [= <-] & ? & _). congruence.
Qed.

(** X6: when the text is UTF-8, [parse_ils] fails in one way only: it
    raises [IndexError] exactly when some line has a first field made of
    digits, other than ["0"], and fewer than nine fields. Header lines,
    blank lines and lines of inode 0 never raise, however short. *)
Theorem parse_ils_raises_on_short_lines data text :
  decode (Byte.to_N <$> data) = Ok text →
  (parse_ils data = Raise IndexError ↔
   ∃ raw first,
     raw ∈ splitlines text
     ∧ split (ch "|") raw !! 0%nat = Some first
     ∧ isdigit first = true ∧ first ≠ u "0"
     ∧ (length (split (ch "|") raw) < 9)%nat)
  ∧ (∀ e, parse_ils data = Raise e → e = IndexError).
Proof.
  intros Htext. unfold parse_ils, ils_loop.
  rewrite Htext, bind_Ok_l, for_each_step.
  assert (∀ e, mapM ils_line (splitlines text) = Raise e → e = IndexError) as Hcls.
  { intros e (raw & _ & Hraw)%mapM_Raise_inv. by apply ils_line_Raise in Hraw as [-> _]. }
  split.
  - split.
    + destruct (mapM _ _) as [rs|e] eqn:Hm; simpl; [done|]. intros _.
      apply mapM_Raise_inv in Hm as (raw & Hraw & Hline).
      apply ils_line_Raise in Hline as (_ & first & ?). by exists raw, first.
    + intros (raw & first & Hraw & Hline).
      destruct (mapM_Raise ils_line _ raw Hraw) as [e He].
      { exists IndexError. apply ils_line_Raise. split; [done|]. by exists first. }
      rewrite He. simpl. by rewrite (Hcls _ He).
  - intros e. destruct (mapM _ _) as [rs|e'] eqn:Hm; simpl; [done|].
    intros [= <-]. by apply Hcls.
Qed.
End Ils_entries.

(** ** [os.path.relpath] of a path below its start *)

Section Relpath_below.
Import posixpath.

(** Nothing is lost of the components the loop of [normpath] kept when
    the path is absolute, or when it kept one at least. *)
Lemma components_slashes k comps :
  Forall (λ x, x ≠ [] ∧ sep ∉ x) comps →
  components (replicate k sep ++ sep_join sep comps) = comps.
Proof.
  intros Hwf. unfold components. rewrite split_replicate_sep, filter_app.
  rewrite filter_Forall_nil
    by (apply Forall_forall; intros x ->%elem_of_replicate_inv Hx; by apply Hx).
  destruct comps as [|c comps]; [done|].
  rewrite split_sep_join; [|done|].
  - apply filter_Forall_id. eapply Forall_impl; [exact Hwf|]. by intros x [? _].
  - eapply Forall_impl; [exact Hwf|]. by intros x [_ ?].
Qed.

Lemma components_normpath_abs path :
  isabs path = true →
  components (normpath path)
  = foldl (normpath_step 1) [] (split sep path).
Proof.
  intros Habs. unfold normpath, isabs in *.
  rewrite bool_decide_eq_false_2 by (by intros ->). cbv zeta.
  rewrite (normpath_comps_abs (initial_slashes path)).
  assert (initial_slashes path ≠ 0%nat) as Hk.
  { unfold initial_slashes. rewrite Habs. by destruct (_ && _). }
  rewrite (bool_decide_eq_false_2 (initial_slashes path = 0%nat)) by done.
  set (comps := foldl _ [] _).
  assert (Forall (λ x, x ≠ [] ∧ sep ∉ x) comps) as Hwf.
  { apply normpath_comps_wf; [apply split_elem_sep_free | done]. }
  rewrite bool_decide_eq_false_2.
  - by apply components_slashes.
  - destruct (initial_slashes path); done.
Qed.

(** [join] on a path that is not empty: a component with no separator
    is appended, after a separator when there is none. *)
Lemma join_step_nonnil (P c : str) :
  P ≠ [] → startswith [sep] c = false →
  join P [c] = P ++ (if endswith_sep P then c else sep :: c).
Proof.
  intros HP Hc. unfold join. cbn [foldl]. rewrite Hc.
  rewrite bool_decide_eq_false_2 by done. simpl. by destruct (endswith_sep P).
Qed.

Lemma sep_free_not_abs (c : str) : sep ∉ c → startswith [sep] c = false.
Proof.
  intros Hc. destruct c as [|d c]; [done|]. cbn [startswith].
  apply not_elem_of_cons in Hc as [Hd _]. by rewrite (proj2 (N.eqb_neq sep d)).
Qed.

Lemma endswith_sep_app (x P : str) : P ≠ [] → endswith_sep (x ++ P) = endswith_sep P.
Proof.
  intros HP. unfold endswith_sep.
  destruct (exists_last (l:=P)) as (Q & z & ->); [done|].
  by rewrite app_assoc, !last_snoc.
Qed.

Lemma join_cons (P c : str) cs : join P (c :: cs) = join (join P [c]) cs.
Proof. done. Qed.

(** What is put before a path that is not empty stays before the joined path. *)
Lemma join_app_l (x P : str) cs :
  P ≠ [] → Forall (λ c, sep ∉ c) cs → join (x ++ P) cs = x ++ join P cs.
Proof.
  intros HP Hcs. revert P HP.
  induction Hcs as [|c cs Hc _ IH]; intros P HP; [done|].
  rewrite (join_cons (x ++ P) c cs), (join_cons P c cs).
  rewrite (join_step_nonnil P), (join_step_nonnil (x ++ P));
    [|by destruct x, P|by apply sep_free_not_abs|done|by apply sep_free_not_abs].
  rewrite endswith_sep_app by done. rewrite <-app_assoc. apply IH.
  by destruct P.
Qed.

Lemma normpath_step_nil k acc : normpath_step k acc [] = acc.
Proof. unfold normpath_step. by rewrite bool_decide_eq_true_2 by (by left). Qed.

(** The components [normpath] goes through for a joined path: those of
    the path, and the ones joined to it. *)
Lemma join_components (P : str) cs :
  P ≠ [] → Forall (λ c, sep ∉ c) cs →
  join P cs ≠ []
  ∧ isabs (join P cs) = isabs P
  ∧ ∀ k acc,
      foldl (normpath_step k) acc (split sep (join P cs))
      = foldl (normpath_step k) (foldl (normpath_step k) acc (split sep P)) cs.
Proof.
  intros HP Hcs. revert P HP.
  induction Hcs as [|c cs Hc _ IH]; intros P HP; [done|].
  rewrite (join_cons _ c).
  assert (join P [c] ≠ []) as Hne.
  { rewrite join_step_nonnil; [by destruct P | done | by apply sep_free_not_abs]. }
  destruct (IH _ Hne) as (Hne' & Habs & Hfold).
  split; [done|]. split.
  { rewrite Habs, join_step_nonnil; [|done|by apply sep_free_not_abs].
    by destruct P. }
  intros k acc. rewrite Hfold. cbn [foldl]. f_equal.
  rewrite join_step_nonnil; [|done|by apply sep_free_not_abs].
  destruct (endswith_sep P) eqn:Hend.
  - unfold endswith_sep in Hend.
    destruct (exists_last (l:=P)) as (Q & z & ->); [done|].
    rewrite last_snoc in Hend. apply N.eqb_eq in Hend as ->.
    rewrite <-app_assoc. change ([sep] ++ c) with (sep :: c).
    rewrite !split_app_sep, !foldl_app, (split_sep_free _ c) by done.
    cbn [split foldl]. by rewrite normpath_step_nil.
  - by rewrite split_app_sep, foldl_app, (split_sep_free _ c).
Qed.

Lemma plain_sep_free cs : Forall plain cs → Forall (λ c, sep ∉ c) cs.
Proof. intros Hcs. eapply Forall_impl; [exact Hcs|]. by intros c (_ & ? & _). Qed.

(** Joining plain components gives them with separators between. *)
Lemma join_plain_list c cs :
  plain c → Forall plain cs → join c cs = sep_join sep (c :: cs).
Proof.
  intros Hc Hcs. revert c Hc.
  induction Hcs as [|d cs Hd Hcs IH]; intros c Hc; [done|].
  rewrite (join_cons _ d), join_plain by done.
  change (c ++ sep :: d) with (c ++ [sep] ++ d). rewrite app_assoc.
  rewrite join_app_l; [|apply Hd|by apply plain_sep_free].
  rewrite IH by done. by rewrite <-app_assoc.
Qed.

(** [relpath] gives back what was joined to the start: for plain
    components [cs], [relpath(join(start, *cs), start)] is
    ['/'.join(cs)], when [start] is absolute or the working directory
    is (as [os.getcwd()] always is). *)
Lemma relpath_join cwd start cs :
  start ≠ [] →
  isabs start = true ∨ isabs cwd = true →
  cs ≠ [] → Forall plain cs →
  relpath cwd (VStr (join start cs)) start = Ok (sep_join sep cs).
Proof.
  intros Hstart Habs Hcs Hplain.
  pose proof (plain_sep_free _ Hplain) as Hfree.
  destruct (join_components start cs Hstart Hfree) as (Hne & Hisabs & _).
  assert (∃ P, P ≠ [] ∧ isabs P = true
               ∧ abspath cwd start = normpath P
               ∧ abspath cwd (join start cs) = normpath (join P cs))
    as (P & HP & HPabs & HaP & HaP').
  { unfold abspath. rewrite Hisabs.
    destruct (isabs start) eqn:Hs; [by exists start|].
    destruct Habs as [?|Hcwd]; [done|].
    assert (cwd ≠ []) as Hcne by (by intros ->).
    assert (startswith [sep] start = false) as Hs1 by done.
    assert (startswith [sep] (join start cs) = false) as Hs2 by done.
    exists (join cwd [start]).
    rewrite (join_step_nonnil cwd start Hcne Hs1).
    rewrite (join_step_nonnil cwd (join start cs) Hcne Hs2).
    split; [by destruct cwd|]. split; [by destruct cwd|]. split; [done|].
    f_equal. destruct (endswith_sep cwd).
    - by rewrite join_app_l.
    - change (cwd ++ sep :: start) with (cwd ++ [sep] ++ start).
      change (cwd ++ sep :: join start cs) with (cwd ++ [sep] ++ join start cs).
      by rewrite !app_assoc, join_app_l. }
  destruct (join_components P cs HP Hfree) as (_ & HPabs' & Hfold).
  unfold relpath. rewrite bool_decide_eq_false_2 by done. cbv zeta.
  rewrite HaP, HaP'.
  rewrite !components_normpath_abs by congruence.
  rewrite Hfold, (normpath_comps_plain _ _ cs Hplain).
  rewrite commonprefix_app_r, Nat.sub_diag, drop_app_length. simpl.
  destruct Hplain as [|c cs Hc Hplain]; [done|].
  by rewrite join_plain_list.
Qed.
End Relpath_below.

(** ** [parse_stat]: the paths below the mount point *)

Section Stat_paths.
Context `{Interpreter}.
Import TextParser.

(** The first loop of [parse_stat] always ends: it leaves a list of
    lines, none of them empty, with every line that was not excluded. *)
Lemma stat_loop_lines self lines :
  ∃ inodes, stat_loop self lines [] = Ok inodes
    ∧ Forall (λ line, line ≠ []) inodes
    ∧ ∀ raw name fields,
        raw ∈ lines → split (ch "|") raw = name :: fields →
        excluded self name = false →
        (int_or_str <$> name :: fields) ∈ inodes.
Proof.
  rewrite stat_loop_spec.
  destruct (mapM_is_Ok (stat_line self) lines) as [rs Hrs].
  { intros raw _. destruct (stat_line_eq self raw) as (? & ? & _ & ->). eauto. }
  rewrite Hrs. simpl. eexists. split; [done|]. apply mapM_Ok in Hrs. split.
  - apply Forall_forall. intros line (r & Hr & Hid)%list_elem_of_omap.
    simpl in Hid. subst r. apply list_elem_of_lookup in Hr as [i Hi].
    destruct (Forall2_lookup_r _ _ _ _ _ Hrs Hi) as (raw & _ & Hst).
    destruct (stat_line_eq self raw) as (name & fields & _ & Heq).
    rewrite Heq in Hst. destruct (excluded self name); [done|].
    by injection Hst as <-.
  - intros raw name fields Hraw Hsplit Hex.
    apply list_elem_of_lookup in Hraw as [i Hi].
    destruct (Forall2_lookup_l _ _ _ _ _ Hrs Hi) as (r & Hr & Hst).
    destruct (stat_line_eq self raw) as (name' & fields' & Hsplit' & Heq).
    rewrite Hsplit in Hsplit'. injection Hsplit' as <- <-.
    rewrite Heq, Hex in Hst. injection Hst as <-.
    apply list_elem_of_omap. exists (Some (int_or_str <$> name :: fields)).
    split; [|done]. apply list_elem_of_lookup. eauto.
Qed.

Lemma relpath_Raise cwd path start e :
  posixpath.relpath cwd path start = Raise e → e = ValueError ∨ e = TypeError.
Proof.
  unfold posixpath.relpath.
  destruct path as [n|path]; [case_bool_decide; intros [= <-]; auto|].
  case_bool_decide; [intros [= <-]; auto|]. cbv zeta. by destruct (_ ++ _).
Qed.

(** X7: [parse_stat] with a mount path turns the name of an entry below
    the mount point into the path from the mount point: a line that is
    kept and whose name is [mpath] joined with the plain components [cs]
    comes back with the path ['/'.join(cs)] and its other fields
    converted, whatever the working directory. *)
Theorem parse_stat_relative_paths self cwd data mpath text inodes raw fields cs :
  decode (Byte.to_N <$> data) = Ok text →
  parse_stat self cwd data (Some mpath) = Ok inodes →
  mpath ≠ [] →
  posixpath.isabs mpath = true ∨ posixpath.isabs cwd = true →
  raw ∈ splitlines text →
  split (ch "|") raw = posixpath.join mpath cs :: fields →
  cs ≠ [] → Forall plain cs →
  excluded self (posixpath.join mpath cs) = false →
  int_of_str (posixpath.join mpath cs) = None →
  VStr (sep_join posixpath.sep cs) :: (int_or_str <$> fields) ∈ inodes.
Proof.
  intros Htext Hparse Hmpath Habs Hraw Hsplit Hcs Hplain Hex Hint.
  unfold parse_stat in Hparse. rewrite Htext, bind_Ok_l in Hparse.
  destruct (stat_loop_lines self (splitlines text)) as (inodes0 & Hloop & _ & Hin).
  rewrite Hloop, bind_Ok_l in Hparse. apply mapM_Ok in Hparse.
  specialize (Hin _ _ _ Hraw Hsplit Hex).
  apply list_elem_of_lookup in Hin as [i Hi].
  destruct (Forall2_lookup_l _ _ _ _ _ Hparse Hi) as (line' & Hline' & Hset).
  apply list_elem_of_lookup. exists i. rewrite Hline'. f_equal.
  revert Hset. unfold set_relpath. rewrite fmap_cons.
  rewrite (index_Some _ 0%nat (int_or_str (posixpath.join mpath cs))) by done.
  assert (int_or_str (posixpath.join mpath cs) = VStr (posixpath.join mpath cs))
    as -> by (unfold int_or_str; by rewrite Hint).
  rewrite bind_Ok_l, relpath_join by done. rewrite bind_Ok_l. by intros [= <-].
Qed.

(** X8: [parse_stat] with a mount path does not survive a line without a
    usable name. A kept line whose first field is empty (a blank line)
    or is taken by [int] (a bare number) makes [relpath] raise, and
    [parse_stat] with it: [ValueError] or [TypeError], the only
    exceptions of the second loop. *)
Theorem parse_stat_unnamed_line_raises self cwd data mpath text raw name :
  decode (Byte.to_N <$> data) = Ok text →
  raw ∈ splitlines text →
  split (ch "|") raw !! 0%nat = Some name →
  excluded self name = false →
  name = [] ∨ is_Some (int_of_str name) →
  ∃ e, parse_stat self cwd data (Some mpath) = Raise e
       ∧ (e = ValueError ∨ e = TypeError).
Proof.
  intros Htext Hraw Hname Hex Hbad.
  unfold parse_stat. rewrite Htext, bind_Ok_l.
  destruct (stat_loop_lines self (splitlines text)) as (inodes0 & -> & Hne & Hin).
  rewrite bind_Ok_l.
  destruct (split (ch "|") raw) as [|name' fields] eqn:Hsplit; [done|].
  injection Hname as ->.
  specialize (Hin _ _ _ Hraw Hsplit Hex).
  assert (is_raise (set_relpath cwd mpath (int_or_str <$> name :: fields))) as Hr.
  { unfold set_relpath. rewrite fmap_cons.
    rewrite (index_Some _ 0%nat (int_or_str name)) by done. rewrite bind_Ok_l.
    destruct (int_or_str name) as [n|s] eqn:Hv;
      [simpl; case_bool_decide; by eexists|].
    unfold int_or_str in Hv. destruct (int_of_str name) as [n|] eqn:Hint; [done|].
    injection Hv as <-. destruct Hbad as [->|[? ?]]; [by eexists | done]. }
  destruct (mapM_Raise _ _ _ Hin Hr) as [e He]. exists e. split; [done|].
  apply mapM_Raise_inv in He as (line & Hline & Hset).
  eapply Forall_forall in Hne; [|exact Hline].
  destruct line as [|v line]; [done|]. revert Hset. unfold set_relpath.
  rewrite (index_Some _ 0%nat v) by done. rewrite bind_Ok_l.
  destruct (posixpath.relpath cwd v mpath) eqn:Hrel; [done|].
  intros [= <-]. by eapply relpath_Raise.
Qed.
End Stat_paths.

(** ** [setUpClassCustom]: what goes into the two sets *)

Section Setup.
Context `{Interpreter}.
Import TestBtrfs.

(** The merge adds one record for each entry of the file listing and
    takes none away. *)
Lemma merge_Ok tsk_inodes tsk_files tsk tsk' :
  merge tsk_inodes tsk_files tsk = Ok tsk' →
  ∀ line, line ∈ tsk' ↔
    line ∈ tsk
    ∨ ∃ path inode attrs,
        (path, inode) ∈ tsk_files
        ∧ tsk_inodes !! VInt inode = Some attrs
        ∧ line = VStr path :: VInt inode :: attrs.
Proof.
  unfold merge. revert tsk.
  induction tsk_files as [|[p i] files IH]; intros tsk Hm line; simpl in Hm.
  - injection Hm as ->. split; [by left|].
    intros [?|(? & ? & ? & []%elem_of_nil & _)]. done.
  - destruct (tsk_inodes !! VInt i) as [attrs|] eqn:Hi; [|done].
    simpl in Hm. rewrite (IH _ Hm line). split.
    + intros [[->%elem_of_singleton|Hin]%elem_of_union|(p' & i' & a' & Hin & Hrest)].
      * right. exists p, i, attrs. split; [apply list_elem_of_here | done].
      * by left.
      * right. exists p', i', a'. split; [by apply list_elem_of_further | done].
    + intros [Hin|(p' & i' & a' & [[= -> ->]|Hin]%elem_of_cons & Hl & ->)].
      * left. apply elem_of_union. by right.
      * left. apply elem_of_union. left. apply elem_of_singleton. congruence.
      * right. by exists p', i', a'.
Qed.

(** X9: the records of [self.tsk] after the set-up. When the two
    listings parse and every inode of the file listing is a key of the
    inode listing, the set holds what it held before (the set belongs to
    the class [TestBtrfs] and is never emptied, so the records of an
    earlier test class of the same run stay) and, for each entry of the
    file listing, the record made of its path, its inode number and the
    attributes listed for that inode; nothing else. *)
Theorem retrieve_tsk_records self fls ils tsk' :
  retrieve_tsk self fls ils = Ok tsk' →
  ∃ tsk_files tsk_inodes,
    TextParser.parse_fls_files (parser self) fls = Ok tsk_files
    ∧ TextParser.parse_ils ils = Ok tsk_inodes
    ∧ tsk self ⊆ tsk'
    ∧ ∀ line, line ∈ tsk' ↔
        line ∈ tsk self
        ∨ ∃ path inode attrs,
            (path, inode) ∈ tsk_files
            ∧ tsk_inodes !! VInt inode = Some attrs
            ∧ line = VStr path :: VInt inode :: attrs.
Proof.
  unfold retrieve_tsk.
  intros (tsk_files & Hfls & (tsk_inodes & Hils & Hm)%bind_Ok)%bind_Ok.
  exists tsk_files, tsk_inodes. split; [done|]. split; [done|].
  pose proof (merge_Ok _ _ _ _ Hm) as Hiff. split; [|done].
  intros line Hline. apply Hiff. by left.
Qed.

(** X10: a record the set-up adds to [self.tsk] has a [str] path, an
    [int] inode number and ten fields at least, the last eight or more
    from the inode listing: in the loops over [self.tsk] the indices [0]
    to [9] are always there ([test_structure] and the tests of the inode,
    uid, gid, times and mode raise no [IndexError] on it). *)
Theorem retrieve_tsk_field_count self fls ils tsk' line :
  retrieve_tsk self fls ils = Ok tsk' →
  line ∈ tsk' → line ∉ tsk self →
  (10 ≤ length line)%nat
  ∧ ∃ path inode,
      line !! 0%nat = Some (VStr path) ∧ line !! 1%nat = Some (VInt inode)
      ∧ ∀ k, (k ≤ 9)%nat → ∃ v, field_pair k line = Ok (VStr path, v).
Proof.
  unfold retrieve_tsk.
  intros (tsk_files & Hfls & (tsk_inodes & Hils & Hm)%bind_Ok)%bind_Ok Hline Hnew.
  apply (merge_Ok _ _ _ _ Hm) in Hline
    as [?|(path & inode & attrs & _ & Hattrs & ->)]; [done|].
  assert (8 ≤ length attrs)%nat as Hlen.
  { unfold TextParser.parse_ils in Hils.
    apply bind_Ok in Hils as (text & _ & Hloop).
    destruct (ils_loop_sound _ _ _ _ _ Hloop Hattrs) as [Hin|(raw & _ & Hraw)];
      [by rewrite lookup_empty in Hin|].
    apply ils_line_Some in Hraw as (first & ninth & _ & _ & _ & Hninth & _ & _ & ->).
    rewrite length_fmap, length_drop. apply lookup_lt_Some in Hninth. lia. }
  split; [simpl; lia|]. exists path, inode. split; [done|]. split; [done|].
  intros k Hk. unfold field_pair.
  destruct (lookup_lt_is_Some_2 (VStr path :: VInt inode :: attrs) k) as [v Hv];
    [simpl; lia|].
  exists v. rewrite (index_Some _ 0%nat (VStr path)) by done.
  by rewrite bind_Ok_l, (index_Some _ _ _ Hv).
Qed.

(** The loop over the directories: the lines of every output that was
    captured are appended. *)
Lemma retrieve_stat_loop self cwd dirs acc acc' :
  for_each (λ stat_inodes out,
    match out with
    | Some out =>
      more ← TextParser.parse_stat (parser self) cwd out (Some (mpath self));
      mret (stat_inodes ++ more)
    | None => mret stat_inodes
    end) dirs acc = Ok acc' →
  ∀ line, line ∈ acc' ↔
    line ∈ acc
    ∨ ∃ out inodes,
        Some out ∈ dirs
        ∧ TextParser.parse_stat (parser self) cwd out (Some (mpath self)) = Ok inodes
        ∧ line ∈ inodes.
Proof.
  revert acc. induction dirs as [|out dirs IH]; intros acc Hloop line;
    simpl in Hloop.
  - injection Hloop as ->. split; [by left|].
    intros [?|(? & ? & []%elem_of_nil & _)]. done.
  - destruct out as [out|].
    + destruct (TextParser.parse_stat _ _ out _) as [more|] eqn:Hout; [|done].
      rewrite !bind_Ok_l in Hloop. rewrite (IH _ Hloop line). split.
      * intros [[Hin|Hin]%elem_of_app|(out' & inodes & Hin & Hrest)].
        -- by left.
        -- right. exists out, more. split; [apply list_elem_of_here | done].
        -- right. exists out', inodes. split; [by apply list_elem_of_further | done].
      * intros [Hin|(out' & inodes & [[= ->]|Hin]%elem_of_cons & Hp & Hl)].
        -- left. apply elem_of_app. by left.
        -- left. apply elem_of_app. right. congruence.
        -- right. by exists out', inodes.
    + rewrite bind_Ok_l in Hloop. rewrite (IH _ Hloop line). split.
      * intros [?|(out' & inodes & Hin & Hrest)]; [by left|].
        right. exists out', inodes. split; [by apply list_elem_of_further | done].
      * intros [?|(out' & inodes & [[=]|Hin]%elem_of_cons & Hrest)]; [by left|].
        right. by exists out', inodes.
Qed.

Lemma retrieve_stat_loop_Raise self cwd dirs acc out :
  Some out ∈ dirs →
  is_raise (TextParser.parse_stat (parser self) cwd out (Some (mpath self))) →
  is_raise (for_each (λ stat_inodes out,
    match out with
    | Some out =>
      more ← TextParser.parse_stat (parser self) cwd out (Some (mpath self));
      mret (stat_inodes ++ more)
    | None => mret stat_inodes
    end) dirs acc).
Proof.
  intros Hin [e He]. revert acc.
  induction dirs as [|out' dirs IH]; intros acc; [by apply elem_of_nil in Hin|].
  simpl. destruct out' as [out'|].
  - destruct (TextParser.parse_stat _ _ out' _) as [more|e'] eqn:Hout;
      [|by eexists].
    rewrite !bind_Ok_l. apply IH.
    apply elem_of_cons in Hin as [[= ->]|Hin]; [congruence | done].
  - rewrite bind_Ok_l. apply IH.
    by apply elem_of_cons in Hin as [[=]|Hin].
Qed.

(** X11: the records of [self.stat] after the set-up. They are the
    records the set held before and the lines [parse_stat] returns for
    the output of [stat] on the mount point and on every directory where
    the command succeeded; a directory where it failed
    ([CalledProcessError]) adds nothing and stops nothing. An output that
    [parse_stat] cannot parse is not passed over: the set-up raises. *)
Theorem retrieve_stat_records self cwd top dirs :
  (∀ stat', retrieve_stat self cwd top dirs = Ok stat' →
     stat self ⊆ stat'
     ∧ ∀ line, line ∈ stat' ↔
         line ∈ stat self
         ∨ ∃ out inodes,
             (out = top ∨ Some out ∈ dirs)
             ∧ TextParser.parse_stat (parser self) cwd out (Some (mpath self))
               = Ok inodes
             ∧ line ∈ inodes)
  ∧ (∀ out, out = top ∨ Some out ∈ dirs →
       is_raise (TextParser.parse_stat (parser self) cwd out (Some (mpath self))) →
       is_raise (retrieve_stat self cwd top dirs))
  ∧ retrieve_stat self cwd top dirs
    = retrieve_stat self cwd top (filter (λ out, out ≠ None) dirs).
Proof.
  unfold retrieve_stat. split; [|split].
  - intros stat' (first & Hfirst & (all & Hloop & [= <-])%bind_Ok)%bind_Ok.
    split; [set_solver|]. intros line.
    rewrite elem_of_union, elem_of_list_to_set, (retrieve_stat_loop _ _ _ _ _ Hloop).
    split.
    + intros [[Hin|(out & inodes & Hin & Hrest)]|Hin].
      * right. exists top, first. by split; [left|].
      * right. exists out, inodes. by split; [right|].
      * by left.
    + intros [Hin|(out & inodes & [->|Hin] & Hp & Hl)].
      * by right.
      * left. left. congruence.
      * left. right. by exists out, inodes.
  - intros out [->|Hin] [e He].
    + rewrite He. by eexists.
    + destruct (TextParser.parse_stat _ _ top _) as [first|]; [|by eexists].
      rewrite bind_Ok_l.
      destruct (retrieve_stat_loop_Raise self cwd dirs first out Hin) as [e' ->];
        by eexists.
  - destruct (TextParser.parse_stat _ _ top _) as [first|]; [|done].
    rewrite !bind_Ok_l. f_equal. apply for_each_filter.
    intros acc [out|] Hout; [by destruct Hout | done].
Qed.
End Setup.

(** ** The tests that compare the two sets *)

Lemma set_of_ext {A} `{Countable B} (f g : A → result B) l :
  (∀ x, x ∈ l → f x = g x) → TestBtrfs.set_of f l = TestBtrfs.set_of g l.
Proof.
  intros Hfg. unfold TestBtrfs.set_of. f_equal.
  induction l as [|x l IH]; [done|]. simpl.
  rewrite Hfg by apply list_elem_of_here. rewrite IH; [done|].
  intros y Hy. apply Hfg. by apply list_elem_of_further.
Qed.

(** The image of the set under a map the body goes through. *)
Lemma set_of_compose {A} `{Countable B} `{Countable C}
    (f : A → result B) (h : A → result C) (π : B → C) l (s : gset B) :
  (∀ x y, f x = Ok y → h x = Ok (π y)) →
  TestBtrfs.set_of f l = Ok s →
  TestBtrfs.set_of h l = Ok (set_map π s).
Proof.
  intros Hfh (ks & Hks & ->)%set_of_Ok. apply set_of_Ok.
  exists (π <$> ks). split.
  - apply Forall2_fmap_r. eapply Forall2_impl; [exact Hks|]. eauto.
  - apply set_eq. intros z.
    rewrite elem_of_map, elem_of_list_to_set, list_elem_of_fmap.
    by setoid_rewrite elem_of_list_to_set.
Qed.

Section Attribute_tests.
Context `{Interpreter}.
Import TestBtrfs.

Lemma field_pair_Ok (k : nat) line p v :
  field_pair k line = Ok (p, v) ↔ line !! 0%nat = Some p ∧ line !! k = Some v.
Proof.
  unfold field_pair. case_index line 0%nat.
  - case_index line k.
    + split; [by intros [= <- <-] | by intros [[= <-] [= <-]]].
    + split; [done | by intros [_ ?]].
  - split; [done | by intros [? _]].
Qed.

Lemma field_pair_Raise (k : nat) line e :
  field_pair k line = Raise e ↔ e = IndexError ∧ (length line ≤ k)%nat.
Proof.
  unfold field_pair. case_index line 0%nat.
  - case_index line k.
    + split; [done|]. intros [_ Hlen]. apply lookup_lt_Some in E0. lia.
    + apply lookup_ge_None in E0. split; [by intros [= <-] | by intros [-> _]].
  - apply lookup_ge_None in E. split; [intros [= <-]|by intros [-> _]].
    split; [done|]. lia.
Qed.

(** The pairs the loop of a test collects from one of the sets. *)
Lemma set_of_field_pair (k : nat) (records : gset (list value)) :
  ((∃ line, line ∈ records ∧ (length line ≤ k)%nat)
   ∧ set_of (field_pair k) (elements records) = Raise IndexError)
  ∨ ((∀ line, line ∈ records → (k < length line)%nat)
     ∧ ∃ s, set_of (field_pair k) (elements records) = Ok s
         ∧ ∀ p v, (p, v) ∈ s ↔ has_field k records p v).
Proof.
  destruct (set_of (field_pair k) (elements records)) as [s|e] eqn:Hs.
  - right. pose proof (set_of_spec _ _ _ Hs) as Hspec. split.
    + intros line Hline%elem_of_elements.
      apply set_of_Ok in Hs as (ks & Hks & _).
      apply list_elem_of_lookup in Hline as [i Hi].
      destruct (Forall2_lookup_l _ _ _ _ _ Hks Hi) as ([p v] & _ & Hf).
      apply field_pair_Ok in Hf as [_ Hk]. by apply lookup_lt_Some in Hk.
    + exists s. split; [done|]. intros p v. rewrite Hspec. unfold has_field.
      by setoid_rewrite field_pair_Ok; setoid_rewrite elem_of_elements.
  - left. apply set_of_Raise in Hs.
    apply mapM_Raise_inv in Hs as (line & Hline%elem_of_elements & Hf).
    apply field_pair_Raise in Hf as [-> Hlen]. split; [eauto | done].
Qed.

Lemma attribute_tests_compare_field (k : nat) test :
  (k, test) ∈ attribute_tests → test = compare_field k.
Proof.
  unfold attribute_tests. rewrite !elem_of_cons, elem_of_nil.
  intros [[= -> ->]|[[= -> ->]|[[= -> ->]|[[= -> ->]|[[= -> ->]|[[= -> ->]
    |[[= -> ->]|[[= -> ->]|[]]]]]]]]]; done.
Qed.

(** X12: what the tests of the uid, gid, mtime, atime, ctime, crtime,
    mode and link count decide. The test of the attribute at index [k]
    raises [IndexError] exactly when a record of either set has no field
    [k]; it passes exactly when there is no such record and the two sets
    give the same pairs of a path and a value at [k]; in the remaining
    case it fails with [AssertionError]. The pairs are compared as sets:
    neither the number of records with a pair nor their other fields
    count. *)
Theorem attribute_test_outcome (k : nat) test self :
  (k, test) ∈ attribute_tests →
  (test self = Raise IndexError ↔
     ∃ line, (line ∈ tsk self ∨ line ∈ stat self) ∧ (length line ≤ k)%nat)
  ∧ (test self = Ok () ↔
       (∀ line, line ∈ tsk self ∨ line ∈ stat self → (k < length line)%nat)
       ∧ ∀ p v, has_field k (stat self) p v ↔ has_field k (tsk self) p v)
  ∧ (∀ e, test self = Raise e → e = IndexError ∨ e = AssertionError).
Proof.
  intros ->%attribute_tests_compare_field. unfold compare_field.
  destruct (set_of_field_pair k (tsk self))
    as [[(l1 & Hl1 & Hs1) ->]|[Hlong1 (s1 & -> & Hs1)]];
    [|destruct (set_of_field_pair k (stat self))
        as [[(l2 & Hl2 & Hs2) ->]|[Hlong2 (s2 & -> & Hs2)]]];
    rewrite ?bind_Ok_l, ?bind_Raise_l.
  - split; [|split].
    + split; [eauto | done].
    + split; [done|]. intros [Hlong _]. specialize (Hlong l1 (or_introl Hl1)). lia.
    + intros e [= <-]. by left.
  - split; [|split].
    + split; [eauto | done].
    + split; [done|]. intros [Hlong _]. specialize (Hlong l2 (or_intror Hl2)). lia.
    + intros e [= <-]. by left.
  - split; [|split].
    + split.
      * unfold assertEqual. by destruct (decide _).
      * intros (line & [Hl|Hl] & Hlen);
          [specialize (Hlong1 _ Hl) | specialize (Hlong2 _ Hl)]; lia.
    + rewrite assertEqual_Ok. split.
      * intros ->. split; [by intros line [?|?]; eauto|].
        intros p v. by rewrite <-Hs1, <-Hs2.
      * intros [_ Hsame]. apply set_eq. intros [p v]. by rewrite Hs1, Hs2.
    + intros e. unfold assertEqual. destruct (decide _); [done|].
      intros [= <-]. by right.
Qed.

(** A test that compares pairs with the path first passes only if the
    sets of the paths agree. *)
Lemma paths_agree (f g : list value → result (value * value)) self :
  (∀ line y, f line = Ok y → index line 0 = Ok y.1) →
  (∀ line y, g line = Ok y → index line 0 = Ok y.1) →
  (tsk ← set_of f (elements (tsk self));
   stat ← set_of g (elements (stat self));
   assertEqual stat tsk) = Ok () →
  test_structure self = Ok ().
Proof.
  intros Hf Hg (s1 & Hs1 & (s2 & Hs2 & ->%assertEqual_Ok)%bind_Ok)%bind_Ok.
  unfold test_structure.
  rewrite (set_of_compose f _ fst _ _ Hf Hs1), bind_Ok_l.
  rewrite (set_of_compose g _ fst _ _ Hg Hs2), bind_Ok_l.
  by apply assertEqual_Ok.
Qed.

Lemma bind_index_0 {B} (line : list value) (k : value → result (value * B)) y :
  (∀ name, ∃ v, k name = Ok (name, v) ∨ is_raise (k name)) →
  (name ← index line 0; k name) = Ok y → index line 0 = Ok y.1.
Proof.
  intros Hk. case_index line 0%nat; [|done].
  destruct (Hk v) as [w [->|[e ->]]]; [|done]. by intros [= <-].
Qed.

(** X13: the structure test is the weakest of the tests. Whenever one
    of the tests of an attribute, the test of the sizes or the test of
    the inode numbers passes, the two sets list the same paths and
    [test_structure] passes too. *)
Theorem passing_test_implies_structure self istat :
  (∀ k test, (k, test) ∈ attribute_tests →
     test self = Ok () → test_structure self = Ok ())
  ∧ (test_metadata_size self = Ok () → test_structure self = Ok ())
  ∧ (test_metadata_inode self istat = Ok () → test_structure self = Ok ()).
Proof.
  split; [|split].
  - intros k test ->%attribute_tests_compare_field.
    apply paths_agree; intros line [p v] [Hp _]%field_pair_Ok;
      by apply index_Some.
  - apply (paths_agree size_pair_tsk (size_pair_stat self)).
    + intros line [p v] Hl. unfold size_pair_tsk in Hl.
      revert Hl. case_index line 0%nat; [|done].
      case_index line 11%nat; [|done]. by intros [= <- <-].
    + intros line [p v] Hl. unfold size_pair_stat in Hl.
      apply bind_Ok in Hl as (size & _ & Hl).
      apply bind_Ok in Hl as (size' & _ & Hl).
      revert Hl. case_index line 0%nat; [|done]. by intros [= <- <-].
  - apply (paths_agree (inode_pair_tsk istat) inode_pair_stat).
    + intros line [p v] Hl. unfold inode_pair_tsk in Hl.
      apply bind_Ok in Hl as (inode & _ & Hl).
      apply bind_Ok in Hl as (n & _ & Hl).
      revert Hl. case_index line 0%nat; [|done]. by intros [= <- <-].
    + intros line [p v] Hl. unfold inode_pair_stat in Hl.
      revert Hl. case_index line 0%nat; [|done].
      case_index line 1%nat; [|done]. by intros [= <- <-].
Qed.

Lemma size_pair_stat_plain self line :
  fix_size self = false → size_pair_stat self line = field_pair 11 line.
Proof.
  intros Hfix. unfold size_pair_stat, field_pair. rewrite Hfix.
  case_index line 11%nat.
  - rewrite bind_Ok_l. by case_index line 0%nat.
  - by case_index line 0%nat.
Qed.

(** X14: the size test goes by the name. Without [fix_size] it is the
    test of the attribute at index 11. With [fix_size] it can pass only
    if, for every record of [stat] whose path ends in a name with
    ["directory"], ["subvolume"] or ["snapshot"] in it, TSK has a record
    of the same path with size [0]: this holds of a regular file with
    such a name as well, whatever its size is. *)
Theorem test_metadata_size_by_name self :
  (fix_size self = false → test_metadata_size self = compare_field 11 self)
  ∧ (fix_size self = true →
     test_metadata_size self = Ok () →
     ∀ line path,
       line ∈ stat self → line !! 0%nat = Some (VStr path) →
       pseudo_entry path = true →
       has_field 11 (tsk self) (VStr path) (VInt 0)).
Proof.
  split.
  - intros Hfix. unfold test_metadata_size, compare_field, tsk_sizes, stat_sizes.
    f_equal. rewrite (set_of_ext (size_pair_stat self) (field_pair 11)); [done|].
    intros line _. by apply size_pair_stat_plain.
  - intros Hfix Hpass line path Hline Hpath Hpseudo.
    unfold test_metadata_size in Hpass.
    apply bind_Ok in Hpass as (s1 & Hs1 & Hpass).
    apply bind_Ok in Hpass as (s2 & Hs2 & ->%assertEqual_Ok).
    assert (∃ size, line !! 11%nat = Some size) as [size Hsize].
    { unfold stat_sizes in Hs2. apply set_of_Ok in Hs2 as (ks & Hks & _).
      apply elem_of_elements, list_elem_of_lookup in Hline as [i Hi].
      destruct (Forall2_lookup_l _ _ _ _ _ Hks Hi) as (y & _ & Hf).
      unfold size_pair_stat in Hf. revert Hf. by case_index line 11%nat; eauto. }
    assert ((VStr path, VInt 0) ∈ s1) as Hin.
    { apply (set_of_spec _ _ _ Hs2). exists line.
      split; [by apply elem_of_elements|].
      by rewrite (size_pair_stat_eq _ _ _ _ Hpath Hsize), Hfix, Hpseudo. }
    apply (set_of_spec _ _ _ Hs1) in Hin as (line' & Hline'%elem_of_elements & Hf).
    exists line'. split; [done|]. by apply field_pair_Ok.
Qed.

(** X15: the inode test compares what [istat] reports, not the inode
    number of the record: when [istat], asked for the inode of each
    record of [tsk], reports that very number, the test is the test of
    the attribute at index 1. *)
Theorem test_metadata_inode_with_faithful_istat self istat :
  (∀ line, line ∈ tsk self →
     ∃ n, line !! 1%nat = Some (VInt n) ∧ istat_inode (istat (VInt n)) = Ok n) →
  test_metadata_inode self istat = compare_field 1 self.
Proof.
  intros Histat. unfold test_metadata_inode, compare_field.
  rewrite (set_of_ext (inode_pair_tsk istat) (field_pair 1)).
  - f_equal.
  - intros line Hline%elem_of_elements.
    destruct (Histat _ Hline) as (n & Hn & Hi).
    unfold inode_pair_tsk, field_pair.
    rewrite (index_Some _ _ _ Hn), !bind_Ok_l, Hi, bind_Ok_l.
    case_index line 0%nat; [|done]. done.
Qed.
End Attribute_tests.

(** ** [test_filedata] and the manifest of [create] *)

Lemma slice_0_m1 {A} (l : list A) x : slice (l ++ [x]) 0 (-1) = l.
Proof.
  unfold slice, adjust_index. rewrite length_app. simpl length.
  change (0 <? 0) with false. change (-1 <? 0) with true. cbv iota.
  rewrite Z.min_l, Z.max_r by lia. change (Z.to_nat 0) with 0%nat.
  rewrite drop_0. replace (Z.to_nat _) with (length l) by lia.
  by rewrite take_app_length.
Qed.

Lemma hexdigest_manifest_entry path h :
  hexdigest h → 0x0A%N ∉ path → 0x0D%N ∉ path → manifest_entry (path, h).
Proof.
  intros [Hlen Hhex] Hpath Hpath'. unfold manifest_entry. simpl.
  assert (∀ c, c ∈ h → c ≠ ch " " ∧ c ≠ 0x0A%N ∧ c ≠ 0x0D%N ∧ c ≠ ch "-") as Hc.
  { intros c Hin. eapply Forall_forall in Hhex; [|exact Hin].
    clear Hin. revert c Hhex. apply Forall_forall. by_compute. }
  split; [by destruct h|].
  split; [|split; [|split; [|split]]]; [| | | |done].
  - intros Hin. by destruct (Hc _ Hin) as (? & _).
  - intros Hin. by destruct (Hc _ Hin) as (_ & ? & _).
  - intros Hin. by destruct (Hc _ Hin) as (_ & _ & ? & _).
  - destruct h as [|c h]; [done|]. simpl. intros [= ->].
    by destruct (Hc (ch "-")) as (_ & _ & _ & ?); [apply list_elem_of_here|].
Qed.

Section Manifest.
Context `{Interpreter}.
Import TestBtrfs.

Lemma keepends_nonnil text : Forall (λ line, line ≠ []) (keepends text).
Proof.
  induction text as [|c text IH]; [done|]. cbn [keepends].
  destruct (c =? 0x0A)%N; [by constructor|].
  destruct (keepends text) as [|l ls]; [by repeat constructor|].
  apply Forall_cons in IH as [_ IH]. by constructor.
Qed.

Lemma readlines_nonnil text : Forall (λ line, line ≠ []) (readlines text).
Proof. apply keepends_nonnil. Qed.

Lemma manifest_loop_total lines stat :
  Forall (λ line, line ≠ []) lines → ∃ s, manifest_loop lines stat = Ok s.
Proof.
  intros Hlines. revert stat.
  induction Hlines as [|line lines Hline _ IH]; intros stat; [by eexists|].
  cbn [manifest_loop]. destruct line as [|c line]; [done|].
  rewrite (index_Some _ 0%nat c), bind_Ok_l by done.
  destruct (c =? ch "-")%N; [by eexists|]. cbv zeta.
  pose proof (split_nonnil (ch " ") (slice (c :: line) 0 (-1))) as Hne.
  destruct (split _ _) as [|hash fields]; [done|].
  rewrite (index_Some _ 0%nat hash), bind_Ok_l by done. apply IH.
Qed.

(** The loop reads back the lines written for a list of entries. *)
Lemma manifest_loop_lines entries tail stat :
  Forall manifest_entry entries →
  tail = [] ∨ startswith (u "-") tail = true →
  manifest_loop (readlines (concat (manifest_line <$> entries) ++ tail)) stat
  = Ok (list_to_set entries ∪ stat).
Proof.
  intros Hentries Htail. revert stat.
  induction Hentries as [|[path hash] entries Hentry _ IH]; intros stat.
  - simpl. rewrite manifest_loop_end by done. by rewrite (left_id_L ∅ (∪)).
  - destruct Hentry as (Hne & Hsp & Hnl & Hcr & Hdash & Hpath & Hpath').
    simpl in Hne, Hsp, Hnl, Hcr, Hdash, Hpath, Hpath'.
    assert (concat (manifest_line <$> (path, hash) :: entries) ++ tail
            = (hash ++ ch " " :: path)
              ++ 0x0A%N :: (concat (manifest_line <$> entries) ++ tail)) as ->.
    { rewrite fmap_cons. cbn [concat]. unfold manifest_line at 1.
      cbn [fst snd]. rewrite <-!app_assoc. cbn [app].
      by rewrite <-!app_assoc. }
    rewrite readlines_line.
    2, 3: rewrite elem_of_app, elem_of_cons; intros [?|[?|?]]; done.
    cbn [manifest_loop]. destruct hash as [|c hash]; [done|].
    rewrite (index_Some _ 0%nat c), bind_Ok_l by done.
    rewrite (proj2 (N.eqb_neq c (ch "-"))) by (simpl in Hdash; congruence).
    cbv zeta. rewrite slice_0_m1, split_app_sep, (split_sep_free _ _ Hsp).
    cbn [app]. rewrite (index_Some _ 0%nat (c :: hash)), bind_Ok_l by done.
    rewrite slice_from_1. cbn [drop]. rewrite drop_0, sep_join_split.
    rewrite IH. f_equal. simpl.
    by rewrite (assoc_L (∪)), (comm_L (∪) (list_to_set entries)).
Qed.

(** X16: the loop over the manifest. It never raises, whatever the file
    holds; and it reads back what [__md5sum_image] writes: when the lines
    before the end of the file or before the first line that begins with
    ['-'] are made of a digest, one space, a path and a line feed, with
    no other line feed and no carriage return in them, the set is that
    of the pairs (path, digest), a path with spaces in it included.
    Lines after the first ['-'] line are not read. *)
Theorem manifest_loop_reads_written_lines :
  (∀ text, ∃ stat, manifest_loop (readlines text) ∅ = Ok stat)
  ∧ (∀ entries tail,
       Forall manifest_entry entries →
       tail = [] ∨ startswith (u "-") tail = true →
       manifest_loop (readlines (concat (manifest_line <$> entries) ++ tail)) ∅
       = Ok (list_to_set entries)).
Proof.
  split.
  - intros text. apply manifest_loop_total, readlines_nonnil.
  - intros entries tail Hentries Htail.
    rewrite manifest_loop_lines by done. by rewrite (right_id_L ∅ (∪)).
Qed.
End Manifest.

(** ** The manifest of [create] against a recovered tree *)

Lemma join_snoc a cs f :
  posixpath.join (posixpath.join a cs) [f] = posixpath.join a (cs ++ [f]).
Proof. unfold posixpath.join. by rewrite foldl_app. Qed.

Lemma tree_files_cons ds dirs files tree :
  tree_files ((ds, dirs, files) :: tree)
  = ((λ f : str, ds ++ [f]) <$> files) ++ tree_files tree.
Proof. done. Qed.

(** Plain components joined by the separator are told apart. *)
Lemma sep_join_plain_inj cs cs' :
  cs ≠ [] → cs' ≠ [] → Forall plain cs → Forall plain cs' →
  sep_join posixpath.sep cs = sep_join posixpath.sep cs' → cs = cs'.
Proof.
  intros Hne Hne' Hcs Hcs' Heq.
  rewrite <-(split_sep_join posixpath.sep cs), <-(split_sep_join posixpath.sep cs');
    [by rewrite Heq|done|by apply plain_sep_free|done|by apply plain_sep_free].
Qed.

Lemma sep_join_no_linefeed cs :
  Forall file_name cs → 0x0A%N ∉ sep_join posixpath.sep cs.
Proof.
  induction 1 as [|c cs (_ & Hc & _) Hcs IH]; [by apply not_elem_of_nil|].
  destruct cs as [|d cs]; [done|]. rewrite sep_join_cons by done.
  rewrite elem_of_app, elem_of_cons. intros [?|[?|?]]; done.
Qed.

Lemma sep_join_no_return cs :
  Forall file_name cs → 0x0D%N ∉ sep_join posixpath.sep cs.
Proof.
  induction 1 as [|c cs (_ & _ & Hc) Hcs IH]; [by apply not_elem_of_nil|].
  destruct cs as [|d cs]; [done|]. rewrite sep_join_cons by done.
  rewrite elem_of_app, elem_of_cons. intros [?|[?|?]]; done.
Qed.

Lemma elem_of_concat {A} (x : A) (ls : list (list A)) :
  x ∈ concat ls ↔ ∃ l, x ∈ l ∧ l ∈ ls.
Proof.
  induction ls as [|k ls IH]; cbn [concat].
  - split; [by intros ?%elem_of_nil | by intros (? & _ & ?%elem_of_nil)].
  - rewrite elem_of_app, IH. split.
    + intros [?|(l & ? & ?)]; [exists k | exists l];
        (split; [done|]); [apply list_elem_of_here | by apply list_elem_of_further].
    + intros (l & ? & [->|?]%elem_of_cons); [by left | right; eauto].
Qed.

Lemma omap_id_Some {A B} (g : A → B) (l : list A) :
  omap id ((λ x, Some (g x)) <$> l) = g <$> l.
Proof. induction l as [|x l IH]; [done|]. simpl. by f_equal. Qed.

Lemma tree_files_nonnil tree cs : cs ∈ tree_files tree → cs ≠ [].
Proof.
  unfold tree_files. intros (l & Hcs & Hl)%elem_of_concat.
  apply list_elem_of_fmap in Hl as ([[ds dirs] files] & -> & _).
  apply list_elem_of_fmap in Hcs as (f & -> & _). by destruct ds.
Qed.

Section Filedata_tree.
Context `{Interpreter}.
Import TestBtrfs ImageFactory.

(** *** What [__md5sum_image] writes *)

Lemma md5sum_image_dir cwd special md5sum digest ds (files : list str) hf :
  Forall (λ cs, Forall plain cs
                ∧ special (posixpath.join MOUNT_PATH cs) = false
                ∧ md5sum (posixpath.join MOUNT_PATH cs) = Ok (digest cs))
    ((λ f : str, ds ++ [f]) <$> files) →
  for_each (λ hf fname,
      if special (posixpath.join (posixpath.join MOUNT_PATH ds) [fname])
      then mret hf
      else
        res ← md5sum (posixpath.join (posixpath.join MOUNT_PATH ds) [fname]);
        rp ← posixpath.relpath cwd
                (VStr (posixpath.join (posixpath.join MOUNT_PATH ds) [fname]))
                MOUNT_PATH;
        mret (hf ++ res ++ u " " ++ rp ++ [0x0A%N])) files hf
  = Ok (hf ++ concat (manifest_line
                        <$> ((λ cs, (sep_join posixpath.sep cs, digest cs))
                               <$> ((λ f : str, ds ++ [f]) <$> files)))).
Proof.
  revert hf. induction files as [|f files IH]; intros hf Hfiles.
  - simpl. by rewrite app_nil_r.
  - rewrite fmap_cons in Hfiles. apply Forall_cons in Hfiles
      as [(Hplain & Hsp & Hmd5) Hfiles].
    cbn [for_each]. rewrite join_snoc, Hsp, Hmd5, bind_Ok_l.
    assert (MOUNT_PATH ≠ []) as Hm1 by by_compute.
    assert (posixpath.isabs MOUNT_PATH = true) as Hm2 by (by vm_compute).
    assert (ds ++ [f] ≠ []) as Hm3 by (by destruct ds).
    rewrite (relpath_join cwd MOUNT_PATH (ds ++ [f]) Hm1 (or_introl Hm2) Hm3 Hplain).
    rewrite !bind_Ok_l, IH by done. rewrite !fmap_cons. cbn [concat].
    unfold manifest_line at 2. cbn [fst snd]. f_equal.
    change (u " ") with [ch " "]. cbn [app]. by rewrite <-!app_assoc.
Qed.

Lemma md5sum_image_tree cwd special md5sum digest tree hf :
  (∀ cs, cs ∈ tree_files tree →
     Forall plain cs
     ∧ special (posixpath.join MOUNT_PATH cs) = false
     ∧ md5sum (posixpath.join MOUNT_PATH cs) = Ok (digest cs)) →
  md5sum_image cwd (walk MOUNT_PATH tree) special md5sum hf
  = Ok (hf ++ concat (manifest_line <$> tree_entries digest tree)).
Proof.
  unfold md5sum_image, tree_entries. revert hf.
  induction tree as [|[[ds dirs] files] tree IH]; intros hf Htree.
  - simpl. by rewrite app_nil_r.
  - rewrite tree_files_cons in *. cbn [walk fmap list_fmap for_each].
    rewrite (md5sum_image_dir cwd special md5sum digest).
    2:{ apply Forall_forall. intros cs Hcs. apply Htree, elem_of_app. by left. }
    rewrite bind_Ok_l. unfold walk in IH. rewrite IH.
    2:{ intros cs Hcs. apply Htree, elem_of_app. by right. }
    by rewrite !fmap_app, concat_app, <-app_assoc.
Qed.

(** The lines of the images come after the lines of the files and the
    line of dashes. *)
Lemma create_manifest_tail md5sum filename hf0 hf :
  for_each (λ hf f,
      h ← md5sum f;
      mret (hf ++ h ++ u "  " ++ basename f ++ [0x0A%N])) filename hf0 = Ok hf →
  ∃ rest, hf = hf0 ++ rest.
Proof.
  revert hf0. induction filename as [|f filename IH]; intros hf0 Hloop;
    simpl in Hloop.
  - injection Hloop as <-. exists []. by rewrite app_nil_r.
  - destruct (md5sum f) as [h|]; [|done]. rewrite !bind_Ok_l in Hloop.
    destruct (IH _ Hloop) as [rest ->]. eexists. by rewrite <-app_assoc.
Qed.

(** *** What the loop over the recovered tree collects *)

Lemma recovered_file_kept self cwd md5sum digest ds f :
  rec_dir self ≠ [] →
  posixpath.isabs (rec_dir self) = true ∨ posixpath.isabs cwd = true →
  Forall plain (ds ++ [f]) →
  head f ≠ Some (ch "$") →
  excluded (parser self) (posixpath.join (rec_dir self) (ds ++ [f])) = false →
  md5sum (posixpath.join (rec_dir self) (ds ++ [f])) = Ok (digest (ds ++ [f])) →
  recovered_file self cwd md5sum (posixpath.join (rec_dir self) ds) f
  = Ok (Some (sep_join posixpath.sep (ds ++ [f]), digest (ds ++ [f]))).
Proof.
  intros Hrec Habs Hplain Hhead Hex Hmd5. unfold recovered_file.
  destruct f as [|c f].
  { apply Forall_app in Hplain as [_ [[? _] _]%Forall_cons]. done. }
  rewrite (index_Some _ 0%nat c), bind_Ok_l by done.
  rewrite (proj2 (N.eqb_neq c (ch "$"))) by (simpl in Hhead; congruence).
  cbv zeta. rewrite join_snoc.
  unfold excluded in Hex. apply orb_false_elim in Hex as [Hf He].
  simpl in Hf, He. rewrite count_pos_contains, Hf, He by done.
  rewrite Hmd5, bind_Ok_l, relpath_join; [done|done|done|by destruct ds|done].
Qed.

Lemma recovered_tree self cwd md5sum digest tree :
  rec_dir self ≠ [] →
  posixpath.isabs (rec_dir self) = true ∨ posixpath.isabs cwd = true →
  (∀ cs, cs ∈ tree_files tree →
     Forall plain cs
     ∧ (∀ f, last cs = Some f → head f ≠ Some (ch "$"))
     ∧ excluded (parser self) (posixpath.join (rec_dir self) cs) = false
     ∧ md5sum (posixpath.join (rec_dir self) cs) = Ok (digest cs)) →
  ∃ found,
    mapM (λ '(root, _, files),
            mapM (recovered_file self cwd md5sum root) files)
      (walk (rec_dir self) tree) = Ok found
    ∧ omap id (concat found) = tree_entries digest tree.
Proof.
  intros Hrec Habs. unfold tree_entries.
  induction tree as [|[[ds dirs] files] tree IH]; intros Htree.
  - by exists [].
  - rewrite tree_files_cons in *.
    destruct IH as (found & Hfound & Hentries).
    { intros cs Hcs. apply Htree, elem_of_app. by right. }
    assert (mapM (recovered_file self cwd md5sum (posixpath.join (rec_dir self) ds))
              files
            = Ok ((λ f : str, Some (sep_join posixpath.sep (ds ++ [f]),
                                    digest (ds ++ [f]))) <$> files)) as Hdir.
    { apply mapM_Ok, Forall2_fmap_r, Forall_Forall2_diag, Forall_forall.
      intros f Hf. destruct (Htree (ds ++ [f])) as (Hplain & Hlast & Hex & Hmd5).
      { apply elem_of_app. left. apply list_elem_of_fmap. eauto. }
      apply recovered_file_kept; try done. apply Hlast. by rewrite last_snoc. }
    eexists. split.
    + cbn [walk fmap list_fmap mapM]. rewrite Hdir, bind_Ok_l.
      unfold walk in Hfound. rewrite Hfound. reflexivity.
    + cbn [concat]. rewrite omap_app, Hentries, fmap_app. f_equal.
      rewrite <-list_fmap_compose.
      apply (omap_id_Some (λ f : str, (sep_join posixpath.sep (ds ++ [f]),
                                       digest (ds ++ [f])))).
Qed.

(** Two lists of entries of the same files give the same set exactly
    when the digests agree. *)
Lemma tree_entries_eq (d1 d2 : list str → str) tree :
  (∀ cs, cs ∈ tree_files tree → Forall plain cs) →
  (list_to_set (tree_entries d1 tree) : gset (str * str))
  = list_to_set (tree_entries d2 tree)
  ↔ ∀ cs, cs ∈ tree_files tree → d2 cs = d1 cs.
Proof.
  intros Hplain. unfold tree_entries. split.
  - intros Heq cs Hcs.
    assert ((sep_join posixpath.sep cs, d1 cs)
            ∈ (list_to_set ((λ cs, (sep_join posixpath.sep cs, d2 cs))
                              <$> tree_files tree) : gset (str * str))) as Hin.
    { rewrite <-Heq. apply elem_of_list_to_set, list_elem_of_fmap. eauto. }
    apply elem_of_list_to_set, list_elem_of_fmap in Hin as (cs' & [= Hj Hd] & Hcs').
    apply sep_join_plain_inj in Hj as ->;
      [done|by eapply tree_files_nonnil..|by apply Hplain|by apply Hplain].
  - intros Hd. f_equal. apply list_fmap_ext. intros _ cs Hcs%list_elem_of_lookup_2.
    by rewrite (Hd cs).
Qed.

(** X17: [test_filedata] against the manifest of [create]. Let the
    recovered tree have the files the mounted tree had when [create]
    hashed it (plain names without line feed or carriage return, none
    a device, socket or pipe, none passed over by the filters of the test or for a name that
    begins with ['$']), and let the manifest be the one [create] wrote
    into a new file. Then [test_filedata] passes exactly when every
    recovered file has the digest the file had at creation, and fails
    with [AssertionError] otherwise: paths of any depth and names with
    spaces are read back as they were written. *)
Theorem test_filedata_on_recovered_tree self cwd tree special md5sum_created
    md5sum created recovered filename manifest :
  rec_dir self ≠ [] →
  posixpath.isabs (rec_dir self) = true ∨ posixpath.isabs cwd = true →
  (∀ cs, cs ∈ tree_files tree →
     Forall file_name cs
     ∧ special (posixpath.join MOUNT_PATH cs) = false
     ∧ md5sum_created (posixpath.join MOUNT_PATH cs) = Ok (created cs)
     ∧ hexdigest (created cs)
     ∧ md5sum (posixpath.join (rec_dir self) cs) = Ok (recovered cs)
     ∧ (∀ f, last cs = Some f → head f ≠ Some (ch "$"))
     ∧ excluded (parser self) (posixpath.join (rec_dir self) cs) = false) →
  create_manifest cwd (walk MOUNT_PATH tree) special md5sum_created filename []
  = Ok manifest →
  (test_filedata self cwd manifest (walk (rec_dir self) tree) md5sum = Ok ()
   ↔ ∀ cs, cs ∈ tree_files tree → recovered cs = created cs)
  ∧ (test_filedata self cwd manifest (walk (rec_dir self) tree) md5sum = Ok ()
     ∨ test_filedata self cwd manifest (walk (rec_dir self) tree) md5sum
       = Raise AssertionError).
Proof.
  intros Hrec Habs Htree Hmanifest.
  assert (∀ cs, cs ∈ tree_files tree → Forall plain cs) as Hplain.
  { intros cs Hcs. destruct (Htree cs Hcs) as (Hn & _).
    eapply Forall_impl; [exact Hn|]. by intros c [? _]. }
  assert (∃ tail, manifest
                  = concat (manifest_line <$> tree_entries created tree) ++ tail
                  ∧ startswith (u "-") tail = true) as (tail & -> & Htail).
  { unfold create_manifest in Hmanifest.
    rewrite (md5sum_image_tree cwd special md5sum_created created) in Hmanifest.
    2:{ intros cs Hcs. destruct (Htree cs Hcs) as (_ & ? & ? & _).
        split; [by apply Hplain | done]. }
    rewrite bind_Ok_l in Hmanifest.
    destruct (for_each _ filename _) as [hf|] eqn:Hloop; [|done].
    injection Hmanifest as <-.
    apply create_manifest_tail in Hloop as [rest ->].
    rewrite app_nil_l, <-!app_assoc. eexists. split; [reflexivity | done]. }
  destruct (recovered_tree self cwd md5sum recovered tree Hrec Habs)
    as (found & Hfound & Hentries).
  { intros cs Hcs. destruct (Htree cs Hcs) as (_ & _ & _ & _ & ? & ? & ?).
    split; [by apply Hplain | done]. }
  unfold test_filedata. rewrite manifest_loop_lines; [|..|by right].
  2:{ unfold tree_entries. apply Forall_fmap, Forall_forall. intros cs Hcs.
      destruct (Htree cs Hcs) as (Hn & _ & _ & Hhex & _).
      apply hexdigest_manifest_entry;
        [done | by apply sep_join_no_linefeed | by apply sep_join_no_return]. }
  rewrite bind_Ok_l, Hfound, bind_Ok_l. cbv zeta. rewrite Hentries.
  rewrite (right_id_L ∅ (∪)). split.
  - rewrite assertEqual_Ok. by apply tree_entries_eq.
  - unfold assertEqual. destruct (decide _); [by left | by right].
Qed.
End Filedata_tree.

(** ** The filters of [test_filedata] *)

Section Filedata_filters.
Context `{Interpreter}.
Import TestBtrfs.

Lemma recovered_file_Some self cwd md5sum root f rel h :
  recovered_file self cwd md5sum root f = Ok (Some (rel, h)) →
  head f ≠ Some (ch "$")
  ∧ excluded (parser self) (posixpath.join root [f]) = false
  ∧ md5sum (posixpath.join root [f]) = Ok h
  ∧ posixpath.relpath cwd (VStr (posixpath.join root [f])) (rec_dir self) = Ok rel.
Proof.
  unfold recovered_file, excluded. case_index f 0%nat; [|done].
  destruct (_ =? ch "$")%N eqn:Hd; [done|]. cbv zeta.
  rewrite count_pos_contains by done. simpl.
  destruct (fix_subvols self && _ && _); [done|].
  destruct (ignore_ext_backup self && _); [done|].
  intros (h' & Hh & (rel' & Hrel & [= <- <-])%bind_Ok)%bind_Ok.
  split; [|done]. destruct f as [|c f]; [done|]. injection E as ->.
  apply N.eqb_neq in Hd. simpl. congruence.
Qed.

(** The pairs of the set built from the recovered tree. *)
Lemma test_filedata_Ok self cwd manifest walk md5sum :
  test_filedata self cwd manifest walk md5sum = Ok () →
  ∃ stat, manifest_loop (readlines manifest) ∅ = Ok stat
    ∧ ∀ entry, entry ∈ stat →
        ∃ root dirs files f,
          (root, dirs, files) ∈ walk ∧ f ∈ files
          ∧ recovered_file self cwd md5sum root f = Ok (Some entry).
Proof.
  unfold test_filedata.
  intros (stat & Hstat & (found & Hfound%mapM_Ok & ->%assertEqual_Ok)%bind_Ok)%bind_Ok.
  eexists. split; [done|]. intros entry Hentry.
  apply elem_of_list_to_set, list_elem_of_omap in Hentry as (r & Hr & Hid).
  simpl in Hid. subst r.
  apply elem_of_concat in Hr as (l & Hl & [i Hi]%list_elem_of_lookup).
  destruct (Forall2_lookup_r _ _ _ _ _ Hfound Hi)
    as ([[root dirs] files] & Hw & Hdir%mapM_Ok).
  apply list_elem_of_lookup in Hl as [j Hj].
  destruct (Forall2_lookup_r _ _ _ _ _ Hdir Hj) as (f & Hf & Hfile).
  exists root, dirs, files, f.
  split; [apply list_elem_of_lookup; eauto|].
  split; [apply list_elem_of_lookup; eauto | done].
Qed.

(** X18: the filters of [test_filedata] are applied to the recovered
    files only. A path that the manifest lists (before its line of
    dashes) and that the filters would pass over (["ext2_saved"] in it
    with [ignore_ext_backup]; ["snapshot"] and ["subvolume"] in it with
    [fix_subvols]) is matched by no recovered file: the test does not
    pass, whatever was recovered. The working directory is taken to have
    none of the three words in its path. *)
Theorem test_filedata_filters_recovered_side_only self cwd manifest walk md5sum
    stat fname hash :
  contains (u "snapshot") cwd = false →
  contains (u "subvolume") cwd = false →
  contains (u "ext2_saved") cwd = false →
  manifest_loop (readlines manifest) ∅ = Ok stat →
  (fname, hash) ∈ stat →
  excluded (parser self) fname = true →
  is_raise (test_filedata self cwd manifest walk md5sum).
Proof.
  intros Hc1 Hc2 Hc3 Hstat Hin Hex.
  destruct (test_filedata self cwd manifest walk md5sum) as [[]|e] eqn:Htest;
    [|by eexists].
  exfalso. apply test_filedata_Ok in Htest as (stat' & Hstat' & Hentries).
  rewrite Hstat in Hstat'. injection Hstat' as <-.
  destruct (Hentries _ Hin) as (root & dirs & files & f & _ & _ & Hfile).
  apply recovered_file_Some in Hfile as (_ & Hkept & _ & Hrel).
  assert (∀ sub, posixpath.sep ∉ sub → sub ≠ [] →
            contains sub posixpath.pardir = false →
            contains sub cwd = false →
            contains sub fname = true →
            contains sub (posixpath.join root [f]) = true) as Hsub.
  { intros sub H1 H2 H3 H4 H5.
    destruct (contains_relpath sub _ _ _ _ H1 H2 H3 Hrel H5) as [?|[_ ?]];
      [done | congruence]. }
  unfold excluded in Hex, Hkept.
  apply orb_false_elim in Hkept as [Hk1 Hk2].
  apply orb_true_iff in Hex as [[[Hfix Hs1]%andb_true_iff Hs2]%andb_true_iff
                               |[Hign Hs3]%andb_true_iff].
  - rewrite Hfix, (Hsub (u "snapshot")), (Hsub (u "subvolume")) in Hk1;
      [done|by_compute|done|done|done|done|by_compute|done|done|done|done].
  - rewrite Hign, (Hsub (u "ext2_saved")) in Hk2;
      [done|by_compute|done|done|done|done].
Qed.
End Filedata_filters.

(** ** [testimage.py]: names, commands and file sizes *)

Section Image_names.
Import ImageFactory.

(** X19: the names of an image type, and who reads what. The last name
    is always the manifest [imagetype.img.md5] and the names before it
    are the images: one, or two when the type has ["raid"] in its name.
    The names are distinct. [create] writes the manifest to the last
    name below the image directory, and that is the file [self.files[-1]]
    that [test_filedata] opens; the first image it formats is
    [self.files[0]], the file [fls], [ils] and [istat] are run on. *)
Theorem image_names_agree imagetype ipath :
  type_to_names imagetype
  = (if contains (u "raid") imagetype
     then [imagetype ++ u ".1.img"; imagetype ++ u ".2.img"]
     else [imagetype ++ u ".img"]) ++ [imagetype ++ u ".img.md5"]
  ∧ NoDup (type_to_names imagetype)
  ∧ create_hfname imagetype ipath
    = Ok (posixpath.join ipath [imagetype ++ u ".img.md5"])
  ∧ last (TestBtrfs.files (type_to_names imagetype) ipath imagetype false)
    = Some (posixpath.join ipath [imagetype ++ u ".img.md5"])
  ∧ TestBtrfs.files (type_to_names imagetype) ipath imagetype false
    = create_filename imagetype ipath
      ++ [posixpath.join ipath [imagetype ++ u ".img.md5"]]
  ∧ (length (create_filename imagetype ipath)
     = if contains (u "raid") imagetype then 2 else 1)%nat
  ∧ head (TestBtrfs.files (type_to_names imagetype) ipath imagetype false)
    = head (create_filename imagetype ipath).
Proof.
  assert (∀ a b : str, a ≠ b → imagetype ++ a ≠ imagetype ++ b) as Hne.
  { intros a b Hab Heq. by apply app_inv_head in Heq. }
  unfold create_hfname, create_filename, TestBtrfs.files, type_to_names.
  destruct (contains (u "raid") imagetype); cbv zeta.
  - split; [done|]. split.
    { repeat (apply NoDup_cons; split;
        [rewrite ?elem_of_cons, elem_of_nil;
         intros H; repeat (destruct H as [H|H]); try done;
         revert H; apply Hne; by_compute|]).
      apply NoDup_nil_2. }
    by repeat split.
  - split; [done|]. split.
    { repeat (apply NoDup_cons; split;
        [rewrite ?elem_of_cons, elem_of_nil;
         intros H; repeat (destruct H as [H|H]); try done;
         revert H; apply Hne; by_compute|]).
      apply NoDup_nil_2. }
    by repeat split.
Qed.

(** The cases of [create] on the image type, for a type that is none
    of the supported ones. *)
Lemma create_cmd_other imagetype loopdev :
  imagetype ∉ types → create_cmd imagetype loopdev = Raise ImageCreationError.
Proof.
  unfold types. cbn [fmap list_fmap]. rewrite !not_elem_of_cons.
  intros (H1 & H2 & H3 & H4 & H5 & H6 & H7 & H8 & H9 & H10 & H11 & H12 & H13
          & H14 & H15 & H16 & H17 & _).
  unfold create_cmd, str_eqb. cbv zeta.
  by rewrite !bool_decide_eq_false_2 by done.
Qed.

(** X20: the types [create] supports are the types [main] permits.
    Given one loop device for each image file, [create] finds a
    formatting command for each of the seventeen types of [main]: a
    [mkfs] program, its options, and all the loop devices as the last
    arguments; the second device is asked for only when there are two
    (no [IndexError]). For every other type it raises
    [ImageCreationError]. *)
Theorem create_cmd_supported_types imagetype imagedir loopdev :
  length loopdev = length (create_filename imagetype imagedir) →
  (imagetype ∈ types →
     ∃ cmd prog,
       create_cmd imagetype loopdev = Ok cmd
       ∧ head cmd = Some prog ∧ startswith (u "mkfs.") prog = true
       ∧ drop (length cmd - length loopdev) cmd = loopdev)
  ∧ (imagetype ∉ types →
       create_cmd imagetype loopdev = Raise ImageCreationError).
Proof.
  intros Hlen. split; [|apply create_cmd_other].
  unfold create_filename in Hlen. rewrite length_fmap in Hlen.
  unfold types. cbn [fmap list_fmap]. rewrite !elem_of_cons, elem_of_nil.
  intros Htype.
  repeat (destruct Htype as [->|Htype]); [..|done];
    vm_compute in Hlen;
    (destruct loopdev as [|d0 [|d1 [|d2 loopdev]]]; try discriminate Hlen);
    eexists _, _; (split; [vm_compute; reflexivity|]);
    (split; [reflexivity|]); (split; [by vm_compute | reflexivity]).
Qed.
End Image_names.

(** ** [__create_raw_file]: the size of a created file *)

Lemma string_of_uint_length d :
  String.length (NilEmpty.string_of_uint d) = Decimal.nb_digits d.
Proof. induction d; simpl; by f_equal. Qed.

Lemma length_u s : length (u s) = String.length s.
Proof.
  unfold u. rewrite length_fmap. induction s as [|c s IH]; [done|].
  simpl. by f_equal.
Qed.

(** The number read from digits after [acc] is at least [acc] followed
    by as many zeros. *)
Lemma of_uint_acc_lower d acc :
  Z.pos acc * 10 ^ Z.of_nat (Decimal.nb_digits d) ≤ Z.pos (Pos.of_uint_acc d acc).
Proof.
  revert acc. induction d; intros acc; cbn [Pos.of_uint_acc Decimal.nb_digits];
    [lia|..];
    (etrans; [|apply IHd]); rewrite Nat2Z.inj_succ, Z.pow_succ_r by lia;
    pose proof (Z.pow_nonneg 10 (Z.of_nat (Decimal.nb_digits d))); nia.
Qed.

Lemma of_uint_lower d :
  Decimal.nzhead d = d → d ≠ Decimal.Nil →
  10 ^ (Z.of_nat (Decimal.nb_digits d) - 1) ≤ Z.of_N (Pos.of_uint d).
Proof.
  intros Hd Hnil. destruct d; [done|..];
    cbn [Pos.of_uint Decimal.nb_digits]; rewrite ?Nat2Z.inj_succ;
    replace (Z.succ (Z.of_nat (Decimal.nb_digits d)) - 1)
      with (Z.of_nat (Decimal.nb_digits d)) by lia.
  2-10: cbn [Z.of_N];
    match goal with |- _ ≤ Z.pos (Pos.of_uint_acc _ ?k) =>
      pose proof (of_uint_acc_lower d k);
      pose proof (Z.pow_nonneg 10 (Z.of_nat (Decimal.nb_digits d))); nia
    end.
  exfalso. cbn [Decimal.nzhead] in Hd.
  pose proof (nb_digits_nzhead d) as Hle. rewrite Hd in Hle.
  cbn [Decimal.nb_digits] in Hle. lia.
Qed.

Lemma to_uint_nzhead p : Decimal.nzhead (Pos.to_uint p) = Pos.to_uint p.
Proof.
  pose proof (Unsigned.to_of (Pos.to_uint p)) as Hto.
  rewrite Unsigned.of_to in Hto. cbn [N.to_uint] in Hto.
  pose proof (Unsigned.to_uint_nonzero p) as Hnz.
  unfold Decimal.unorm in Hto.
  destruct (Decimal.nzhead (Pos.to_uint p)) eqn:Hh; congruence.
Qed.

(** [str(n)] of a positive [n] below [10 ^ k] has at most [k] digits. *)
Lemma str_of_int_length n (k : nat) :
  0 < n → n < 10 ^ Z.of_nat k → (length (str_of_int n) ≤ k)%nat.
Proof.
  intros Hpos Hlt. destruct n as [|p|p]; [lia| |lia].
  unfold str_of_int. rewrite length_u, string_of_uint_length.
  pose proof (of_uint_lower (Pos.to_uint p) (to_uint_nzhead p)
                (Unsigned.to_uint_nonnil p)) as Hlow.
  rewrite Unsigned.of_to in Hlow. cbn [Z.of_N] in Hlow.
  destruct (decide (Decimal.nb_digits (Pos.to_uint p) ≤ k)%nat) as [?|Hgt];
    [done|]. exfalso.
  assert (10 ^ Z.of_nat k ≤ 10 ^ (Z.of_nat (Decimal.nb_digits (Pos.to_uint p)) - 1))
    by (apply Z.pow_le_mono_r; lia).
  lia.
Qed.

Section Raw_file.
Import ImageFactory.

Lemma length_concat_const {A} (ls : list (list A)) (n : nat) :
  Forall (λ l, length l = n) ls → length (concat ls) = (n * length ls)%nat.
Proof.
  induction 1 as [|l ls Hl _ IH]; cbn [concat]; [simpl; lia|].
  rewrite length_app, IH, Hl. simpl. lia.
Qed.

Lemma format_left_length fill width s :
  (length s ≤ width)%nat → length (format_left fill width s) = width.
Proof.
  intros Hs. unfold format_left. rewrite length_app, length_replicate. lia.
Qed.

(** X21: the size of a file of [__create_raw_file]. The text it appends
    has [bsize - 5] characters (all ASCII, so as many bytes), not the
    [bsize] its comment announces: [(bsize - 5) // 80] numbered lines of
    80 characters, the line feed included, and [(bsize - 5) % 80]
    dashes. Nothing is written when [bsize] is 5 or less. (The inline
    file of 400 gets 395 bytes, the standard file of one MiB 1048571.) *)
Theorem create_raw_file_size bsize :
  (bsize ≤ 5 → create_raw_file bsize = [])
  ∧ (5 < bsize → bsize < 10 ^ 78 →
     Z.of_nat (length (create_raw_file bsize)) = bsize - 5
     ∧ (∀ i, 0 ≤ i < (bsize - 5) `div` 80 →
          take 80 (drop (Z.to_nat (80 * i)) (create_raw_file bsize))
          = format_left (ch "0") 79 (str_of_int (i + 1) ++ u " ") ++ [0x0A%N])
     ∧ drop (Z.to_nat (80 * ((bsize - 5) `div` 80))) (create_raw_file bsize)
       = replicate (Z.to_nat ((bsize - 5) `mod` 80)) (ch "-")).
Proof.
  unfold create_raw_file. cbv zeta. split.
  - intros Hle. by rewrite (proj2 (Z.ltb_ge 5 bsize)) by lia.
  - intros Hgt Hlt. rewrite (proj2 (Z.ltb_lt 5 bsize)) by lia.
    set (lines := (bsize - 5) `div` 80). set (padding := (bsize - 5) `mod` 80).
    set (line := λ i, format_left (ch "0") 79 (str_of_int (i + 1) ++ u " ")
                      ++ [0x0A%N]).
    assert (0 ≤ lines < 10 ^ 78) as Hlines.
    { unfold lines. split; [apply Z.div_pos; lia|].
      apply Z.div_lt_upper_bound; lia. }
    assert (0 ≤ padding < 80) as Hpad by (apply Z.mod_pos_bound; lia).
    assert (bsize - 5 = 80 * lines + padding) as Hsize
      by (apply Z.div_mod; lia).
    assert (∀ i, 0 ≤ i < lines → length (line i) = 80%nat) as Hline.
    { intros i Hi. unfold line. rewrite length_app, format_left_length; [done|].
      rewrite length_app. change (length (u " ")) with 1%nat.
      pose proof (str_of_int_length (i + 1) 78) as Hlen.
      change (Z.of_nat 78) with 78 in Hlen. lia. }
    assert (∀ n, 0 ≤ n ≤ lines →
              length (concat (line <$> seqZ 0 n)) = Z.to_nat (80 * n)) as Hlen.
    { intros n Hn. rewrite (length_concat_const _ 80).
      - rewrite length_fmap, length_seqZ. lia.
      - apply Forall_fmap, Forall_forall. intros i Hi%elem_of_seqZ.
        apply Hline. lia. }
    split; [|split].
    + rewrite length_app, length_replicate, Hlen by lia. lia.
    + intros i Hi.
      replace lines with (i + (1 + (lines - i - 1))) at 1 by lia.
      rewrite seqZ_app, fmap_app, concat_app by lia.
      rewrite <-app_assoc, drop_app_length'; [|symmetry; apply Hlen; lia].
      rewrite (seqZ_app _ 1) by lia. change (seqZ (0 + i) 1) with [0 + i].
      rewrite Z.add_0_l, fmap_app, concat_app. cbn [fmap list_fmap concat].
      rewrite app_nil_r, <-app_assoc. rewrite take_app_length'; [done|].
      symmetry. apply Hline. lia.
    + by rewrite drop_app_length' by (symmetry; apply Hlen; lia).
Qed.
End Raw_file.

(** ** [mount]: which file is mounted *)

Section Mount.
Import ImageFactory posixpath.

Lemma basename_join d f : plain d → plain f → basename (join d [f]) = f.
Proof.
  intros Hd Hf. rewrite join_plain by done. unfold basename.
  rewrite split_app_sep, !split_sep_free; [done|apply Hf|apply Hd].
Qed.

Lemma basename_plain (p : str) : sep ∉ p → basename p = p.
Proof. intros Hp. unfold basename. by rewrite split_sep_free. Qed.

(** X22: the image [mount] is given. For an image of the factory it is
    the first image file below the image directory, the file
    [self.files[0]] that [fls], [ils] and [istat] read. For a custom image
    it is the base name of the given path: the directory part is
    dropped, so the command names the file the tools read when the path
    has no ['/'], and another path when the image lies in a
    subdirectory (or anywhere but the working directory). *)
Theorem mount_image_argument imagetype mpath :
  (∀ ipath, ∃ opts image,
     mount_cmd imagetype (Some ipath) mpath
     = Ok (u "mount" :: opts ++ [image; mpath])
     ∧ head (TestBtrfs.files (type_to_names imagetype) ipath imagetype false)
       = Some image)
  ∧ (∃ opts,
       mount_cmd imagetype None mpath
       = Ok (u "mount" :: opts ++ [basename imagetype; mpath])
       ∧ head (TestBtrfs.files (type_to_names imagetype) [] imagetype true)
         = Some imagetype)
  ∧ (sep ∉ imagetype → basename imagetype = imagetype)
  ∧ (∀ cwd d f, plain d → plain f → imagetype = join d [f] →
       basename imagetype = f
       ∧ abspath cwd (basename imagetype) ≠ abspath cwd imagetype).
Proof.
  split; [|split; [|split]].
  - intros ipath. unfold mount_cmd, type_to_names, TestBtrfs.files.
    destruct (contains (u "raid") imagetype); cbv zeta;
      rewrite (index_Some _ 0%nat (imagetype ++ _)) by done; rewrite !bind_Ok_l;
      (destruct (str_eqb imagetype (u "btrfs_zlib"));
        [|destruct (str_eqb imagetype (u "btrfs_lzo"))]);
      eexists _, _; (split; [reflexivity | done]).
  - unfold mount_cmd. rewrite (index_Some _ 0%nat (basename imagetype)) by done.
    rewrite bind_Ok_l. cbv zeta.
    (destruct (str_eqb imagetype (u "btrfs_zlib"));
      [|destruct (str_eqb imagetype (u "btrfs_lzo"))]);
      eexists; (split; [reflexivity | done]).
  - apply basename_plain.
  - intros cwd d f Hd Hf ->. rewrite basename_join by done. split; [done|].
    pose proof (proj1 (proj2 Hd)) as Hds. pose proof (proj1 (proj2 Hf)) as Hfs.
    assert (split sep (d ++ sep :: f) = [d; f]) as Hsplit
      by (by rewrite split_app_sep, (split_sep_free sep d Hds),
            (split_sep_free sep f Hfs)).
    intros Heq. destruct (components_abspath cwd) as (under & Hunder).
    assert (Forall plain [f]) as Hpf
      by (apply Forall_cons_2; [done | apply Forall_nil_2]).
    assert (Forall plain [d; f]) as Hpdf
      by (repeat (apply Forall_cons_2; [done|]); apply Forall_nil_2).
    pose proof (Hunder f (proj1 Hf) (plain_not_abs f Hf)) as Hcf.
    rewrite (split_sep_free sep f Hfs) in Hcf. specialize (Hcf Hpf).
    assert (d ++ sep :: f ≠ []) as Hne by (by destruct d).
    assert (startswith [sep] (d ++ sep :: f) = false) as Hrel.
    { pose proof (plain_not_abs d Hd). destruct d as [|c d]; [by destruct Hd|done]. }
    pose proof (Hunder (d ++ sep :: f) Hne Hrel) as Hcd.
    rewrite Hsplit in Hcd. specialize (Hcd Hpdf).
    rewrite <-(join_plain d f Hd Hf) in Hcd.
    rewrite Heq, Hcd in Hcf. apply app_inv_head in Hcf. done.
Qed.
End Mount.

(** ** [create]: the clean-up after a failure, and an earlier manifest *)

Section Create_failure.
Import ImageFactory.

Lemma delete_loop_missing fs paths p :
  p ∈ paths → p ∉ fs →
  (delete_loop fs paths).2
  = Some (Error ImageCreationError (u "could not remove files")).
Proof.
  revert fs. induction paths as [|q paths IH]; intros fs Hp Hfs;
    [by apply elem_of_nil in Hp|].
  cbn [delete_loop]. destruct (decide (q ∈ fs)) as [Hq|Hq]; [|done].
  apply IH.
  - apply elem_of_cons in Hp as [->|Hp]; done.
  - intros [? _]%elem_of_difference. done.
Qed.

Lemma delete_loop_all fs paths :
  NoDup paths → (∀ p, p ∈ paths → p ∈ fs) →
  delete_loop fs paths = (fs ∖ list_to_set paths, None).
Proof.
  intros Hnd. revert fs. induction Hnd as [|p paths Hp _ IH]; intros fs Hin.
  - cbn [delete_loop list_to_set]. by rewrite difference_empty_L.
  - cbn [delete_loop list_to_set]. rewrite decide_True by apply Hin, list_elem_of_here.
    rewrite IH.
    + f_equal. apply set_eq. intros x.
      rewrite !elem_of_difference, elem_of_union, elem_of_singleton. tauto.
    + intros q Hq. apply elem_of_difference. split.
      * by apply Hin, list_elem_of_further.
      * rewrite elem_of_singleton. by intros ->.
Qed.

Lemma delete_loop_subseteq fs paths p :
  p ∈ (delete_loop fs paths).1 → p ∈ fs.
Proof.
  revert fs. induction paths as [|q paths IH]; intros fs; [done|].
  cbn [delete_loop]. destruct (decide (q ∈ fs)); [|done].
  by intros [? _]%IH%elem_of_difference.
Qed.

(** The paths of the names of a type differ as the names do. *)
Lemma type_to_names_paths imagetype ipath :
  NoDup ((λ f, posixpath.join ipath [f]) <$> type_to_names imagetype).
Proof.
  assert (∃ P, ∀ s : str, startswith [posixpath.sep] s = false →
            posixpath.join ipath [imagetype ++ s] = P ++ s) as (P & HP).
  { unfold posixpath.join. cbn [foldl].
    destruct (startswith [posixpath.sep] imagetype) eqn:Habs.
    - exists imagetype. intros s _.
      replace (startswith [posixpath.sep] (imagetype ++ s)) with true; [done|].
      by destruct imagetype.
    - destruct (bool_decide (ipath = []) || posixpath.endswith_sep ipath).
      + exists (ipath ++ imagetype). intros s Hs.
        replace (startswith [posixpath.sep] (imagetype ++ s)) with false;
          [by rewrite app_assoc|]. by destruct imagetype.
      + exists (ipath ++ posixpath.sep :: imagetype). intros s Hs.
        replace (startswith [posixpath.sep] (imagetype ++ s)) with false;
          [by rewrite <-app_assoc|]. by destruct imagetype. }
  assert (∀ a b : str, a ≠ b → P ++ a ≠ P ++ b) as Hne.
  { intros a b Hab Heq. by apply app_inv_head in Heq. }
  unfold type_to_names.
  destruct (contains (u "raid") imagetype); cbv zeta;
    cbn [app fmap list_fmap]; rewrite !HP by done;
    repeat (apply NoDup_cons; split;
      [rewrite ?elem_of_cons, elem_of_nil;
       intros H; repeat (destruct H as [H|H]); try done;
       revert H; apply Hne; by_compute|]);
    apply NoDup_nil_2.
Qed.

(** X23: a failure of [create] is answered with [delete], which hides
    it. When an exception is raised in the [try] block of [create] while
    the manifest does not exist (it is opened last, so this is every
    failure before the digests are written, unless an earlier manifest
    was left behind), [delete] fails on the manifest and the exception
    that leaves [create] is its [ImageCreationError] "could not remove
    files": the original exception is not re-raised. Only when every
    file of the type exists are they all removed and the original
    exception re-raised. The clean-up creates no file. *)
Theorem create_failure_is_masked e fs imagetype imagedir :
  (posixpath.join imagedir [imagetype ++ u ".img.md5"] ∉ fs →
     (create_cleanup e fs imagetype imagedir).2
     = Error ImageCreationError (u "could not remove files"))
  ∧ ((∀ f, f ∈ type_to_names imagetype → posixpath.join imagedir [f] ∈ fs) →
       create_cleanup e fs imagetype imagedir
       = (fs ∖ list_to_set ((λ f, posixpath.join imagedir [f])
                              <$> type_to_names imagetype), e))
  ∧ (∀ p, p ∈ (create_cleanup e fs imagetype imagedir).1 → p ∈ fs).
Proof.
  unfold create_cleanup, delete. split; [|split].
  - intros Hmissing.
    pose proof (delete_loop_missing fs
                  ((λ f, posixpath.join imagedir [f]) <$> type_to_names imagetype)
                  _ ltac:(apply list_elem_of_fmap;
                          exists (imagetype ++ u ".img.md5"); split; [done|];
                          unfold type_to_names; apply elem_of_app; right;
                          apply list_elem_of_here) Hmissing) as Hloop.
    destruct (delete_loop _ _) as [fs' [e'|]]; simpl in *; congruence.
  - intros Hall. rewrite delete_loop_all; [done|apply type_to_names_paths|].
    intros p (f & -> & Hf)%list_elem_of_fmap. by apply Hall.
  - intros p Hp. apply (delete_loop_subseteq fs
      ((λ f, posixpath.join imagedir [f]) <$> type_to_names imagetype)).
    by destruct (delete_loop _ _) as [fs' [e'|]].
Qed.

Lemma for_each_appends {A} (body : str → A → result str) l (s s' : str) :
  (∀ s x s', body s x = Ok s' → ∃ r, s' = s ++ r) →
  for_each body l s = Ok s' → ∃ r, s' = s ++ r.
Proof.
  intros Hbody. revert s. induction l as [|x l IH]; intros s Hloop;
    simpl in Hloop.
  - injection Hloop as <-. exists []. by rewrite app_nil_r.
  - apply bind_Ok in Hloop as (s1 & Hx & Hloop).
    destruct (Hbody _ _ _ Hx) as [r1 ->]. destruct (IH _ Hloop) as [r ->].
    exists (r1 ++ r). by rewrite app_assoc.
Qed.

Lemma md5sum_image_appends cwd walk special md5sum hf hf' :
  md5sum_image cwd walk special md5sum hf = Ok hf' → ∃ rest, hf' = hf ++ rest.
Proof.
  unfold md5sum_image. apply for_each_appends.
  intros s [[root dirs] files] s'. apply for_each_appends.
  clear. intros s fname s'. destruct (special _).
  - intros [= <-]. exists []. by rewrite app_nil_r.
  - intros (res & _ & (rp & _ & [= <-])%bind_Ok)%bind_Ok. eauto.
Qed.

(** X24: [create] never truncates the manifest: it is opened for
    appending, and what the file held stays in front of what is written.
    So an earlier manifest that was left behind hides the new one from
    [test_filedata], which stops at the first line of dashes: the set it
    builds is that of the earlier entries, each written as a digest, one
    space, a path and a line feed, with no carriage return in it. *)
Theorem create_appends_to_manifest cwd walk special md5sum filename hf manifest :
  create_manifest cwd walk special md5sum filename hf = Ok manifest →
  (∃ rest, manifest = hf ++ rest)
  ∧ (∀ old tail,
       hf = concat (manifest_line <$> old) ++ tail →
       Forall manifest_entry old →
       startswith (u "-") tail = true →
       TestBtrfs.manifest_loop (TestBtrfs.readlines manifest) ∅
       = Ok (list_to_set old)).
Proof.
  intros Hcreate.
  assert (∃ rest, manifest = hf ++ rest) as [rest ->].
  { unfold create_manifest in Hcreate.
    destruct (md5sum_image _ _ _ _ _ ≫= _) as [m|] eqn:Hm; [|done].
    injection Hcreate as <-.
    apply bind_Ok in Hm as (hf1 & [r1 ->]%md5sum_image_appends & Hloop).
    apply create_manifest_tail in Hloop as [r2 ->].
    eexists. by rewrite <-!app_assoc. }
  split; [by eexists|].
  intros old tail -> Hold Htail. rewrite <-app_assoc.
  rewrite manifest_loop_lines; [by rewrite (right_id_L ∅ (∪))|done|].
  right. apply startswith_spec in Htail as [t ->].
  apply startswith_spec. exists (t ++ rest). by rewrite <-app_assoc.
Qed.
End Create_failure.

(** ** The further properties at concrete inputs *)

Section Runs_further.
Import TextParser TestBtrfs ImageFactory Examples.
#[local] Existing Instance Ascii_interpreter.interp.

(** X1 on the listing of a file, a metadata entry and a link. *)
Lemma parse_fls_files_respects_filters_run :
  parse_fls_files parser fls_listing = Ok [(u "file", 257); (u "link", 258)]
  ∧ excluded parser (u "link") = false.
Proof.
  assert (parse_fls_files parser fls_listing
          = Ok [(u "file", 257); (u "link", 258)]) as Hparse
    by (vm_compute; reflexivity).
  split; [exact Hparse|].
  apply (parse_fls_files_respects_filters parser fls_listing _ (u "link") 258 Hparse).
  apply list_elem_of_further, list_elem_of_here.
Defined.

(** X2 on the line of the link [/link -> file]. *)
Lemma parse_fls_files_path_of_entry_run :
  ∃ field inode,
    split (ch "|") (u fls_link) !! 2%nat = Some field
    ∧ int_of_str field = Some inode
    ∧ (ch "l" ≠ ch "l" →
       (drop 1 (u "/link -> file"), inode) ∈ [(u "file", 257); (u "link", 258)])
    ∧ (ch "l" = ch "l" → contains (u " -> ") (u "/link -> file") = true →
       ∃ pre target,
         u "/link -> file" = pre ++ u " -> " ++ target
         ∧ (∀ pre' target',
              u "/link -> file" = pre' ++ u " -> " ++ target' →
              (length pre ≤ length pre')%nat)
         ∧ contains (u " -> ") (drop 1 pre) = false
         ∧ (drop 1 pre, inode) ∈ [(u "file", 257); (u "link", 258)]).
Proof.
  apply (parse_fls_files_path_of_entry parser fls_listing fls_text
           [(u "file", 257); (u "link", 258)] (u fls_link) (u "/link -> file")
           (u "l/lrwxrwxrwx") (ch "l")).
  - vm_compute; reflexivity.
  - vm_compute; reflexivity.
  - by_compute.
  - vm_compute; reflexivity.
  - by_compute.
  - vm_compute; reflexivity.
  - vm_compute; reflexivity.
  - vm_compute; reflexivity.
Defined.

(** X3 on a listing that begins with a message. *)
Lemma parse_fls_files_ignores_unseparated_lines_run :
  parse_fls_files parser fls_noted
  = fls_loop parser (filter (λ raw, ch "|" ∈ raw) (splitlines fls_noted_text)) []
  ∧ filter (λ raw, ch "|" ∈ raw) (splitlines fls_noted_text) = [u fls_file].
Proof.
  split; [|vm_compute; reflexivity].
  apply (parse_fls_files_ignores_unseparated_lines parser fls_noted fls_noted_text).
  vm_compute; reflexivity.
Defined.

(** X4 on a line whose name is empty. *)
Lemma parse_fls_files_exceptions_run :
  fls_line parser (u fls_unnamed) = Raise IndexError
  ∧ is_raise (parse_fls_files parser (b fls_unnamed)).
Proof.
  apply (proj2 (parse_fls_files_exceptions parser (b fls_unnamed))
           (u fls_unnamed) (u fls_unnamed) []).
  - vm_compute; reflexivity.
  - by_compute.
  - vm_compute; reflexivity.
  - simpl. lia.
Defined.

(** X5 on the listing of inode 257. *)
Lemma parse_ils_entries_run :
  (∃ raw first ninth,
     raw ∈ splitlines ils_text
     ∧ split (ch "|") raw !! 0%nat = Some first
     ∧ isdigit first = true ∧ first ≠ u "0"
     ∧ split (ch "|") raw !! 8%nat = Some ninth ∧ ninth ≠ u "0"
     ∧ VInt 257 = int_or_str first
     ∧ ils_attrs 99 = int_or_str <$> drop 1 (split (ch "|") raw)
     ∧ (8 ≤ length (ils_attrs 99))%nat)
  ∧ is_Some (({[ VInt 257 := ils_attrs 99 ]} : gmap value (list value))
               !! int_or_str (u "257")).
Proof.
  destruct (parse_ils_entries ils_listing ils_text {[ VInt 257 := ils_attrs 99 ]})
    as [Hsound Hcomplete].
  - vm_compute; reflexivity.
  - vm_compute; reflexivity.
  - split.
    + apply Hsound. vm_compute; reflexivity.
    + apply (Hcomplete (u ils_first) (u "257") (u "100644")).
      * by_compute.
      * vm_compute; reflexivity.
      * vm_compute; reflexivity.
      * by_compute.
      * vm_compute; reflexivity.
      * by_compute.
Defined.

(** X6 on a line of inode 257 with four fields. *)
Lemma parse_ils_raises_on_short_lines_run :
  parse_ils (b ils_short) = Raise IndexError.
Proof.
  apply (proj2 (proj1 (parse_ils_raises_on_short_lines (b ils_short) (u ils_short)
                         ltac:(vm_compute; reflexivity)))).
  exists (u ils_short), (u "257").
  split; [by_compute|]. split; [vm_compute; reflexivity|].
  split; [vm_compute; reflexivity|]. split; [by_compute|].
  vm_compute. lia.
Defined.

(** X7 on a file two directories below [/mnt/loop]. *)
Lemma parse_stat_relative_paths_run :
  parse_stat parser (u "/root") (b stat_deep) (Some (u "/mnt/loop"))
  = Ok [VStr (u "dir/sub/a file") :: stat_deep_attrs]
  ∧ VStr (sep_join posixpath.sep [u "dir"; u "sub"; u "a file"])
      :: (int_or_str <$> stat_deep_fields)
    ∈ [VStr (u "dir/sub/a file") :: stat_deep_attrs].
Proof.
  assert (parse_stat parser (u "/root") (b stat_deep) (Some (u "/mnt/loop"))
          = Ok [VStr (u "dir/sub/a file") :: stat_deep_attrs]) as Hparse
    by (vm_compute; reflexivity).
  split; [exact Hparse|].
  apply (parse_stat_relative_paths parser (u "/root") (b stat_deep) (u "/mnt/loop")
           (u stat_deep) _ (u stat_deep) stat_deep_fields
           [u "dir"; u "sub"; u "a file"]).
  - vm_compute; reflexivity.
  - exact Hparse.
  - by_compute.
  - left. vm_compute; reflexivity.
  - by_compute.
  - vm_compute; reflexivity.
  - by_compute.
  - unfold plain. by_compute.
  - vm_compute; reflexivity.
  - vm_compute; reflexivity.
Defined.

(** X8 on a listing with a blank line. *)
Lemma parse_stat_unnamed_line_raises_run :
  ∃ e, parse_stat parser (u "/root") stat_blank (Some (u "/mnt/loop")) = Raise e
       ∧ (e = ValueError ∨ e = TypeError).
Proof.
  apply (parse_stat_unnamed_line_raises parser (u "/root") stat_blank (u "/mnt/loop")
           stat_blank_text [] []).
  - vm_compute; reflexivity.
  - by_compute.
  - vm_compute; reflexivity.
  - vm_compute; reflexivity.
  - by left.
Defined.

(** X9 on a class that holds a record of an earlier run. *)
Lemma retrieve_tsk_records_run :
  retrieve_tsk (test "old" 10) (b fls_file) ils_listing
  = Ok ({[ VStr (u "file") :: VInt 257 :: ils_attrs 99 ]} ∪ {[ record "old" 10 ]})
  ∧ ∃ tsk_files tsk_inodes,
      parse_fls_files (TestBtrfs.parser (test "old" 10)) (b fls_file) = Ok tsk_files
      ∧ parse_ils ils_listing = Ok tsk_inodes
      ∧ tsk (test "old" 10)
        ⊆ {[ VStr (u "file") :: VInt 257 :: ils_attrs 99 ]} ∪ {[ record "old" 10 ]}
      ∧ ∀ line,
          line ∈ ({[ VStr (u "file") :: VInt 257 :: ils_attrs 99 ]}
                  ∪ {[ record "old" 10 ]} : gset (list value)) ↔
          line ∈ tsk (test "old" 10)
          ∨ ∃ path inode attrs,
              (path, inode) ∈ tsk_files
              ∧ tsk_inodes !! VInt inode = Some attrs
              ∧ line = VStr path :: VInt inode :: attrs.
Proof.
  assert (retrieve_tsk (test "old" 10) (b fls_file) ils_listing
          = Ok ({[ VStr (u "file") :: VInt 257 :: ils_attrs 99 ]}
                ∪ {[ record "old" 10 ]})) as Hrun
    by (vm_compute; reflexivity).
  split; [exact Hrun|].
  exact (retrieve_tsk_records (test "old" 10) (b fls_file) ils_listing _ Hrun).
Defined.

(** X10 on the record the same set-up adds. *)
Lemma retrieve_tsk_field_count_run :
  (10 ≤ length (VStr (u "file") :: VInt 257 :: ils_attrs 99))%nat
  ∧ ∃ path inode,
      (VStr (u "file") :: VInt 257 :: ils_attrs 99) !! 0%nat = Some (VStr path)
      ∧ (VStr (u "file") :: VInt 257 :: ils_attrs 99) !! 1%nat = Some (VInt inode)
      ∧ ∀ k, (k ≤ 9)%nat →
          ∃ v, field_pair k (VStr (u "file") :: VInt 257 :: ils_attrs 99)
               = Ok (VStr path, v).
Proof.
  apply (retrieve_tsk_field_count (test "old" 10) (b fls_file) ils_listing
           ({[ VStr (u "file") :: VInt 257 :: ils_attrs 99 ]} ∪ {[ record "old" 10 ]})).
  - vm_compute; reflexivity.
  - by_compute.
  - by_compute.
Defined.

(** X11 on a mount point with one file and a directory where [stat]
    failed. *)
Lemma retrieve_stat_records_run :
  retrieve_stat (test "old" 10) (u "/root") (b stat_file) [None]
  = Ok ({[ VStr (u "file") :: stat_attrs ]} ∪ {[ record "old" 10 ]})
  ∧ stat (test "old" 10)
    ⊆ {[ VStr (u "file") :: stat_attrs ]} ∪ {[ record "old" 10 ]}.
Proof.
  assert (retrieve_stat (test "old" 10) (u "/root") (b stat_file) [None]
          = Ok ({[ VStr (u "file") :: stat_attrs ]} ∪ {[ record "old" 10 ]}))
    as Hrun by (vm_compute; reflexivity).
  split; [exact Hrun|].
  exact (proj1 (proj1 (retrieve_stat_records (test "old" 10) (u "/root")
                         (b stat_file) [None]) _ Hrun)).
Defined.

(** X12 on a record of [stat] that has nothing but a path. *)
Lemma attribute_test_outcome_run :
  test_metadata_uid (test_sets [record "file" 10] [[VStr (u "b")]])
  = Raise IndexError.
Proof.
  apply (proj1 (attribute_test_outcome 3 test_metadata_uid
                  (test_sets [record "file" 10] [[VStr (u "b")]])
                  ltac:(unfold attribute_tests; apply list_elem_of_here))).
  exists [VStr (u "b")]. split; [right; by_compute | simpl; lia].
Defined.

(** X13 on a class with the same record on the two sides. *)
Lemma passing_test_implies_structure_run :
  test_metadata_uid (test "file" 10) = Ok ()
  ∧ test_structure (test "file" 10) = Ok ().
Proof.
  assert (test_metadata_uid (test "file" 10) = Ok ()) as Hpass
    by (vm_compute; reflexivity).
  split; [exact Hpass|].
  apply (proj1 (passing_test_implies_structure (test "file" 10) (λ _, []))
           3%nat test_metadata_uid); [|exact Hpass].
  unfold attribute_tests. apply list_elem_of_here.
Defined.

(** X14 on a file named like a subvolume: TSK has to give size 0. *)
Lemma test_metadata_size_by_name_run :
  test_metadata_size (test_sets [record "subvolume.txt" 0] [record "subvolume.txt" 7])
  = Ok ()
  ∧ has_field 11 (tsk (test_sets [record "subvolume.txt" 0] [record "subvolume.txt" 7]))
      (VStr (u "subvolume.txt")) (VInt 0).
Proof.
  assert (test_metadata_size
            (test_sets [record "subvolume.txt" 0] [record "subvolume.txt" 7])
          = Ok ()) as Hpass by (vm_compute; reflexivity).
  split; [exact Hpass|].
  apply (proj2 (test_metadata_size_by_name
                  (test_sets [record "subvolume.txt" 0] [record "subvolume.txt" 7]))
           eq_refl Hpass (record "subvolume.txt" 7) (u "subvolume.txt")).
  - by_compute.
  - reflexivity.
  - vm_compute; reflexivity.
Defined.

(** X15 on an [istat] that reports inode 257. *)
Lemma test_metadata_inode_with_faithful_istat_run :
  test_metadata_inode (test "file" 10) (λ _, istat_257)
  = compare_field 1 (test "file" 10).
Proof.
  apply (test_metadata_inode_with_faithful_istat (test "file" 10) (λ _, istat_257)).
  intros line Hline. exists 257.
  assert (line = record "file" 10) as ->.
  { revert Hline. unfold test, tsk. apply (proj1 (elem_of_singleton _ _)). }
  split; [reflexivity | vm_compute; reflexivity].
Defined.

(** X16 on the line of a file with a space in its name. *)
Lemma manifest_loop_reads_written_lines_run :
  manifest_loop
    (readlines (concat (manifest_line <$> [(u "a file", u empty_md5)])
                ++ image_hashes)) ∅
  = Ok (list_to_set [(u "a file", u empty_md5)]).
Proof.
  apply (proj2 manifest_loop_reads_written_lines
           [(u "a file", u empty_md5)] image_hashes).
  - apply Forall_cons_2; [|apply Forall_nil_2].
    unfold manifest_entry. cbv zeta. cbn [fst snd]. by_compute.
  - right. vm_compute; reflexivity.
Defined.

(** A carriage return in the manifest ends a line as a line feed does:
    what was written as the one line of the path [a], a carriage return
    and [b] is read as two lines, and so are two lines that end with a
    carriage return and a line feed. *)
Lemma readlines_carriage_return_run :
  readlines (u "h a" ++ [0x0D%N] ++ u "b" ++ [0x0A%N])
  = [u "h a" ++ [0x0A%N]; u "b" ++ [0x0A%N]]
  ∧ manifest_loop (readlines (u "h a" ++ [0x0D%N] ++ u "b" ++ [0x0A%N])) ∅
    = Ok (list_to_set [(u "a", u "h"); ([], u "b")])
  ∧ readlines (u "h a" ++ [0x0D%N; 0x0A%N] ++ u "k b" ++ [0x0D%N; 0x0A%N])
    = [u "h a" ++ [0x0A%N]; u "k b" ++ [0x0A%N]].
Proof. repeat split; vm_compute; reflexivity. Qed.

(** X17 on a tree with a file in a directory, recovered as it was. *)
Lemma test_filedata_on_recovered_tree_run :
  create_manifest (u "/root") (walk MOUNT_PATH tree) (λ _, false) md5sum
    [u "images/btrfs.img"] [] = Ok tree_manifest
  ∧ test_filedata (test "file" 10) (u "/root") tree_manifest
      (walk (u ".files") tree) md5sum = Ok ().
Proof.
  assert (create_manifest (u "/root") (walk MOUNT_PATH tree) (λ _, false) md5sum
            [u "images/btrfs.img"] [] = Ok tree_manifest) as Hmanifest
    by (vm_compute; reflexivity).
  split; [exact Hmanifest|].
  apply (proj1 (test_filedata_on_recovered_tree (test "file" 10) (u "/root") tree
                  (λ _, false) md5sum md5sum empty_digest empty_digest
                  [u "images/btrfs.img"] tree_manifest
                  ltac:(by_compute) ltac:(right; vm_compute; reflexivity)
                  ltac:(intros cs Hcs;
                        change (tree_files tree)
                          with [[u "a file"]; [u "dir"; u "EOD"]] in Hcs;
                        apply elem_of_cons in Hcs as [->|Hcs];
                        [|apply elem_of_cons in Hcs as [->|Hcs];
                          [|by apply elem_of_nil in Hcs]];
                        (split; [unfold file_name, plain; by_compute|]);
                        (split; [reflexivity|]); (split; [reflexivity|]);
                        (split; [unfold hexdigest; by_compute|]);
                        (split; [reflexivity|]);
                        (split; [intros f [= <-]; by_compute
                                |vm_compute; reflexivity]))
                  Hmanifest)).
  by intros cs _.
Defined.

(** X18 on a manifest that lists [ext2_saved/image]: the test fails
    although the file was recovered with the listed digest. *)
Lemma test_filedata_filters_recovered_side_only_run :
  is_raise (test_filedata (test "file" 10) (u "/root") manifest_backup
              recovered_backup md5sum).
Proof.
  apply (test_filedata_filters_recovered_side_only (test "file" 10) (u "/root")
           manifest_backup recovered_backup md5sum
           {[ (u "ext2_saved/image", u empty_md5) ]}
           (u "ext2_saved/image") (u empty_md5)).
  - vm_compute; reflexivity.
  - vm_compute; reflexivity.
  - vm_compute; reflexivity.
  - vm_compute; reflexivity.
  - by_compute.
  - vm_compute; reflexivity.
Defined.

(** X20 on a raid type with its two loop devices. *)
Lemma create_cmd_supported_types_run :
  ∃ cmd prog,
    create_cmd (u "btrfs_raid1D") [u "/dev/loop0"; u "/dev/loop1"] = Ok cmd
    ∧ head cmd = Some prog ∧ startswith (u "mkfs.") prog = true
    ∧ drop (length cmd - length [u "/dev/loop0"; u "/dev/loop1"]) cmd
      = [u "/dev/loop0"; u "/dev/loop1"].
Proof.
  apply (proj1 (create_cmd_supported_types (u "btrfs_raid1D") (u "images")
                  [u "/dev/loop0"; u "/dev/loop1"]
                  ltac:(vm_compute; reflexivity))).
  by_compute.
Defined.

(** X21 on the inline file: 395 characters for a size of 400. *)
Lemma create_raw_file_size_run :
  Z.of_nat (length (create_raw_file 400)) = 400 - 5
  ∧ drop (Z.to_nat (80 * ((400 - 5) `div` 80))) (create_raw_file 400)
    = replicate (Z.to_nat ((400 - 5) `mod` 80)) (ch "-").
Proof.
  destruct (proj2 (create_raw_file_size 400) ltac:(lia) ltac:(reflexivity))
    as (Hlen & _ & Hpad).
  split; [exact Hlen | exact Hpad].
Defined.
End Runs_further.

Section Runs_mount.
Import ImageFactory Examples.

(** X22 on a custom image in the directory [images]. *)
Lemma mount_image_argument_run :
  mount_cmd custom_image None (u "/mnt/loop")
  = Ok [u "mount"; u "custom.img"; u "/mnt/loop"]
  ∧ basename custom_image = u "custom.img"
  ∧ posixpath.abspath (u "/root") (basename custom_image)
    ≠ posixpath.abspath (u "/root") custom_image.
Proof.
  split; [vm_compute; reflexivity|].
  apply (proj2 (proj2 (proj2 (mount_image_argument custom_image (u "/mnt/loop"))))
           (u "/root") (u "images") (u "custom.img")).
  - unfold plain. by_compute.
  - unfold plain. by_compute.
  - vm_compute; reflexivity.
Defined.
End Runs_mount.

Section Runs_create.
Import TestBtrfs ImageFactory Examples.

(** X23 on a failure of [mkfs]: the image is removed and the error
    that leaves [create] is the one of [delete]. *)
Lemma create_failure_is_masked_run :
  (create_cleanup formatting_failed files_before_manifest (u "btrfs") (u "images")).2
  = Error ImageCreationError (u "could not remove files")
  ∧ (create_cleanup formatting_failed files_before_manifest (u "btrfs")
       (u "images")).1 = ∅.
Proof.
  split; [|vm_compute; reflexivity].
  apply (proj1 (create_failure_is_masked formatting_failed files_before_manifest
                  (u "btrfs") (u "images"))).
  by_compute.
Defined.

(** X24 on a manifest left behind: the digests of the new tree are
    written after it and never read. *)
Lemma create_appends_to_manifest_run :
  create_manifest (u "/root") (walk MOUNT_PATH tree) (λ _, false) md5sum
    [u "images/btrfs.img"] stale_manifest = Ok (stale_manifest ++ tree_manifest)
  ∧ manifest_loop (readlines (stale_manifest ++ tree_manifest)) ∅
    = Ok (list_to_set [(u "old file", u "00000000000000000000000000000000")]).
Proof.
  assert (create_manifest (u "/root") (walk MOUNT_PATH tree) (λ _, false) md5sum
            [u "images/btrfs.img"] stale_manifest
          = Ok (stale_manifest ++ tree_manifest)) as Hcreate
    by (vm_compute; reflexivity).
  split; [exact Hcreate|].
  apply (proj2 (create_appends_to_manifest _ _ _ _ _ _ _ Hcreate)
           [(u "old file", u "00000000000000000000000000000000")]
           (u "--------------------------------" ++ [0x0A%N]
            ++ u "11111111111111111111111111111111  btrfs.img" ++ [0x0A%N])).
  - vm_compute; reflexivity.
  - apply Forall_cons_2; [|apply Forall_nil_2].
    unfold manifest_entry. cbv zeta. cbn [fst snd]. by_compute.
  - vm_compute; reflexivity.
Defined.
End Runs_create.
